(** * Appointment booking widget: availability resolution and form state

    A shallow embedding of [src/src/AppointmentBooking.tsx].  The pure
    helpers ([toKey], the memoised derivations) are Rocq functions; the
    React component is a state record, its event handlers are state
    updates and its [useEffect] hooks are functions from the rendered
    state to a batch of state updates, run by [commit] when one of their
    dependencies changed.  A thrown exception is [None]. *)

From Stdlib Require Import ZArith String Ascii List Lia Bool.
From stdpp Require Import base option list gmap sets strings pretty.

Open Scope string_scope.
Open Scope list_scope.
Open Scope Z_scope.

(** ** Strings *)

(** The regular expression class [\d]. *)
Definition isDigit (c : ascii) : bool :=
  (48 <=? nat_of_ascii c)%nat && (nat_of_ascii c <=? 57)%nat.

Definition isDash (c : ascii) : bool := Ascii.eqb c "-".

(** [/^\d{4}-\d{2}-\d{2}$/.test(s)] *)
Definition isKeyShape (s : string) : bool :=
  match list_ascii_of_string s with
  | [y1; y2; y3; y4; h1; m1; m2; h2; d1; d2] =>
      isDigit y1 && isDigit y2 && isDigit y3 && isDigit y4 && isDash h1
      && isDigit m1 && isDigit m2 && isDash h2 && isDigit d1 && isDigit d2
  | _ => false
  end.

Fixpoint zeros (n : nat) : string :=
  match n with
  | O => ""
  | S n' => String "0" (zeros n')
  end.

(** [s.padStart(len, "0")] *)
Definition padStart (len : nat) (s : string) : string :=
  zeros (len - String.length s) +:+ s.

(** date-fns [addLeadingZeros(number, targetLength)]. *)
Definition addLeadingZeros (number : Z) (targetLength : nat) : string :=
  (if number <? 0 then "-" else "")
  +:+ padStart targetLength (pretty (Z.abs number)).

(** ** Dates

    A JavaScript [Date] is either the Invalid Date or an instant, kept
    here by its fields in the viewer's local time zone ([month] is the
    calendar month 1..12, that is [getMonth() + 1]).  Local midnights are
    ordered like their calendar days, so [isBefore] on the fields is
    [isBefore] on the instants of the dates the component compares. *)

Record LocalTime : Type := mkLocalTime {
  fullYear : Z;
  monthNo : Z;
  dayOfMonth : Z;
  msOfDay : Z
}.

Inductive JSDate : Type :=
  | InvalidDate
  | ValidDate (t : LocalTime).

Definition isValid (d : JSDate) : bool :=
  match d with
  | InvalidDate => false
  | ValidDate _ => true
  end.

Definition startOfDay (d : JSDate) : JSDate :=
  match d with
  | InvalidDate => InvalidDate
  | ValidDate t => ValidDate (mkLocalTime (fullYear t) (monthNo t) (dayOfMonth t) 0)
  end.

Definition time_ltb (a b : LocalTime) : bool :=
  (fullYear a <? fullYear b)
  || ((fullYear a =? fullYear b)
      && ((monthNo a <? monthNo b)
          || ((monthNo a =? monthNo b)
              && ((dayOfMonth a <? dayOfMonth b)
                  || ((dayOfMonth a =? dayOfMonth b)
                      && (msOfDay a <? msOfDay b)))))).

(** date-fns [isBefore(a, b)]: [+a < +b], false when either is NaN. *)
Definition isBefore (a b : JSDate) : bool :=
  match a, b with
  | ValidDate x, ValidDate y => time_ltb x y
  | _, _ => false
  end.

(** The [yyyy-MM-dd] pattern of date-fns [format]: the [y] token prints
    [year] when it is positive and [1 - year] otherwise, padded to four
    digits at least. *)
Definition format_yMd_fields (t : LocalTime) : string :=
  addLeadingZeros (if 0 <? fullYear t then fullYear t else 1 - fullYear t) 4
  +:+ "-" +:+ addLeadingZeros (monthNo t) 2
  +:+ "-" +:+ addLeadingZeros (dayOfMonth t) 2.

(** [format(d, "yyyy-MM-dd")]; date-fns throws RangeError on the Invalid
    Date. *)
Definition format_yMd (d : JSDate) : option string :=
  match d with
  | InvalidDate => None
  | ValidDate t => Some (format_yMd_fields t)
  end.

Definition isLeap (y : Z) : bool :=
  ((y mod 4 =? 0) && negb (y mod 100 =? 0)) || (y mod 400 =? 0).

Definition daysInMonth (y m : Z) : Z :=
  if m =? 2 then (if isLeap y then 29 else 28)
  else if (m =? 4) || (m =? 6) || (m =? 9) || (m =? 11) then 30
  else 31.

Definition digitVal (c : ascii) : Z := Z.of_nat (nat_of_ascii c) - 48.

Definition num2 (a b : ascii) : Z := 10 * digitVal a + digitVal b.

Definition num4 (a b c d : ascii) : Z :=
  1000 * digitVal a + 100 * digitVal b + 10 * digitVal c + digitVal d.

(** The ECMAScript date-time string format, local form
    [YYYY-MM-DDTHH:mm:ss] with every field in range: every engine reads
    it as that local time.  (Where the zone skips that time of day the
    engine's [Date] is an hour later on the same day; the statements
    depend on the day of such a date and on its key, not on its time of
    day.) *)
Definition isoLocal (s : string) : option LocalTime :=
  match list_ascii_of_string s with
  | [y1; y2; y3; y4; h1; m1; m2; h2; d1; d2; sep; H1; H2; c1; M1; M2; c2; S1; S2] =>
      if isDigit y1 && isDigit y2 && isDigit y3 && isDigit y4 && isDash h1
         && isDigit m1 && isDigit m2 && isDash h2 && isDigit d1 && isDigit d2
         && Ascii.eqb sep "T" && isDigit H1 && isDigit H2 && Ascii.eqb c1 ":"
         && isDigit M1 && isDigit M2 && Ascii.eqb c2 ":"
         && isDigit S1 && isDigit S2
      then
        let y := num4 y1 y2 y3 y4 in
        let m := num2 m1 m2 in
        let d := num2 d1 d2 in
        let hh := num2 H1 H2 in
        let mm := num2 M1 M2 in
        let ss := num2 S1 S2 in
        if (1 <=? m) && (m <=? 12) && (1 <=? d) && (d <=? daysInMonth y m)
           && (hh <=? 23) && (mm <=? 59) && (ss <=? 59)
        then Some (mkLocalTime y m d (((hh * 60 + mm) * 60 + ss) * 1000))
        else None
      else None
  | _ => None
  end.

(** What [toKey] is called with: [string | Date]. *)
Inductive KeyArg : Type :=
  | KStr (s : string)
  | KDate (d : JSDate).

(** ** Types of the aggregated availability endpoint (lines 33-49) *)

Record Service : Type := mkService {
  svc_id : Z;
  svc_name : string;
  svc_durationMinutes : option Z
}.

Record EmployeeAvailability : Type := mkEmployee {
  emp_id : Z;
  emp_name : string;
  emp_lastname : option string;
  emp_services : list Service;
  emp_slots : list string
}.

Record DayAvailability : Type := mkDay {
  day_date : string;
  day_employees : list EmployeeAvailability
}.

Record AvailabilityResponse : Type := mkAvailability {
  av_companyId : Z;
  av_month : string;
  av_days : list DayAvailability
}.

#[global] Instance Service_eq_dec : EqDecision Service.
Proof. solve_decision. Defined.
#[global] Instance EmployeeAvailability_eq_dec : EqDecision EmployeeAvailability.
Proof. solve_decision. Defined.
#[global] Instance DayAvailability_eq_dec : EqDecision DayAvailability.
Proof. solve_decision. Defined.
#[global] Instance AvailabilityResponse_eq_dec : EqDecision AvailabilityResponse.
Proof. solve_decision. Defined.
#[global] Instance LocalTime_eq_dec : EqDecision LocalTime.
Proof. solve_decision. Defined.
#[global] Instance JSDate_eq_dec : EqDecision JSDate.
Proof. solve_decision. Defined.

(** A string in a condition: the empty string is falsy. *)
Definition truthy (s : string) : bool := negb (String.eqb s "").

(** [String(n) === s] for a number [n] that is an integer, as the ids
    of the endpoint are. *)
Definition idIs (n : Z) (s : string) : bool := String.eqb (pretty n) s.

(** [(e.slots?.length ?? 0) > 0] *)
Definition hasSlots (e : EmployeeAvailability) : bool :=
  (0 <? List.length (emp_slots e))%nat.

(** [e.services?.some((s) => String(s.id) === serviceId)] *)
Definition offers (serviceId : string) (e : EmployeeAvailability) : bool :=
  existsb (fun s => idIs (svc_id s) serviceId) (emp_services e).

(** [employees.find((e) => String(e.id) === employeeId)] *)
Definition findEmployee (employeeId : string)
    (es : list EmployeeAvailability) : option EmployeeAvailability :=
  List.find (fun e => idIs (emp_id e) employeeId) es.

(** The filter logic of lines 184-204. *)
Definition dayHasAvailability (employeeId serviceId : string)
    (d : DayAvailability) : bool :=
  if truthy employeeId then
    match findEmployee employeeId (day_employees d) with
    | Some emp =>
        if hasSlots emp
        then (if truthy serviceId then offers serviceId emp else true)
        else false
    | None => false
    end
  else if truthy serviceId then
    existsb (fun e => hasSlots e && offers serviceId e) (day_employees d)
  else
    existsb hasSlots (day_employees d).

(** [Array.prototype.sort()] without a comparator on strings: ascending
    by code units.  The sorted array of a total order is unique, so an
    insertion sort returns what the engine's sort returns. *)
Fixpoint insertSorted (k : string) (l : list string) : list string :=
  match l with
  | [] => [k]
  | x :: l' => if String.leb k x then k :: l else x :: insertSorted k l'
  end.

Fixpoint sort (l : list string) : list string :=
  match l with
  | [] => []
  | x :: l' => insertSorted x (sort l')
  end.

(** [map.set(k, v)] on a [Map] kept in insertion order: an existing key
    keeps its place and takes the new value. *)
Fixpoint mapSet (k : Z) (v : Service) (m : list (Z * Service)) : list (Z * Service) :=
  match m with
  | [] => [(k, v)]
  | (k', v') :: m' => if k' =? k then (k, v) :: m' else (k', v') :: mapSet k v m'
  end.

(** ** The component state (lines 109-133) *)

Record State : Type := mkState {
  name : string;
  phone : string;
  note : string;
  serviceId : string;
  employeeId : string;
  selectedSlot : string;
  month : LocalTime;
  selectedDate : option JSDate;
  availability : option AvailabilityResponse;
  loadingAvailability : bool;
  error : string;
  submitting : bool;
  timeOpen : bool
}.

Definition setName (v : string) (s : State) : State :=
  mkState v (phone s) (note s) (serviceId s) (employeeId s) (selectedSlot s)
    (month s) (selectedDate s) (availability s) (loadingAvailability s)
    (error s) (submitting s) (timeOpen s).

Definition setPhone (v : string) (s : State) : State :=
  mkState (name s) v (note s) (serviceId s) (employeeId s) (selectedSlot s)
    (month s) (selectedDate s) (availability s) (loadingAvailability s)
    (error s) (submitting s) (timeOpen s).

Definition setNote (v : string) (s : State) : State :=
  mkState (name s) (phone s) v (serviceId s) (employeeId s) (selectedSlot s)
    (month s) (selectedDate s) (availability s) (loadingAvailability s)
    (error s) (submitting s) (timeOpen s).

Definition setServiceId (v : string) (s : State) : State :=
  mkState (name s) (phone s) (note s) v (employeeId s) (selectedSlot s)
    (month s) (selectedDate s) (availability s) (loadingAvailability s)
    (error s) (submitting s) (timeOpen s).

Definition setEmployeeId (v : string) (s : State) : State :=
  mkState (name s) (phone s) (note s) (serviceId s) v (selectedSlot s)
    (month s) (selectedDate s) (availability s) (loadingAvailability s)
    (error s) (submitting s) (timeOpen s).

Definition setSelectedSlot (v : string) (s : State) : State :=
  mkState (name s) (phone s) (note s) (serviceId s) (employeeId s) v
    (month s) (selectedDate s) (availability s) (loadingAvailability s)
    (error s) (submitting s) (timeOpen s).

Definition setMonth (v : LocalTime) (s : State) : State :=
  mkState (name s) (phone s) (note s) (serviceId s) (employeeId s)
    (selectedSlot s) v (selectedDate s) (availability s)
    (loadingAvailability s) (error s) (submitting s) (timeOpen s).

Definition setSelectedDate (v : option JSDate) (s : State) : State :=
  mkState (name s) (phone s) (note s) (serviceId s) (employeeId s)
    (selectedSlot s) (month s) v (availability s) (loadingAvailability s)
    (error s) (submitting s) (timeOpen s).

Definition setAvailability (v : option AvailabilityResponse) (s : State) : State :=
  mkState (name s) (phone s) (note s) (serviceId s) (employeeId s)
    (selectedSlot s) (month s) (selectedDate s) v (loadingAvailability s)
    (error s) (submitting s) (timeOpen s).

Definition setLoadingAvailability (v : bool) (s : State) : State :=
  mkState (name s) (phone s) (note s) (serviceId s) (employeeId s)
    (selectedSlot s) (month s) (selectedDate s) (availability s) v
    (error s) (submitting s) (timeOpen s).

Definition setError (v : string) (s : State) : State :=
  mkState (name s) (phone s) (note s) (serviceId s) (employeeId s)
    (selectedSlot s) (month s) (selectedDate s) (availability s)
    (loadingAvailability s) v (submitting s) (timeOpen s).

Definition setSubmitting (v : bool) (s : State) : State :=
  mkState (name s) (phone s) (note s) (serviceId s) (employeeId s)
    (selectedSlot s) (month s) (selectedDate s) (availability s)
    (loadingAvailability s) (error s) v (timeOpen s).

Definition setTimeOpen (v : bool) (s : State) : State :=
  mkState (name s) (phone s) (note s) (serviceId s) (employeeId s)
    (selectedSlot s) (month s) (selectedDate s) (availability s)
    (loadingAvailability s) (error s) (submitting s) v.

(** What one render derives from the state (the memos of lines 170-280
    and [canReserve]). *)
Record View : Type := mkView {
  daysByKey : gmap string DayAvailability;
  availableDaySet : gset string;
  earliestAvailableDate : option JSDate;
  selectedDayData : option DayAvailability;
  employeesForUI : list EmployeeAvailability;
  servicesForUI : list Service;
  slotsForUI : list string;
  canReserve : bool
}.

(** The memo of lines 253-258. *)
Definition employeesMemo (selectedDayData : option DayAvailability)
    (serviceId : string) : list EmployeeAvailability :=
  match selectedDayData with
  | None => []
  | Some d =>
      let base := List.filter hasSlots (day_employees d) in
      if truthy serviceId then List.filter (offers serviceId) base else base
  end.

(** The loops of lines 268-271 over the [Map] of line 267. *)
Definition collectServices (es : list EmployeeAvailability)
    : list (Z * Service) :=
  fold_left
    (fun m e =>
       if (List.length (emp_slots e) =? 0)%nat then m
       else fold_left (fun m' s => mapSet (svc_id s) s m') (emp_services e) m)
    es [].

(** The memo of lines 261-273. *)
Definition servicesMemo (selectedDayData : option DayAvailability)
    (employeeId : string) : list Service :=
  match selectedDayData with
  | None => []
  | Some d =>
      if truthy employeeId then
        match findEmployee employeeId (day_employees d) with
        | Some emp => emp_services emp
        | None => []
        end
      else List.map snd (collectServices (day_employees d))
  end.

(** The memo of lines 276-280. *)
Definition slotsMemo (selectedDayData : option DayAvailability)
    (employeeId : string) : list string :=
  match selectedDayData with
  | None => []
  | Some d =>
      if truthy employeeId then
        match findEmployee employeeId (day_employees d) with
        | Some emp => emp_slots emp
        | None => []
        end
      else []
  end.

(** Lines 322-323. *)
Definition canReserveOf (s : State) : bool :=
  truthy (name s) && truthy (phone s) && truthy (serviceId s)
  && truthy (selectedSlot s) && bool_decide (selectedDate s <> None)
  && truthy (employeeId s) && negb (submitting s).

(** ** Requests, failures and user events *)

(** What a [catch (e: any)] reads of the thrown value: [e?.name] and
    [e?.message], either of which may be missing. *)
Record Exn : Type := mkExn {
  exn_name : option string;
  exn_message : option string
}.

(** What date-fns [format] and [Date.prototype.toISOString] throw on the
    Invalid Date. *)
Definition rangeError : Exn :=
  mkExn (Some "RangeError") (Some "Invalid time value").

(** How the awaited [api<AvailabilityResponse>(...)] call ends. *)
Inductive FetchOutcome : Type :=
  | Resolved (data : AvailabilityResponse)
  | Rejected (e : Exn).

(** The POST payload (lines 52-60), before [Number(...)] and
    [toISOString()] turn its fields into JSON: the local day and the
    ["HH:mm"] slot stand for [dateTime]. *)
Record CreateAppointmentPayload : Type := mkPayload {
  p_serviceId : string;
  p_name : string;
  p_whatsappNumber : string;
  p_date : LocalTime;
  p_slot : string;
  p_note : option string;
  p_employeeId : string
}.

Inductive Request : Type :=
  | GetAvailability (monthParam : string)
  | PostAppointment (payload : CreateAppointmentPayload).

Inductive Event : Type :=
  | ChangeName (v : string)
  | ChangePhone (v : string)
  | ChangeNote (v : string)
  | SelectService (v : string)
  | SelectEmployee (v : string)
  | ClickDay (d : LocalTime)
  | PickSlot (slot : string)
  | PrevMonth
  | NextMonth
  | FetchDone (o : FetchOutcome).

(** [format(targetMonth, "yyyy-MM")] *)
Definition format_yM (t : LocalTime) : string :=
  addLeadingZeros (if 0 <? fullYear t then fullYear t else 1 - fullYear t) 4
  +:+ "-" +:+ addLeadingZeros (monthNo t) 2.

(** date-fns [addMonths]: the day is capped at the length of the target
    month. *)
Definition addMonths (t : LocalTime) (k : Z) : LocalTime :=
  let n := fullYear t * 12 + (monthNo t - 1) + k in
  let y := n / 12 in
  let m := n mod 12 + 1 in
  mkLocalTime y m (Z.min (dayOfMonth t) (daysInMonth y m)) (msOfDay t).

(** [eachDayOfInterval({ start: startOfMonth(month), end: endOfMonth(month) })] *)
Definition monthDays (m : LocalTime) : list LocalTime :=
  List.map (fun d => mkLocalTime (fullYear m) (monthNo m) (Z.of_nat d) 0)
    (seq 1 (Z.to_nat (daysInMonth (fullYear m) (monthNo m)))).

(** [isSameMonth(d, month)] *)
Definition isSameMonth (d m : LocalTime) : bool :=
  (fullYear d =? fullYear m) && (monthNo d =? monthNo m).

(** [buildDateTimeISO] (lines 93-105): [toISOString] throws on the
    Invalid Date. *)
Definition buildDateTimeISO (date : JSDate) (hhmm : string)
    : option (LocalTime * string) :=
  match date with
  | ValidDate t => Some (t, hhmm)
  | InvalidDate => None
  end.

(** The [catch] of lines 154-155. *)
Definition catchFetch (e : Exn) (p : State) : State :=
  if bool_decide (exn_name e <> Some "AbortError")
  then setError (default "Failed to load availability" (exn_message e)) p
  else p.

(** The part of [fetchMonthAvailability] that runs before the request
    is awaited (lines 138-149). *)
Definition fetchStart (targetMonth : LocalTime) (p : State) : State * list Request :=
  (setError "" (setLoadingAvailability true p),
   [GetAvailability (format_yM targetMonth)]).

(** Whether a dependency of an effect differs from its value at the
    render before; on mount every effect runs.  React compares with
    [Object.is]; the model compares values, so a snapshot or a date
    replaced by an equal one does not re-run an effect here.  Such a
    re-run reads the values of the run before, except that the effect
    of lines 283-286 also clears the slot when the day already selected
    is clicked in the calendar. *)
Definition changed {A : Type} `{EqDecision A} (prev : option State)
    (cur : State) (f : State -> A) : bool :=
  match prev with
  | Some p => bool_decide (f p <> f cur)
  | None => true
  end.

(** The dependencies of the effect of lines 224-237. *)
Definition validityDeps (prev : option State) (cur : State) : bool :=
  changed prev cur availability || changed prev cur employeeId
  || changed prev cur serviceId.

(** ** A snapshot to run the model on

    March 2025 as the backend may answer it: Ana works on the 3rd and
    the 10th, Beto on the 7th and the 10th.  The clock reads the 5th. *)
Module Sample.

Definition cut : Service := mkService 1 "Cut" None.
Definition shave : Service := mkService 2 "Shave" (Some 30).

Definition ana : EmployeeAvailability :=
  mkEmployee 1 "Ana" None [cut] ["09:00"; "10:00"].
Definition beto : EmployeeAvailability :=
  mkEmployee 2 "Beto" (Some "Mora") [shave] ["14:00"].

Definition day03 : DayAvailability := mkDay "2025-03-03" [ana].
Definition day07 : DayAvailability := mkDay "2025-03-07" [beto].
Definition day10 : DayAvailability := mkDay "2025-03-10" [ana; beto].

Definition snapshot : AvailabilityResponse :=
  mkAvailability 1 "2025-03" [day10; day03; day07].

Definition clock : LocalTime := mkLocalTime 2025 3 5 36000000.
Definition march : LocalTime := mkLocalTime 2025 3 1 0.
Definition mar07 : JSDate := ValidDate (mkLocalTime 2025 3 7 0).
Definition mar10 : JSDate := ValidDate (mkLocalTime 2025 3 10 0).

(** Mounted, the first request in flight. *)
Definition mounted : State :=
  mkState "" "" "" "" "" "" march None None true "" false false.

(** The snapshot has arrived; the effects have not run yet. *)
Definition loaded : State :=
  mkState "" "" "" "" "" "" march None (Some snapshot) false "" false false.

(** At rest on the earliest available day, nothing chosen. *)
Definition resting : State :=
  mkState "" "" "" "" "" "" march (Some mar07) (Some snapshot)
    false "" false false.

(** On the 10th with the shave chosen. *)
Definition shaving : State :=
  mkState "" "" "" "2" "" "" march (Some mar10) (Some snapshot)
    false "" false false.

(** Every field of the form filled in. *)
Definition booking : State :=
  mkState "Eva" "+506 8888 0000" "first visit" "2" "2" "14:00" march
    (Some mar10) (Some snapshot) false "" false false.





End Sample.

(** An engine that reads nothing but the standard format. *)
Definition strictEngine (s : string) : JSDate := InvalidDate.

(** ** What the specification says, in its own words *)

(** [emp] is the entry of employee [eid] in the list: the entry that a
    look-up by id finds, the only one when ids are not repeated. *)
Definition IsEmployee (es : list EmployeeAvailability) (eid : string)
    (emp : EmployeeAvailability) : Prop :=
  exists before after,
    es = before ++ emp :: after
    /\ pretty (emp_id emp) = eid
    /\ forall e, In e before -> pretty (emp_id e) <> eid.

Definition HasSlot (e : EmployeeAvailability) : Prop := emp_slots e <> [].

Definition OffersService (sid : string) (e : EmployeeAvailability) : Prop :=
  exists sv, In sv (emp_services e) /\ pretty (svc_id sv) = sid.

(** Section 4.2 on one day entry; an unset filter is the empty
    string. *)
Inductive DayAvailable (eid sid : string) (d : DayAvailability) : Prop :=
  | available_employee (emp : EmployeeAvailability) :
      eid <> "" ->
      IsEmployee (day_employees d) eid emp ->
      HasSlot emp ->
      (sid <> "" -> OffersService sid emp) ->
      DayAvailable eid sid d
  | available_service (e : EmployeeAvailability) :
      eid = "" -> sid <> "" ->
      In e (day_employees d) -> HasSlot e -> OffersService sid e ->
      DayAvailable eid sid d
  | available_any (e : EmployeeAvailability) :
      eid = "" -> sid = "" ->
      In e (day_employees d) -> HasSlot e ->
      DayAvailable eid sid d.

(** The local calendar day that a key denotes, when it denotes one. *)
Definition calendarDay (key : string) : option LocalTime :=
  isoLocal (key +:+ "T00:00:00").

(** The day entries of a snapshot; none before the first fetch. *)
Definition daysOf (av : option AvailabilityResponse) : list DayAvailability :=
  match av with
  | Some a => av_days a
  | None => []
  end.

(** ** The HTTP helper (lines 68-79) *)

(** What [api] reads of the [Response] of [fetch]: [res_text] is the
    body as text ([None] when reading it fails) and [res_json] the body
    parsed as JSON, or what the parse throws. *)
Record Response (T : Type) : Type := mkResponse {
  res_ok : bool;
  res_status : Z;
  res_statusText : string;
  res_text : option string;
  res_json : Exn + T
}.

Arguments mkResponse {T}.
Arguments res_ok {T}.
Arguments res_status {T}.
Arguments res_statusText {T}.
Arguments res_text {T}.
Arguments res_json {T}.

(** How a call of [api] ends: it returns a value ([None] is
    [undefined]) or it throws. *)
Inductive ApiResult (T : Type) : Type :=
  | Returned (value : option T)
  | Thrown (e : Exn).

Arguments Returned {T}.
Arguments Thrown {T}.

(** The message of line 75. *)
Definition httpMessage (status : Z) (statusText txt : string) : string :=
  "HTTP " +:+ pretty status +:+ " " +:+ statusText
  +:+ (if truthy txt then " – " +:+ txt else "").

(** [api], lines 68-79, on how [fetch] ended: it rejected with [e], or
    it resolved with a response. *)
Definition api {T : Type} (fetched : Exn + Response T) : ApiResult T :=
  match fetched with
  | inl e => Thrown e
  | inr res =>
      if negb (res_ok res) then
        let txt := default "" (res_text res) in
        Thrown (mkExn (Some "Error")
                  (Some (httpMessage (res_status res) (res_statusText res) txt)))
      else if res_status res =? 204 then Returned None
      else
        match res_json res with
        | inl e => Thrown e
        | inr value => Returned (Some value)
        end
  end.

(** ** The class-name joiner of the popover ([src/unnamed/part_000],
    lines 4-7) *)

(** [Array.prototype.join(sep)] on strings. *)
Fixpoint join (sep : string) (l : list string) : string :=
  match l with
  | [] => ""
  | [x] => x
  | x :: l' => x +:+ sep +:+ join sep l'
  end.

(** [parts.filter(Boolean)]: what is left are the strings that are not
    empty. *)
Fixpoint filterBoolean (parts : list (option string)) : list string :=
  match parts with
  | [] => []
  | Some s :: parts' =>
      if truthy s then s :: filterBoolean parts' else filterBoolean parts'
  | None :: parts' => filterBoolean parts'
  end.

(** [cx(...parts)] *)
Definition cx (parts : list (option string)) : string :=
  join " " (filterBoolean parts).

(** Every date of the snapshot is the key of a calendar day of a
    positive year. *)
Definition calendarKeys (av : option AvailabilityResponse) : bool :=
  forallb
    (fun d =>
       match calendarDay (day_date d) with
       | Some t => 1 <=? fullYear t
       | None => false
       end)
    (daysOf av).

(** The characters of the class [\d]. *)
Definition digitChars : list ascii :=
  ["0"; "1"; "2"; "3"; "4"; "5"; "6"; "7"; "8"; "9"]%char.

(** What the effects of a commit leave of the snapshot, the month and
    the filters of the state they ran on: a filter is kept or
    cleared. *)
Definition afterEffects (p c : State) : Prop :=
  availability c = availability p /\ month c = month p
  /\ (serviceId c = serviceId p \/ serviceId c = "")
  /\ (employeeId c = employeeId p \/ employeeId c = "").


(** The events whose handlers write no dependency of an effect: the
    text fields, the choice of a time slot and a request that failed. *)
Definition outsideDeps (ev : Event) : bool :=
  match ev with
  | ChangeName _ | ChangePhone _ | ChangeNote _ | PickSlot _ => true
  | FetchDone (Rejected _) => true
  | _ => false
  end.

(** Two views that differ at most in [canReserve]. *)
Definition sameLists (v v' : View) : Prop :=
  daysByKey v' = daysByKey v /\ availableDaySet v' = availableDaySet v
  /\ earliestAvailableDate v' = earliestAvailableDate v
  /\ selectedDayData v' = selectedDayData v
  /\ employeesForUI v' = employeesForUI v
  /\ servicesForUI v' = servicesForUI v
  /\ slotsForUI v' = slotsForUI v.

(** Calendar day [a] is strictly before calendar day [b]. *)
Definition dayBefore (a b : LocalTime) : Prop :=
  fullYear a < fullYear b
  \/ (fullYear a = fullYear b
      /\ (monthNo a < monthNo b
          \/ (monthNo a = monthNo b /\ dayOfMonth a < dayOfMonth b))).


(** A string that [toKey] returns as it is. *)
Definition alreadyKey (d : KeyArg) : bool :=
  match d with
  | KStr s => isKeyShape s
  | KDate _ => false
  end.

Section Host.

(** What the JavaScript engine's [Date] constructor makes of a string
    outside the format above: the language leaves it to the engine. *)
Variable engineParse : string -> JSDate.

(** The clock: [new Date()]. *)
Variable now : LocalTime.

(** [new Date(s)] for a string [s]. *)
Definition newDate (s : string) : JSDate :=
  match isoLocal s with
  | Some t => ValidDate t
  | None => engineParse s
  end.

(** [toKey], lines 82-90. *)
Definition toKey (d : KeyArg) : option string :=
  match d with
  | KDate dt => format_yMd (startOfDay dt)
  | KStr s =>
      if isKeyShape s then Some s
      else
        let parsed := newDate s in
        if isValid parsed then format_yMd (startOfDay parsed)
        else
          let fallback := newDate (s +:+ "T00:00:00") in
          format_yMd (startOfDay fallback)
  end.

(** [new Date(`${key}T00:00:00`)] *)
Definition dateOfKey (key : string) : JSDate := newDate (key +:+ "T00:00:00").

(** [startOfDay(new Date())] *)
Definition today : LocalTime :=
  mkLocalTime (fullYear now) (monthNo now) (dayOfMonth now) 0.

(** [isBefore(startOfDay(dayObj), today)] of lines 180-181. *)
Definition isPastKey (key : string) : bool :=
  isBefore (startOfDay (dateOfKey key)) (ValidDate today).

(** One turn of the loop of lines 176-207 on the pair
    [(map, set)]. *)
Definition scanDay (employeeId serviceId : string)
    (acc : gmap string DayAvailability * gset string) (d : DayAvailability)
    : option (gmap string DayAvailability * gset string) :=
  key ← toKey (KStr (day_date d));
  let map := <[key := d]> (acc.1) in
  if isPastKey key then Some (map, acc.2)
  else if dayHasAvailability employeeId serviceId d
       then Some (map, {[key]} ∪ acc.2)
       else Some (map, acc.2).

Fixpoint scanDays (employeeId serviceId : string)
    (acc : gmap string DayAvailability * gset string)
    (ds : list DayAvailability)
    : option (gmap string DayAvailability * gset string) :=
  match ds with
  | [] => Some acc
  | d :: ds' =>
      acc' ← scanDay employeeId serviceId acc d;
      scanDays employeeId serviceId acc' ds'
  end.

(** The memo of lines 170-211: [{ daysByKey, availableDaySet }]. *)
Definition daysMemo (availability : option AvailabilityResponse)
    (employeeId serviceId : string)
    : option (gmap string DayAvailability * gset string) :=
  match availability with
  | Some a => scanDays employeeId serviceId (∅, ∅) (av_days a)
  | None => Some (∅, ∅)
  end.

(** [availability.days.map((d) => toKey(d.date))] *)
Fixpoint dayKeys (ds : list DayAvailability) : option (list string) :=
  match ds with
  | [] => Some []
  | d :: ds' =>
      k ← toKey (KStr (day_date d));
      ks ← dayKeys ds';
      Some (k :: ks)
  end.

(** The memo of lines 214-221 on its two dependencies. *)
Definition earliestMemo (availability : option AvailabilityResponse)
    (availableDaySet : gset string) : option (option JSDate) :=
  match availability with
  | None => Some None
  | Some a =>
      if (size availableDaySet =? 0)%nat then Some None
      else
        ks ← dayKeys (av_days a);
        match sort (List.filter (fun k => bool_decide (k ∈ availableDaySet)) ks) with
        | k0 :: _ => Some (Some (dateOfKey k0))
        | [] => Some None
        end
  end.

(** The memo of lines 247-250. *)
Definition selectedDayMemo (availability : option AvailabilityResponse)
    (selectedDate : option JSDate) (daysByKey : gmap string DayAvailability)
    : option (option DayAvailability) :=
  match availability, selectedDate with
  | Some _, Some d => k ← toKey (KDate d); Some (daysByKey !! k)
  | _, _ => Some None
  end.

(** One render: the memos in the order of the source; [None] when one
    of them throws. *)
Definition render (s : State) : option View :=
  ms ← daysMemo (availability s) (employeeId s) (serviceId s);
  earliest ← earliestMemo (availability s) ms.2;
  sd ← selectedDayMemo (availability s) (selectedDate s) ms.1;
  Some (mkView ms.1 ms.2 earliest sd
          (employeesMemo sd (serviceId s))
          (servicesMemo sd (employeeId s))
          (slotsMemo sd (employeeId s))
          (canReserveOf s)).

(** ** Effects

    An effect reads the rendered state [s] and its view [v] and queues
    state updates; the updates of one commit are applied in order to the
    pending state [p], so the last write to a variable wins. *)

(** Lines 224-237: keep [selectedDate] valid for the current filters. *)
Definition effectValidity (s : State) (v : View) (p : State) : option State :=
  match availability s with
  | None => Some p
  | Some _ =>
      valid ← match selectedDate s with
              | Some d =>
                  k ← toKey (KDate d);
                  Some (bool_decide (k ∈ availableDaySet v))
              | None => Some false
              end;
      if valid : bool then Some p
      else
        match earliestAvailableDate v with
        | Some e => Some (setSelectedDate (Some e) p)
        | None => Some (setSelectedSlot "" (setSelectedDate None p))
        end
  end.

(** Lines 283-286: reset the time when the date changes. *)
Definition effectResetTime (p : State) : State :=
  setTimeOpen false (setSelectedSlot "" p).

(** Lines 289-308: on a change of employee. *)
Definition effectEmployee (s : State) (v : View) (p : State) : option State :=
  if negb (truthy (employeeId s)) then Some p
  else
    match selectedDayData v with
    | None => Some p
    | Some sd =>
        match findEmployee (employeeId s) (day_employees sd) with
        | None => Some p
        | Some emp =>
            let p1 :=
              if truthy (serviceId s) && negb (offers (serviceId s) emp)
              then setServiceId "" p else p in
            hasSlotsToday ←
              (if hasSlots emp then
                 k ← toKey (KDate (default (ValidDate now) (selectedDate s)));
                 Some (bool_decide (Some sd = daysByKey v !! k))
               else Some false);
            let canToday :=
              hasSlotsToday
              && (negb (truthy (serviceId s)) || offers (serviceId s) emp) in
            let p2 :=
              match earliestAvailableDate v with
              | Some e => if negb canToday then setSelectedDate (Some e) p1 else p1
              | None => p1
              end in
            Some (setTimeOpen false (setSelectedSlot "" p2))
        end
    end.

(** Lines 311-319: on a change of service, employee or selected day. *)
Definition effectService (s : State) (v : View) (p : State) : State :=
  if negb (truthy (serviceId s)) || negb (truthy (employeeId s)) then p
  else
    match selectedDayData v with
    | None => p
    | Some sd =>
        match findEmployee (employeeId s) (day_employees sd) with
        | Some emp =>
            if offers (serviceId s) emp then p
            else setTimeOpen false (setSelectedSlot "" (setEmployeeId "" p))
        | None => setTimeOpen false (setSelectedSlot "" (setEmployeeId "" p))
        end
    end.

(** [data.days.map((d) => ({ ...d, date: toKey(d.date) }))] *)
Fixpoint normalizeDays (ds : list DayAvailability) : option (list DayAvailability) :=
  match ds with
  | [] => Some []
  | d :: ds' =>
      k ← toKey (KStr (day_date d));
      r ← normalizeDays ds';
      Some (mkDay k (day_employees d) :: r)
  end.

(** The rest of [fetchMonthAvailability] (lines 150-158), once the
    request has settled. *)
Definition fetchSettle (o : FetchOutcome) (p : State) : State :=
  setLoadingAvailability false
    match o with
    | Resolved data =>
        match normalizeDays (av_days data) with
        | Some ds =>
            setAvailability
              (Some (mkAvailability (av_companyId data) (av_month data) ds)) p
        | None => catchFetch rangeError p
        end
    | Rejected e => catchFetch e p
    end.

(** Lines 361-367. *)
Definition isDisabledDay (s : State) (v : View) (d : LocalTime) : option bool :=
  let outside := negb (isSameMonth d (month s)) in
  let isPast := isBefore (startOfDay (ValidDate d)) (ValidDate today) in
  ds ← toKey (KDate (ValidDate d));
  let allowed := bool_decide (ds ∈ availableDaySet v) in
  Some (outside || isPast || negb allowed).

(** Line 369. *)
Definition canOpenTime (s : State) (v : View) : bool :=
  truthy (employeeId s) && bool_decide (selectedDate s <> None)
  && (0 <? List.length (slotsForUI v))%nat.

(** What the rendered controls let the user do. *)
Definition enabled (s : State) (v : View) (ev : Event) : bool :=
  match ev with
  | SelectService x => existsb (fun sv => idIs (svc_id sv) x) (servicesForUI v)
  | SelectEmployee x => existsb (fun e => idIs (emp_id e) x) (employeesForUI v)
  | ClickDay d => bool_decide (d ∈ monthDays (month s))
  | PickSlot x => canOpenTime s v && bool_decide (x ∈ slotsForUI v)
  | _ => true
  end.

(** The event handlers of the rendered controls and the settling of
    the availability request. *)
Definition handle (s : State) (v : View) (ev : Event) : option State :=
  match ev with
  | ChangeName x => Some (setName x s)
  | ChangePhone x => Some (setPhone x s)
  | ChangeNote x => Some (setNote x s)
  | SelectService x => Some (setServiceId x s)
  | SelectEmployee x => Some (setEmployeeId x s)
  | ClickDay d =>
      disabled ← isDisabledDay s v d;
      if disabled : bool then Some s else Some (setSelectedDate (Some (ValidDate d)) s)
  | PickSlot x => Some (setTimeOpen false (setSelectedSlot x s))
  | PrevMonth => Some (setMonth (addMonths (month s) (-1)) s)
  | NextMonth => Some (setMonth (addMonths (month s) 1) s)
  | FetchDone o => Some (fetchSettle o s)
  end.

(** The effect of lines 164-167: fetch when the month changes. *)
Definition effectMonth (prev : option State) (cur : State)
    : State * list Request :=
  if changed prev cur month then fetchStart (month cur) cur else (cur, []).

(** [selectedDayData] at the render before. *)
Definition prevSelectedDay (prev : option State)
    : option (option (option DayAvailability)) :=
  match prev with
  | Some p => pv ← render p; Some (Some (selectedDayData pv))
  | None => Some None
  end.

(** The dependencies of the effect of lines 311-319. *)
Definition serviceDeps (prev : option State) (cur : State)
    (prevDay : option (option DayAvailability)) (v : View) : bool :=
  changed prev cur serviceId || changed prev cur employeeId
  || bool_decide (prevDay <> Some (selectedDayData v)).

(** One commit: after the render of [cur], the effects whose
    dependencies differ from those of the render before ([prev], none
    on mount) run in the order of the source.  Dependencies are compared
    by value; [availableDaySet] and [earliestAvailableDate] are functions
    of [availability], [employeeId] and [serviceId]. *)
Definition commit (prev : option State) (cur : State)
    : option (State * list Request) :=
  v ← render cur;
  prevDay ← prevSelectedDay prev;
  let start := effectMonth prev cur in
  p2 ← (if validityDeps prev cur
        then effectValidity cur v start.1 else Some start.1);
  let p3 := if changed prev cur selectedDate then effectResetTime p2 else p2 in
  p4 ← (if changed prev cur employeeId
        then effectEmployee cur v p3 else Some p3);
  let p5 :=
    if serviceDeps prev cur prevDay v then effectService cur v p4 else p4 in
  Some (p5, start.2).

(** The state after [n] commits. *)
Fixpoint commits (n : nat) (prev : option State) (cur : State) : option State :=
  match n with
  | O => Some cur
  | S n' =>
      r ← commit prev cur;
      commits n' (Some cur) r.1
  end.

(** [handleSubmit] (lines 325-357), with how the POST and the re-fetch
    it awaits end ([post] is the failure of the POST, if any). *)
Definition handleSubmit (s : State) (post : option Exn) (refetch : FetchOutcome)
    : State * list Request :=
  let p0 := setError "" s in
  if negb (canReserveOf s) || bool_decide (selectedDate s = None) then (p0, [])
  else
    let p1 := setSubmitting true p0 in
    match selectedDate s with
    | None => (p0, [])
    | Some date =>
        match buildDateTimeISO date (selectedSlot s) with
        | None =>
            (setSubmitting false
               (setError (default "No se pudo crear la reserva"
                            (exn_message rangeError)) p1), [])
        | Some dt =>
            let payload :=
              mkPayload (serviceId s) (name s) (phone s) dt.1 dt.2
                (if truthy (note s) then Some (note s) else None)
                (employeeId s) in
            match post with
            | Some e =>
                (setSubmitting false
                   (setError (default "No se pudo crear la reserva"
                                (exn_message e)) p1),
                 [PostAppointment payload])
            | None =>
                let '(p2, reqs) := fetchStart (month s) p1 in
                let p3 := fetchSettle refetch p2 in
                (setSubmitting false (setNote "" (setSelectedSlot "" p3)),
                 PostAppointment payload :: reqs)
            end
        end
    end.

(** Every date of the snapshot has a key, and the key is read back as
    a date. *)
Definition keysDated (av : option AvailabilityResponse) : bool :=
  forallb
    (fun d =>
       match toKey (KStr (day_date d)) with
       | Some k => isValid (dateOfKey k)
       | None => false
       end)
    (daysOf av).

(** The states whose render does not throw, now and after the effects:
    the snapshot is keyed by dates and the selected date is not the
    Invalid Date. *)
Definition wellFormed (s : State) : bool :=
  keysDated (availability s)
  && match selectedDate s with
     | Some d => isValid d
     | None => true
     end.

(** ** Predicates of the statements *)

(** What the effects of one commit may do to the pending state: they
    leave the contact fields, the month and the snapshot alone, they may
    clear the service, the employee and the slot, and they may move the
    selected date to the earliest available date of the render (or clear
    it when there is none). *)
Definition effectStep (v : View) (p q : State) : Prop :=
  name q = name p /\ phone q = phone p /\ note q = note p
  /\ month q = month p /\ availability q = availability p
  /\ submitting q = submitting p
  /\ (serviceId q = serviceId p \/ serviceId q = "")
  /\ (employeeId q = employeeId p \/ employeeId q = "")
  /\ (selectedSlot q = selectedSlot p \/ selectedSlot q = "")
  /\ (selectedDate q = selectedDate p
      \/ selectedDate q = earliestAvailableDate v).

(** The selected date is in the available-day set of the render. *)
Definition dateAvailable (s : State) (v : View) : Prop :=
  exists d k, selectedDate s = Some d /\ toKey (KDate d) = Some k
    /\ k ∈ availableDaySet v.

(** How the component gets from one rendered state to the next: the
    user acts on a rendered control, the availability request settles,
    a submission runs, or the effects of a commit update the state. *)
Inductive Transition (prev cur : State) : Prop :=
  | byEvent (v : View) (ev : Event) :
      render prev = Some v -> enabled prev v ev = true ->
      handle prev v ev = Some cur -> Transition prev cur
  | bySubmit (post : option Exn) (refetch : FetchOutcome) :
      cur = (handleSubmit prev post refetch).1 -> Transition prev cur
  | byEffects (before : option State) (reqs : list Request) :
      commit before prev = Some (cur, reqs) -> Transition prev cur.

(** The services of the employees of a day that have a slot, in the
    order the loops of lines 268-271 visit them. *)
Definition visitedServices (es : list EmployeeAvailability) : list Service :=
  flat_map emp_services (List.filter hasSlots es).

Definition setAll (l : list Service) (m : list (Z * Service)) : list (Z * Service) :=
  fold_left (fun m' sv => mapSet (svc_id sv) sv m') l m.

Definition isGet (r : Request) : bool :=
  match r with
  | GetAvailability _ => true
  | PostAppointment _ => false
  end.

(** [n] decimal digits. *)
Definition digits (n : nat) (s : string) : bool :=
  (String.length s =? n)%nat && forallb isDigit (list_ascii_of_string s).

(** A day of a four-digit year, as [format] prints it. *)
Definition plainDay (t : LocalTime) : Prop :=
  -9998 <= fullYear t <= 9999
  /\ 1 <= monthNo t <= 12 /\ 1 <= dayOfMonth t <= 31.



(** The selected date is right for a set of available keys: it is in
    the set, or it is null and the set is empty. *)
Definition dateSettled (s : State) (keys : gset string) : Prop :=
  (exists d k, selectedDate s = Some d /\ toKey (KDate d) = Some k /\ k ∈ keys)
  \/ (selectedDate s = None /\ keys = ∅).

(** Section 4.2: the date of the key is strictly before the current
    calendar day. *)
Definition PastDay (key : string) : Prop :=
  exists t, dateOfKey key = ValidDate t /\ dayBefore t now.


(** The date that [toKey] formats when its argument is not a key
    already: the [Date] itself; for a string, what [new Date] reads of
    it or, when that is no date, of the string with [T00:00:00]
    appended. *)
Definition dateRead (d : KeyArg) : JSDate :=
  match d with
  | KDate dt => dt
  | KStr s =>
      if isValid (newDate s) then newDate s else newDate (s +:+ "T00:00:00")
  end.

(** ** Facts about the helpers *)

Ltac break_match :=
  match goal with
  | H : context [match ?x with _ => _ end] |- _ => destruct x eqn:?
  | |- context [match ?x with _ => _ end] => destruct x eqn:?
  | H : context [mbind _ ?x] |- _ => destruct x eqn:?
  | |- context [mbind _ ?x] => destruct x eqn:?
  end.

Ltac unfold_effects :=
  unfold effectValidity, effectResetTime, effectEmployee, effectService,
    fetchStart in *.

Ltac crush_effects :=
  unfold_effects; simpl in *;
  repeat (break_match; simpl in *; simplify_eq); simpl in *.

Arguments toKey : simpl never.
Arguments isPastKey : simpl never.
Arguments dayHasAvailability : simpl never.

Lemma truthy_true (s : string) : truthy s = true <-> s <> "".
Proof.
  unfold truthy. rewrite negb_true_iff. split.
  - intros H ->. discriminate.
  - intros H. apply String.eqb_neq. exact H.
Qed.

Lemma truthy_false (s : string) : truthy s = false <-> s = "".
Proof.
  unfold truthy. rewrite negb_false_iff. apply String.eqb_eq.
Qed.

Lemma idIs_true (n : Z) (s : string) : idIs n s = true <-> pretty n = s.
Proof. apply String.eqb_eq. Qed.

Lemma hasSlots_true (e : EmployeeAvailability) : hasSlots e = true <-> HasSlot e.
Proof.
  unfold hasSlots, HasSlot. destruct (emp_slots e); simpl; split; try easy.
Qed.

Lemma offers_true (sid : string) (e : EmployeeAvailability) :
  offers sid e = true <-> OffersService sid e.
Proof.
  unfold offers, OffersService. rewrite existsb_exists.
  split; intros (sv & Hin & H); exists sv; split; auto; now apply idIs_true.
Qed.

Lemma find_first {A : Type} (f : A -> bool) (l : list A) (x : A) :
  List.find f l = Some x
  <-> exists l1 l2, l = l1 ++ x :: l2 /\ f x = true /\ forall y, In y l1 -> f y = false.
Proof.
  induction l as [|a l IH]; simpl.
  - split; [discriminate|]. intros (l1 & l2 & H & _). now destruct l1.
  - destruct (f a) eqn:Ha.
    + split.
      * intros [= ->]. exists [], l. simpl. repeat split; auto. intros y [].
      * intros (l1 & l2 & H & Hx & Hl1). destruct l1 as [|b l1]; simpl in H.
        -- now inversion H.
        -- inversion H; subst. rewrite (Hl1 b) in Ha; [discriminate|now left].
    + rewrite IH. split.
      * intros (l1 & l2 & -> & Hx & Hl1). exists (a :: l1), l2.
        repeat split; auto. intros y [<-|Hy]; auto.
      * intros (l1 & l2 & H & Hx & Hl1). destruct l1 as [|b l1]; simpl in H.
        -- inversion H; subst. congruence.
        -- inversion H; subst. exists l1, l2. repeat split; auto.
           intros y Hy. apply Hl1. now right.
Qed.

Lemma findEmployee_spec (es : list EmployeeAvailability) (eid : string)
    (emp : EmployeeAvailability) :
  findEmployee eid es = Some emp <-> IsEmployee es eid emp.
Proof.
  unfold findEmployee, IsEmployee. rewrite find_first.
  split; intros (l1 & l2 & H & Hx & Hl1); exists l1, l2; repeat split; auto.
  - now apply idIs_true.
  - intros e He Hid. apply idIs_true in Hid. rewrite (Hl1 e He) in Hid. discriminate.
  - now apply idIs_true.
  - intros y Hy. destruct (idIs (emp_id y) eid) eqn:E; auto.
    apply idIs_true in E. now apply Hl1 in E.
Qed.

(** When the ids of a list are not repeated, the entry of an employee
    is any entry with that id. *)
Lemma IsEmployee_unique (es : list EmployeeAvailability) (eid : string)
    (emp : EmployeeAvailability) :
  List.NoDup (List.map emp_id es) ->
  (IsEmployee es eid emp <-> In emp es /\ pretty (emp_id emp) = eid).
Proof.
  intros Hnd. split.
  - intros (l1 & l2 & -> & Hid & _). split; [|exact Hid].
    apply in_or_app. right. now left.
  - intros [Hin Hid]. apply in_split in Hin as (l1 & l2 & ->).
    exists l1, l2. repeat split; auto.
    intros e He Heid. rewrite List.map_app in Hnd. simpl in Hnd.
    apply NoDup_remove_2 in Hnd. apply Hnd.
    apply in_or_app. left.
    assert (emp_id e = emp_id emp) as <-.
    { apply (inj pretty). congruence. }
    now apply in_map.
Qed.

(** The filter logic of the source decides the predicate of §4.2. *)
Lemma dayHasAvailability_spec (eid sid : string) (d : DayAvailability) :
  dayHasAvailability eid sid d = true <-> DayAvailable eid sid d.
Proof.
  unfold dayHasAvailability.
  destruct (truthy eid) eqn:Heid.
  - apply truthy_true in Heid.
    destruct (findEmployee eid (day_employees d)) as [emp|] eqn:Hf.
    + apply findEmployee_spec in Hf as Hemp.
      split.
      * intros H. destruct (hasSlots emp) eqn:Hs; [|discriminate].
        apply hasSlots_true in Hs.
        apply (available_employee _ _ _ emp); auto.
        intros Hsid. apply truthy_true in Hsid. rewrite Hsid in H.
        now apply offers_true.
      * intros [emp' _ Hemp' Hs Ho | e -> | e ->]; try congruence.
        apply findEmployee_spec in Hemp'. rewrite Hf in Hemp'.
        injection Hemp' as <-.
        apply hasSlots_true in Hs. rewrite Hs.
        destruct (truthy sid) eqn:Hsid; auto.
        apply offers_true, Ho. now apply truthy_true.
    + split; [discriminate|].
      intros [emp' _ Hemp' Hs Ho | e -> | e ->]; try congruence.
      apply findEmployee_spec in Hemp'. congruence.
  - apply truthy_false in Heid. subst eid.
    destruct (truthy sid) eqn:Hsid.
    + apply truthy_true in Hsid. rewrite existsb_exists. split.
      * intros (e & Hin & H). apply andb_true_iff in H as [Hs Ho].
        apply (available_service _ _ _ e); auto.
        -- now apply hasSlots_true.
        -- now apply offers_true.
      * intros [emp' Hne | e _ _ Hin Hs Ho | e _ ->]; try congruence.
        exists e. split; auto. apply andb_true_iff. split.
        -- now apply hasSlots_true.
        -- now apply offers_true.
    + apply truthy_false in Hsid. subst sid. rewrite existsb_exists. split.
      * intros (e & Hin & H). apply (available_any _ _ _ e); auto.
        now apply hasSlots_true.
      * intros [emp' Hne | e _ Hne | e _ _ Hin Hs]; try congruence.
        exists e. split; auto. now apply hasSlots_true.
Qed.

(** ** The available-day set *)

Lemma scanDay_set (eid sid : string)
    (acc r : gmap string DayAvailability * gset string) (d : DayAvailability) :
  scanDay eid sid acc d = Some r ->
  exists key, toKey (KStr (day_date d)) = Some key
    /\ forall k, k ∈ r.2 <->
         k ∈ acc.2
         \/ (k = key /\ isPastKey key = false /\ dayHasAvailability eid sid d = true).
Proof.
  unfold scanDay. destruct (toKey (KStr (day_date d))) as [key|]; [|discriminate].
  simpl. intros H. exists key. split; [reflexivity|].
  destruct (isPastKey key); [|destruct (dayHasAvailability eid sid d)];
    injection H as <-; simpl; intros k.
  - split; [auto|]. intros [?|(_ & ? & _)]; [auto|discriminate].
  - rewrite elem_of_union, elem_of_singleton. tauto.
  - split; [auto|]. intros [?|(_ & _ & ?)]; [auto|discriminate].
Qed.

Lemma scanDays_set (eid sid : string) (ds : list DayAvailability) :
  forall acc r : gmap string DayAvailability * gset string,
  scanDays eid sid acc ds = Some r ->
  forall k, k ∈ r.2 <->
    k ∈ acc.2
    \/ exists d, In d ds /\ toKey (KStr (day_date d)) = Some k
         /\ isPastKey k = false /\ dayHasAvailability eid sid d = true.
Proof.
  induction ds as [|d ds IH]; simpl; intros acc r H k.
  - injection H as <-. split; [auto|]. intros [?|(? & [] & _)]. auto.
  - destruct (scanDay eid sid acc d) as [acc'|] eqn:Hd; [|discriminate].
    simpl in H. apply scanDay_set in Hd as (key & Hkey & Hacc').
    rewrite (IH _ _ H k), Hacc'. split.
    + intros [[?|(-> & ? & ?)]|(d' & ? & ?)]; [auto| |].
      * right. exists d. auto.
      * right. exists d'. auto.
    + intros [?|(d' & [<-|Hin] & Hk & Hp & Ha)]; [auto| |].
      * left. right. assert (key = k) as -> by congruence. auto.
      * right. exists d'. auto.
Qed.

(** The scan throws exactly when some date of the snapshot cannot be
    made a key. *)
Lemma scanDays_throws (eid sid : string) (ds : list DayAvailability) :
  forall acc : gmap string DayAvailability * gset string,
  scanDays eid sid acc ds = None
  <-> exists d, In d ds /\ toKey (KStr (day_date d)) = None.
Proof.
  induction ds as [|d ds IH]; simpl; intros acc.
  - split; [discriminate|]. intros (? & [] & _).
  - unfold scanDay at 1.
    destruct (toKey (KStr (day_date d))) as [key|] eqn:Hkey; simpl.
    + assert (forall acc', scanDays eid sid acc' ds = None
                <-> exists d0, (d = d0 \/ In d0 ds) /\ toKey (KStr (day_date d0)) = None)
        as Hstep.
      { intros acc'. rewrite IH. split.
        - intros (d0 & ? & ?). exists d0. auto.
        - intros (d0 & [<-|?] & H0); [congruence|]. exists d0. auto. }
      destruct (isPastKey key); [|destruct (dayHasAvailability eid sid d)];
        simpl; apply Hstep.
    + split; [|reflexivity]. intros _. exists d. auto.
Qed.

(** The available-day set against a re-scan of the snapshot. *)
Lemma daysMemo_rescan (av : option AvailabilityResponse)
    (eid sid : string) :
  match daysMemo av eid sid with
  | Some ms =>
      forall k, k ∈ ms.2 <->
        exists d, In d (daysOf av)
          /\ toKey (KStr (day_date d)) = Some k
          /\ isPastKey k = false
          /\ DayAvailable eid sid d
  | None => exists d, In d (daysOf av) /\ toKey (KStr (day_date d)) = None
  end.
Proof.
  destruct av as [a|]; simpl.
  - destruct (scanDays eid sid (∅, ∅) (av_days a)) as [ms|] eqn:H.
    + intros k. rewrite (scanDays_set _ _ _ _ _ H k). simpl. split.
      * intros [Hin|(d & ? & ? & ? & Hd)]; [set_solver|].
        exists d. rewrite <- dayHasAvailability_spec. auto.
      * intros (d & ? & ? & ? & Hd). right. exists d.
        rewrite dayHasAvailability_spec. auto.
    + now apply scanDays_throws in H.
  - intros k. split; [set_solver|]. intros (? & [] & _).
Qed.

Lemma daysMemo_not_past (av : option AvailabilityResponse) (eid sid : string)
    (ms : gmap string DayAvailability * gset string) (k : string) :
  daysMemo av eid sid = Some ms -> k ∈ ms.2 -> isPastKey k = false.
Proof.
  intros H Hk. pose proof (daysMemo_rescan av eid sid) as R.
  rewrite H in R. apply R in Hk as (d & _ & _ & Hp & _). exact Hp.
Qed.

Lemma isPastKey_calendar (k : string) (t : LocalTime) :
  calendarDay k = Some t ->
  isPastKey k = time_ltb (mkLocalTime (fullYear t) (monthNo t) (dayOfMonth t) 0) today.
Proof.
  unfold calendarDay, isPastKey, dateOfKey, newDate. intros ->. reflexivity.
Qed.

(** ** The order of keys *)

Lemma ascii_compare_trans_le (a b c : ascii) :
  (a ?= b)%char <> Gt -> (b ?= c)%char <> Gt -> (a ?= c)%char <> Gt.
Proof.
  unfold Ascii.compare. rewrite !N.compare_le_iff. lia.
Qed.

Lemma string_leb_trans (a : string) :
  forall b c, String.leb a b = true -> String.leb b c = true -> String.leb a c = true.
Proof.
  unfold String.leb.
  induction a as [|x a IH]; intros [|y b] [|z c]; simpl; try easy.
  destruct (x ?= y)%char eqn:Hxy; try easy;
    destruct (y ?= z)%char eqn:Hyz; try easy.
  - apply Ascii.compare_eq_iff in Hxy, Hyz. subst.
    replace (z ?= z)%char with Eq.
    + apply IH.
    + symmetry. unfold Ascii.compare. apply N.compare_refl.
  - apply Ascii.compare_eq_iff in Hxy. subst. now rewrite Hyz.
  - apply Ascii.compare_eq_iff in Hyz. subst. now rewrite Hxy.
  - assert ((x ?= z)%char = Lt) as ->; [|easy].
    unfold Ascii.compare in *. rewrite N.compare_lt_iff in *. lia.
Qed.

Lemma string_leb_refl (k : string) : String.leb k k = true.
Proof. destruct (String.leb_total k k); auto. Qed.

Lemma insertSorted_In (k x : string) (l : list string) :
  In x (insertSorted k l) <-> x = k \/ In x l.
Proof.
  induction l as [|y l IH]; simpl.
  - intuition.
  - destruct (String.leb k y); simpl; rewrite ?IH; intuition.
Qed.

Lemma sort_In (x : string) (l : list string) : In x (sort l) <-> In x l.
Proof.
  induction l as [|y l IH]; simpl; [tauto|].
  rewrite insertSorted_In, IH. intuition.
Qed.

(** The first element of the sorted array is a least element. *)
Lemma sort_head_least (l : list string) :
  forall k0 rest, sort l = k0 :: rest ->
  In k0 l /\ forall k, In k l -> String.leb k0 k = true.
Proof.
  induction l as [|x l IH]; simpl; intros k0 rest H; [discriminate|].
  destruct (sort l) as [|y r] eqn:Hs.
  - simpl in H. injection H as <- <-.
    assert (l = []) as ->.
    { destruct l as [|z l]; [reflexivity|].
      assert (In z (sort (z :: l))) as Hz by (apply sort_In; now left).
      rewrite Hs in Hz. destruct Hz. }
    split; [now left|]. intros k [<-|[]]. apply string_leb_refl.
  - destruct (IH y r eq_refl) as [Hy Hmin].
    simpl in H. destruct (String.leb x y) eqn:Hxy; injection H as <- <-.
    + split; [now left|]. intros k [<-|Hk].
      * apply string_leb_refl.
      * eapply string_leb_trans; [exact Hxy|]. now apply Hmin.
    + split; [now right|]. intros k [<-|Hk].
      * destruct (String.leb_total x y); auto. congruence.
      * now apply Hmin.
Qed.

Lemma dayKeys_In (ds : list DayAvailability) :
  forall ks, dayKeys ds = Some ks ->
  forall k, In k ks <-> exists d, In d ds /\ toKey (KStr (day_date d)) = Some k.
Proof.
  induction ds as [|d ds IH]; simpl; intros ks H k.
  - injection H as <-. split; [intros []|intros (? & [] & _)].
  - destruct (toKey (KStr (day_date d))) as [kd|] eqn:Hd; [|discriminate].
    simpl in H. destruct (dayKeys ds) as [ks'|]; [|discriminate].
    simpl in H. injection H as <-. simpl. rewrite (IH ks' eq_refl). split.
    + intros [<-|(d' & ? & ?)]; [exists d|exists d']; auto.
    + intros (d' & [<-|?] & Hk); [left; congruence|right; exists d'; auto].
Qed.

Lemma dayKeys_throws (ds : list DayAvailability) :
  dayKeys ds = None <-> exists d, In d ds /\ toKey (KStr (day_date d)) = None.
Proof.
  induction ds as [|d ds IH]; simpl.
  - split; [discriminate|]. intros (? & [] & _).
  - destruct (toKey (KStr (day_date d))) as [kd|] eqn:Hd; simpl.
    + destruct (dayKeys ds) as [ks'|]; simpl.
      * split; [discriminate|]. intros (d' & [<-|Hin] & Hk); [congruence|].
        destruct IH as [_ IH]. discriminate IH. exists d'. auto.
      * split; [|reflexivity]. intros _.
        destruct IH as [IH _]. destruct (IH eq_refl) as (d' & ? & ?).
        exists d'. auto.
    + split; [|reflexivity]. intros _. exists d. auto.
Qed.

(** What the memo of the earliest available day returns, for the set
    computed from the same snapshot. *)
Lemma earliestMemo_spec (av : option AvailabilityResponse) (eid sid : string)
    (ms : gmap string DayAvailability * gset string) :
  daysMemo av eid sid = Some ms ->
  (ms.2 = ∅ /\ earliestMemo av ms.2 = Some None)
  \/ (exists k0, k0 ∈ ms.2
        /\ (forall k, k ∈ ms.2 -> String.leb k0 k = true)
        /\ earliestMemo av ms.2 = Some (Some (dateOfKey k0))).
Proof.
  intros H. pose proof (daysMemo_rescan av eid sid) as R.
  rewrite H in R. unfold earliestMemo.
  destruct av as [a|]; simpl in *.
  - destruct (size ms.2 =? 0)%nat eqn:Hsz.
    { left. split; [|reflexivity]. apply Nat.eqb_eq in Hsz.
      now apply size_empty_iff, leibniz_equiv in Hsz. }
    right. apply Nat.eqb_neq in Hsz.
    destruct (dayKeys (av_days a)) as [ks|] eqn:Hks.
    2:{ apply dayKeys_throws in Hks. apply (scanDays_throws eid sid _ (∅, ∅)) in Hks.
        congruence. }
    simpl.
    assert (forall k, In k (List.filter (fun k => bool_decide (k ∈ ms.2)) ks) <-> k ∈ ms.2)
      as Hfilter.
    { intros k. rewrite filter_In, bool_decide_eq_true, (dayKeys_In _ _ Hks). split.
      - tauto.
      - intros Hk. split; [|exact Hk]. apply R in Hk as (d & ? & ? & _).
        exists d. auto. }
    destruct (sort (List.filter (fun k => bool_decide (k ∈ ms.2)) ks)) as [|k0 rest] eqn:Hs.
    + exfalso. apply Hsz. apply size_empty_iff, elem_of_equiv_empty. intros k Hk.
      apply Hfilter, sort_In in Hk. rewrite Hs in Hk. destruct Hk.
    + apply sort_head_least in Hs as [Hin Hmin]. exists k0. split; [|split].
      * now apply Hfilter.
      * intros k Hk. apply Hmin. now apply Hfilter.
      * reflexivity.
  - left. injection H as <-. simpl. auto.
Qed.

(** ** Keys and calendar days *)



Lemma length_list_ascii_of_string (s : string) :
  List.length (list_ascii_of_string s) = String.length s.
Proof. induction s; simpl; congruence. Qed.

Lemma string_length_append (a b : string) :
  String.length (a +:+ b) = (String.length a + String.length b)%nat.
Proof. induction a as [|c a IH]; simpl; [reflexivity|now rewrite IH]. Qed.

Lemma isoLocal_length (s : string) (t : LocalTime) :
  isoLocal s = Some t -> String.length s = 19%nat.
Proof.
  unfold isoLocal. rewrite <- length_list_ascii_of_string.
  destruct (list_ascii_of_string s) as [|? l]; [discriminate|].
  do 18 (destruct l as [|? l]; [discriminate|]).
  destruct l; [reflexivity|discriminate].
Qed.

(** A key that denotes a calendar day is ten characters, digits around
    two dashes, and denotes the day its digits spell. *)
Lemma calendarDay_inv (k : string) (t : LocalTime) :
  calendarDay k = Some t ->
  exists y1 y2 y3 y4 m1 m2 d1 d2,
    k = String y1 (String y2 (String y3 (String y4 (String "-"
          (String m1 (String m2 (String "-" (String d1 (String d2 "")))))))))
    /\ isDigit y1 = true /\ isDigit y2 = true /\ isDigit y3 = true
    /\ isDigit y4 = true /\ isDigit m1 = true /\ isDigit m2 = true
    /\ isDigit d1 = true /\ isDigit d2 = true
    /\ t = mkLocalTime (num4 y1 y2 y3 y4) (num2 m1 m2) (num2 d1 d2) 0.
Proof.
  unfold calendarDay. intros H.
  pose proof (isoLocal_length _ _ H) as Hlen.
  rewrite string_length_append in Hlen. simpl in Hlen.
  destruct k as [|y1 k]; [discriminate|].
  destruct k as [|y2 k]; [discriminate|].
  destruct k as [|y3 k]; [discriminate|].
  destruct k as [|y4 k]; [discriminate|].
  destruct k as [|h1 k]; [discriminate|].
  destruct k as [|m1 k]; [discriminate|].
  destruct k as [|m2 k]; [discriminate|].
  destruct k as [|h2 k]; [discriminate|].
  destruct k as [|d1 k]; [discriminate|].
  destruct k as [|d2 k]; [discriminate|].
  destruct k as [|? k]; [|simpl in Hlen; lia].
  unfold isoLocal in H.
  cbv beta iota fix delta [String.append list_ascii_of_string] in H.
  match type of H with (if ?c then _ else _) = _ => destruct c eqn:Hc end;
    [|discriminate].
  match type of H with (if ?c then _ else _) = _ => destruct c eqn:Hr end;
    [|discriminate].
  injection H as <-.
  repeat match goal with
         | E : _ && _ = true |- _ => apply andb_true_iff in E as [? ?]
         end.
  unfold isDash in *.
  repeat match goal with
         | E : Ascii.eqb ?a ?b = true |- _ => apply Ascii.eqb_eq in E
         end.
  subst h1 h2.
  exists y1, y2, y3, y4, m1, m2, d1, d2. repeat split; auto.
Qed.



(** C3: whatever the snapshot and the filters, a key of the
    available-day set is never before today: the check of the source
    fails on it, and when the key denotes a calendar day that day is not
    before the current day; so the earliest available date that is
    selected automatically is not before today either. *)
Theorem past_days_never_available (av : option AvailabilityResponse)
    (eid sid : string) (ms : gmap string DayAvailability * gset string) :
  daysMemo av eid sid = Some ms ->
  (forall k, k ∈ ms.2 ->
     isPastKey k = false
     /\ forall t, calendarDay k = Some t -> time_ltb t today = false)
  /\ (forall e, earliestMemo av ms.2 = Some (Some e) ->
        isBefore (startOfDay e) (ValidDate today) = false).
Proof.
  intros H. split.
  - intros k Hk. pose proof (daysMemo_not_past _ _ _ _ _ H Hk) as Hp.
    split; [exact Hp|]. intros t Ht.
    rewrite (isPastKey_calendar _ _ Ht) in Hp.
    apply calendarDay_inv in Ht
      as (? & ? & ? & ? & ? & ? & ? & ? & _ & _ & _ & _ & _ & _ & _ & _ & _ & ->).
    exact Hp.
  - intros e He.
    destruct (earliestMemo_spec _ _ _ _ H) as [[_ E]|(k0 & Hk0 & _ & E)].
    + congruence.
    + rewrite E in He. injection He as <-.
      exact (daysMemo_not_past _ _ _ _ _ H Hk0).
Qed.

(** ** Renders and commits *)

Lemma render_inv (s : State) (v : View) :
  render s = Some v ->
  daysMemo (availability s) (employeeId s) (serviceId s)
    = Some (daysByKey v, availableDaySet v)
  /\ earliestMemo (availability s) (availableDaySet v)
      = Some (earliestAvailableDate v)
  /\ selectedDayMemo (availability s) (selectedDate s) (daysByKey v)
      = Some (selectedDayData v)
  /\ employeesForUI v = employeesMemo (selectedDayData v) (serviceId s)
  /\ servicesForUI v = servicesMemo (selectedDayData v) (employeeId s)
  /\ slotsForUI v = slotsMemo (selectedDayData v) (employeeId s)
  /\ canReserve v = canReserveOf s.
Proof.
  unfold render. intros H.
  destruct (daysMemo _ _ _) as [[m st]|] eqn:E1; [|discriminate]. simpl in H.
  destruct (earliestMemo _ _) as [e|] eqn:E2; [|discriminate]. simpl in H.
  destruct (selectedDayMemo _ _ _) as [sd|] eqn:E3; [|discriminate]. simpl in H.
  injection H as <-. simpl. repeat split; assumption || reflexivity.
Qed.

(** While a snapshot is held, a render that does not throw has made a
    key of the selected date. *)
Lemma render_selected_key (s : State) (v : View) (d : JSDate) :
  render s = Some v -> availability s <> None -> selectedDate s = Some d ->
  exists k, toKey (KDate d) = Some k /\ selectedDayData v = daysByKey v !! k.
Proof.
  intros H Ha Hd. apply render_inv in H as (_ & _ & H & _).
  unfold selectedDayMemo in H. rewrite Hd in H.
  destruct (availability s); [|congruence].
  destruct (toKey (KDate d)) as [k|]; [|discriminate].
  simpl in H. injection H as <-. eauto.
Qed.

Lemma render_selectedDay_some (s : State) (v : View) (sd : DayAvailability) :
  render s = Some v -> selectedDayData v = Some sd ->
  availability s <> None
  /\ exists d k, selectedDate s = Some d /\ toKey (KDate d) = Some k
       /\ daysByKey v !! k = Some sd.
Proof.
  intros H Hsd. apply render_inv in H as (_ & _ & H & _).
  unfold selectedDayMemo in H.
  destruct (availability s); [|congruence].
  destruct (selectedDate s) as [d|]; [|congruence].
  destruct (toKey (KDate d)) as [k|] eqn:Hk; [|discriminate].
  simpl in H. split; [discriminate|]. exists d, k. repeat split; congruence.
Qed.

Lemma effectStep_refl (v : View) (p : State) : effectStep v p p.
Proof. unfold effectStep. repeat split; auto. Qed.

Lemma effectStep_trans (v : View) (p q r : State) :
  effectStep v p q -> effectStep v q r -> effectStep v p r.
Proof.
  unfold effectStep.
  intros (A1 & A2 & A3 & A4 & A5 & A6 & A7 & A8 & A9 & A10)
         (B1 & B2 & B3 & B4 & B5 & B6 & B7 & B8 & B9 & B10).
  repeat split; try congruence.
  - destruct B7 as [->| ->]; auto.
  - destruct B8 as [->| ->]; auto.
  - destruct B9 as [->| ->]; auto.
  - destruct B10 as [->| ->]; auto.
Qed.

Lemma effectValidity_step (s : State) (v : View) (p q : State) :
  effectValidity s v p = Some q -> effectStep v p q.
Proof.
  intros H. unfold effectStep. crush_effects; repeat split; auto.
Qed.

Lemma effectResetTime_step (v : View) (p : State) :
  effectStep v p (effectResetTime p).
Proof. unfold effectStep, effectResetTime. simpl. repeat split; auto. Qed.

Lemma effectEmployee_step (s : State) (v : View) (p q : State) :
  effectEmployee s v p = Some q -> effectStep v p q.
Proof.
  intros H. unfold effectStep. crush_effects; repeat split; auto.
Qed.

Lemma effectService_step (s : State) (v : View) (p : State) :
  effectStep v p (effectService s v p)
  /\ selectedDate (effectService s v p) = selectedDate p
  /\ serviceId (effectService s v p) = serviceId p
  /\ (employeeId (effectService s v p) <> employeeId p ->
      selectedSlot (effectService s v p) = "").
Proof.
  unfold effectStep. crush_effects; repeat split; auto; congruence.
Qed.

Lemma effectMonth_step (v : View) (prev : option State) (cur : State) :
  effectStep v cur (effectMonth prev cur).1
  /\ serviceId (effectMonth prev cur).1 = serviceId cur
  /\ employeeId (effectMonth prev cur).1 = employeeId cur
  /\ selectedSlot (effectMonth prev cur).1 = selectedSlot cur
  /\ selectedDate (effectMonth prev cur).1 = selectedDate cur.
Proof.
  unfold effectMonth, effectStep, fetchStart.
  destruct (changed prev cur month); simpl; repeat split; auto.
Qed.

Lemma keysDated_In (av : option AvailabilityResponse) (d : DayAvailability) :
  keysDated av = true -> In d (daysOf av) ->
  exists k, toKey (KStr (day_date d)) = Some k /\ isValid (dateOfKey k) = true.
Proof.
  unfold keysDated. rewrite forallb_forall. intros H Hd. specialize (H d Hd).
  destruct (toKey (KStr (day_date d))) as [k|]; [eauto|discriminate].
Qed.

Lemma daysMemo_total (av : option AvailabilityResponse) (eid sid : string) :
  keysDated av = true -> exists ms, daysMemo av eid sid = Some ms.
Proof.
  intros H. pose proof (daysMemo_rescan av eid sid) as R.
  destruct (daysMemo av eid sid) as [ms|]; [eauto|].
  destruct R as (d & Hd & Hk).
  destruct (keysDated_In _ _ H Hd) as (k & Hk' & _). congruence.
Qed.

(** The look-up table of days does not depend on the filters. *)
Lemma scanDays_map (eid sid eid' sid' : string) (ds : list DayAvailability) :
  forall acc acc' r r' : gmap string DayAvailability * gset string,
  acc.1 = acc'.1 ->
  scanDays eid sid acc ds = Some r -> scanDays eid' sid' acc' ds = Some r' ->
  r.1 = r'.1.
Proof.
  induction ds as [|d ds IH]; simpl; intros acc acc' r r' Hacc H H'.
  - congruence.
  - unfold scanDay in H, H'.
    destruct (toKey (KStr (day_date d))) as [k|]; [|discriminate].
    simpl in H, H'. rewrite Hacc in H.
    destruct (isPastKey k);
      [|destruct (dayHasAvailability eid sid d);
        destruct (dayHasAvailability eid' sid' d)];
      simpl in H, H'; eapply IH; try exact H; try exact H'; reflexivity.
Qed.

Lemma daysMemo_map (av : option AvailabilityResponse)
    (eid sid eid' sid' : string)
    (ms ms' : gmap string DayAvailability * gset string) :
  daysMemo av eid sid = Some ms -> daysMemo av eid' sid' = Some ms' ->
  ms.1 = ms'.1.
Proof.
  destruct av as [a|]; simpl.
  - apply scanDays_map. reflexivity.
  - congruence.
Qed.

Lemma earliest_valid (av : option AvailabilityResponse) (eid sid : string)
    (ms : gmap string DayAvailability * gset string) (e : JSDate) :
  keysDated av = true -> daysMemo av eid sid = Some ms ->
  earliestMemo av ms.2 = Some (Some e) -> isValid e = true.
Proof.
  intros Hk H He.
  destruct (earliestMemo_spec _ _ _ _ H) as [[_ E]|(k0 & Hk0 & _ & E)];
    [congruence|].
  rewrite E in He. injection He as <-.
  pose proof (daysMemo_rescan av eid sid) as R. rewrite H in R.
  apply R in Hk0 as (d & Hd & Hkey & _).
  destruct (keysDated_In _ _ Hk Hd) as (k & Hk' & Hv). congruence.
Qed.

Lemma earliestMemo_total (av : option AvailabilityResponse) (eid sid : string)
    (ms : gmap string DayAvailability * gset string) :
  daysMemo av eid sid = Some ms -> exists e, earliestMemo av ms.2 = Some e.
Proof.
  intros H. destruct (earliestMemo_spec _ _ _ _ H) as [[_ E]|(k0 & _ & _ & E)];
    eauto.
Qed.

Lemma toKey_valid_date (t : LocalTime) :
  toKey (KDate (ValidDate t)) = Some (format_yMd_fields
    (mkLocalTime (fullYear t) (monthNo t) (dayOfMonth t) 0)).
Proof. reflexivity. Qed.

Lemma isValid_inv (d : JSDate) : isValid d = true -> exists t, d = ValidDate t.
Proof. destruct d; [discriminate|eauto]. Qed.

Lemma wellFormed_inv (s : State) :
  wellFormed s = true <->
  keysDated (availability s) = true
  /\ forall d, selectedDate s = Some d -> isValid d = true.
Proof.
  unfold wellFormed. rewrite andb_true_iff.
  destruct (selectedDate s) as [d|]; split; intros [H1 H2]; split; auto.
  - intros ? [= <-]. exact H2.
  - intros ? [=].
Qed.

(** The render of a well-formed state does not throw. *)
Lemma render_total (s : State) :
  wellFormed s = true -> exists v, render s = Some v.
Proof.
  intros H. apply wellFormed_inv in H as [Hk Hd]. unfold render.
  destruct (daysMemo_total _ (employeeId s) (serviceId s) Hk) as (ms & Hms).
  rewrite Hms. simpl.
  destruct (earliestMemo_total _ _ _ _ Hms) as (e & He). rewrite He. simpl.
  unfold selectedDayMemo.
  destruct (availability s); [|simpl; eauto].
  destruct (selectedDate s) as [d|]; [|simpl; eauto].
  destruct (isValid_inv d (Hd d eq_refl)) as (t & ->).
  rewrite toKey_valid_date. simpl. eauto.
Qed.

Lemma effectValidity_total (s : State) (v : View) (p : State) :
  render s = Some v -> exists q, effectValidity s v p = Some q.
Proof.
  intros H. unfold effectValidity.
  destruct (availability s) as [a|] eqn:Ha; [|eauto].
  destruct (selectedDate s) as [d|] eqn:Hd.
  - destruct (render_selected_key s v d H) as (k & -> & _); [congruence|auto|].
    simpl. destruct (bool_decide _); [eauto|].
    destruct (earliestAvailableDate v); eauto.
  - simpl. destruct (earliestAvailableDate v); eauto.
Qed.

Lemma effectEmployee_total (s : State) (v : View) (p : State) :
  render s = Some v -> exists q, effectEmployee s v p = Some q.
Proof.
  intros H. unfold effectEmployee.
  destruct (negb (truthy (employeeId s))); [eauto|].
  destruct (selectedDayData v) as [sd|] eqn:Hsd; [|eauto].
  destruct (findEmployee _ _) as [emp|]; [|eauto].
  destruct (render_selectedDay_some s v sd H Hsd) as (_ & d & k & -> & Hk & _).
  simpl. rewrite Hk. destruct (hasSlots emp); simpl; eauto.
Qed.

Lemma commit_inv (prev : option State) (cur next : State) (reqs : list Request) :
  commit prev cur = Some (next, reqs) ->
  exists v prevDay p2 p4,
    render cur = Some v
    /\ prevSelectedDay prev = Some prevDay
    /\ (if validityDeps prev cur
        then effectValidity cur v (effectMonth prev cur).1
        else Some (effectMonth prev cur).1) = Some p2
    /\ (if changed prev cur employeeId
        then effectEmployee cur v
               (if changed prev cur selectedDate then effectResetTime p2 else p2)
        else Some (if changed prev cur selectedDate then effectResetTime p2 else p2))
       = Some p4
    /\ next = (if serviceDeps prev cur prevDay v
               then effectService cur v p4 else p4)
    /\ reqs = (effectMonth prev cur).2.
Proof.
  unfold commit. intros H.
  destruct (render cur) as [v|]; [|discriminate]. simpl in H.
  destruct (prevSelectedDay prev) as [prevDay|]; [|discriminate]. simpl in H.
  match type of H with (?x ≫= _) = _ => destruct x as [p2|] eqn:H2 end;
    [|discriminate].
  simpl in H.
  match type of H with (?x ≫= _) = _ => destruct x as [p4|] eqn:H4 end;
    [|discriminate].
  simpl in H. injection H as <- <-.
  exists v, prevDay, p2, p4. repeat split; auto.
Qed.

(** A commit only clears or re-dates. *)
Lemma commit_step (prev : option State) (cur next : State) (reqs : list Request) :
  commit prev cur = Some (next, reqs) ->
  exists v, render cur = Some v /\ effectStep v cur next.
Proof.
  intros H. apply commit_inv in H
    as (v & prevDay & p2 & p4 & Hv & _ & H2 & H4 & -> & _).
  exists v. split; [exact Hv|].
  eapply effectStep_trans; [apply (effectMonth_step v prev cur)|].
  eapply effectStep_trans with (q := p2).
  { destruct (validityDeps prev cur).
    - eapply effectValidity_step; eauto.
    - injection H2 as <-. apply effectStep_refl. }
  eapply effectStep_trans with (q := p4).
  { destruct (changed prev cur selectedDate), (changed prev cur employeeId).
    - eapply effectStep_trans; [apply effectResetTime_step|].
      eapply effectEmployee_step; eauto.
    - injection H4 as <-. apply effectResetTime_step.
    - eapply effectEmployee_step; eauto.
    - injection H4 as <-. apply effectStep_refl. }
  destruct (serviceDeps prev cur prevDay v).
  - apply effectService_step.
  - apply effectStep_refl.
Qed.

(** A commit goes through when the render before and the current
    render did. *)
Lemma commit_total_render (prev : option State) (cur : State) :
  (forall p, prev = Some p -> render p <> None) -> render cur <> None ->
  exists next reqs, commit prev cur = Some (next, reqs).
Proof.
  intros Hp Hc. unfold commit.
  destruct (render cur) as [v|] eqn:Hv; [|congruence]. simpl.
  assert (exists pd, prevSelectedDay prev = Some pd) as (pd & ->).
  { destruct prev as [q|]; simpl; [|eauto].
    specialize (Hp q eq_refl).
    destruct (render q) as [pv|]; [|congruence]. simpl. eauto. }
  simpl.
  assert (exists p2, (if validityDeps prev cur
                      then effectValidity cur v (effectMonth prev cur).1
                      else Some (effectMonth prev cur).1) = Some p2) as (p2 & ->).
  { destruct (validityDeps prev cur); [|eauto].
    now apply effectValidity_total. }
  simpl.
  match goal with
  | |- context [mbind _ ?x] =>
      assert (exists p4, x = Some p4) as (p4 & ->)
  end.
  { destruct (changed prev cur employeeId); [|eauto].
    now apply effectEmployee_total. }
  simpl. eauto.
Qed.

Lemma commit_total (prev : option State) (cur : State) :
  (forall p, prev = Some p -> wellFormed p = true) -> wellFormed cur = true ->
  exists next reqs, commit prev cur = Some (next, reqs).
Proof.
  intros Hp Hc. apply commit_total_render.
  - intros p E. destruct (render_total p (Hp p E)) as (v & ->). discriminate.
  - destruct (render_total cur Hc) as (v & ->). discriminate.
Qed.

Lemma commit_wellFormed (prev : option State) (cur next : State)
    (reqs : list Request) :
  wellFormed cur = true -> commit prev cur = Some (next, reqs) ->
  wellFormed next = true.
Proof.
  intros Hc H. apply commit_step in H as (v & Hv & S).
  destruct S as (_ & _ & _ & _ & Ha & _ & _ & _ & _ & Hd).
  apply wellFormed_inv in Hc as [Hk Hcd]. apply wellFormed_inv.
  rewrite Ha. split; [exact Hk|]. intros d Hnd.
  destruct Hd as [Hd|Hd]; rewrite Hd in Hnd; [auto|].
  apply render_inv in Hv as (Hm & He & _).
  rewrite Hnd in He. eapply earliest_valid; eauto.
Qed.

(** Any number of commits of a well-formed state go through, and none
    of them sets again a service, an employee or a slot that is
    cleared. *)
Lemma commits_total (n : nat) :
  forall (prev : option State) (cur : State),
  (forall p, prev = Some p -> wellFormed p = true) -> wellFormed cur = true ->
  exists st, commits n prev cur = Some st
    /\ wellFormed st = true
    /\ availability st = availability cur
    /\ (serviceId cur = "" -> serviceId st = "")
    /\ (employeeId cur = "" -> employeeId st = "")
    /\ (selectedSlot cur = "" -> selectedSlot st = "").
Proof.
  induction n as [|n IH]; intros prev cur Hp Hc; simpl.
  - exists cur. repeat split; auto.
  - destruct (commit_total prev cur Hp Hc) as (next & reqs & H).
    rewrite H. simpl.
    pose proof (commit_wellFormed _ _ _ _ Hc H) as Hn.
    destruct (IH (Some cur) next) as (st & Hst & Hw & Ha & Hs & He & Hl); auto.
    { intros p [= <-]. exact Hc. }
    apply commit_step in H as (v & _ & S).
    destruct S as (_ & _ & _ & _ & Ha' & _ & S1 & S2 & S3 & _).
    exists st. repeat split; auto.
    + congruence.
    + intros E. apply Hs. destruct S1; congruence.
    + intros E. apply He. destruct S2; congruence.
    + intros E. apply Hl. destruct S3; congruence.
Qed.

(** ** The selected date is kept valid *)

(** What the effect of lines 224-237 does when it runs on a held
    snapshot. *)
Lemma effectValidity_spec (s : State) (v : View) (p : State) :
  render s = Some v -> availability s <> None ->
  (dateAvailable s v -> effectValidity s v p = Some p)
  /\ (~ dateAvailable s v ->
      effectValidity s v p
      = Some match earliestAvailableDate v with
             | Some e => setSelectedDate (Some e) p
             | None => setSelectedSlot "" (setSelectedDate None p)
             end).
Proof.
  intros Hv Ha. unfold effectValidity, dateAvailable.
  destruct (availability s) as [a|] eqn:Ea; [|congruence].
  destruct (selectedDate s) as [d|] eqn:Hd.
  - destruct (render_selected_key s v d Hv) as (k & Hk & _); [congruence|auto|].
    rewrite Hk. simpl. destruct (bool_decide (k ∈ availableDaySet v)) eqn:Hin.
    + apply bool_decide_eq_true in Hin. split; [reflexivity|].
      intros Hn. exfalso. apply Hn. exists d, k. auto.
    + apply bool_decide_eq_false in Hin. split.
      * intros (d' & k' & [= <-] & Hk' & Hin'). congruence.
      * intros _. destruct (earliestAvailableDate v); reflexivity.
  - simpl. split.
    + intros (d' & k' & [=] & _).
    + intros _. destruct (earliestAvailableDate v); reflexivity.
Qed.


(** ** The reset cascade *)

Lemma pretty_N_go_length (x : N) :
  forall s, (String.length s <= String.length (pretty_N_go x s))%nat.
Proof.
  induction (N.lt_wf_0 x) as [x _ IH]. intros s.
  destruct (N.eq_dec x 0%N) as [->|Hx].
  - rewrite pretty_N_go_0. lia.
  - rewrite pretty_N_go_step by lia.
    etransitivity; [|apply IH; apply N.div_lt; lia]. simpl. lia.
Qed.

Lemma pretty_N_nonempty (x : N) : pretty x <> "".
Proof.
  unfold pretty, pretty_N. destruct (decide (x = 0%N)); [discriminate|].
  rewrite pretty_N_go_step by lia. intros E.
  pose proof (pretty_N_go_length (x `div` 10)%N
                (String (pretty_N_char (x `mod` 10)) "")) as L.
  rewrite E in L. simpl in L. lia.
Qed.

(** [String(n)] is never the empty string. *)
Lemma pretty_Z_nonempty (n : Z) : pretty n <> "".
Proof.
  destruct n as [|x|x]; unfold pretty, pretty_Z.
  - discriminate.
  - apply pretty_N_nonempty.
  - discriminate.
Qed.

Lemma effectValidity_ids (s : State) (v : View) (p q : State) :
  effectValidity s v p = Some q ->
  serviceId q = serviceId p /\ employeeId q = employeeId p.
Proof. intros H. crush_effects; auto. Qed.

Lemma effectEmployee_employeeId (s : State) (v : View) (p q : State) :
  effectEmployee s v p = Some q -> employeeId q = employeeId p.
Proof. intros H. crush_effects; auto. Qed.

(** The effect of lines 289-308 past its guards: the employee is set
    and is listed on the selected day. *)
Lemma effectEmployee_reached (s : State) (v : View) (p : State)
    (sd : DayAvailability) (emp : EmployeeAvailability) :
  render s = Some v ->
  employeeId s <> "" ->
  selectedDayData v = Some sd ->
  findEmployee (employeeId s) (day_employees sd) = Some emp ->
  exists q, effectEmployee s v p = Some q
    /\ selectedSlot q = ""
    /\ (serviceId s <> "" -> offers (serviceId s) emp = false -> serviceId q = "").
Proof.
  intros Hv He Hsd Hemp.
  destruct (effectEmployee_total s v p Hv) as (q & Hq). exists q.
  split; [exact Hq|]. apply truthy_true in He.
  unfold effectEmployee in Hq. rewrite He, Hsd, Hemp in Hq. simpl in Hq.
  match type of Hq with (?x ≫= _) = _ => destruct x as [b|]; [|discriminate] end.
  simpl in Hq. injection Hq as <-. split.
  - reflexivity.
  - intros Hs Ho. apply truthy_true in Hs. rewrite Hs, Ho. simpl.
    destruct (earliestAvailableDate v); [destruct (negb _)|]; reflexivity.
Qed.

(** The selected day entry does not depend on the filters. *)
Lemma render_selectedDay_indep (s s' : State) (v v' : View) :
  render s = Some v -> render s' = Some v' ->
  availability s' = availability s -> selectedDate s' = selectedDate s ->
  selectedDayData v' = selectedDayData v.
Proof.
  intros H H' Ha Hd.
  apply render_inv in H as (Hm & _ & Hs & _).
  apply render_inv in H' as (Hm' & _ & Hs' & _).
  rewrite Ha in Hm', Hs'. rewrite Hd in Hs'.
  pose proof (daysMemo_map _ _ _ _ _ _ _ Hm Hm') as E. simpl in E.
  rewrite <- E in Hs'. congruence.
Qed.

Lemma commit_slot_after (prev : option State) (cur next : State)
    (reqs : list Request) (v : View) (p2 p4 : State) (prevDay : option (option DayAvailability)) :
  effectStep v
    (if changed prev cur selectedDate then effectResetTime p2 else p2) p4 ->
  next = (if serviceDeps prev cur prevDay v then effectService cur v p4 else p4) ->
  selectedSlot (if changed prev cur selectedDate then effectResetTime p2 else p2) = ""
  \/ selectedSlot p4 = "" ->
  selectedSlot next = "".
Proof.
  intros S4 -> Hs.
  assert (selectedSlot p4 = "") as E4.
  { destruct Hs as [Hs|Hs]; [|exact Hs].
    destruct S4 as (_ & _ & _ & _ & _ & _ & _ & _ & [L|L] & _); congruence. }
  destruct (serviceDeps prev cur prevDay v); [|exact E4].
  destruct (effectService_step cur v p4)
    as ((_ & _ & _ & _ & _ & _ & _ & _ & [L|L] & _) & _); congruence.
Qed.

Lemma changed_true {A : Type} `{EqDecision A} (prev cur : State)
    (f : State -> A) :
  f prev <> f cur -> changed (Some prev) cur f = true.
Proof. intros H. unfold changed. now apply bool_decide_eq_true. Qed.

(** C4: selecting an employee whose entry on the selected day does not
    offer the selected service clears the service; selecting a service
    that the entry of the selected employee does not offer clears the
    employee and the time slot; and at every later commit of the same
    update the cleared values are still cleared. *)
Theorem incompatible_selection_cleared (prev : State) (x : string) :
  wellFormed prev = true ->
  (forall v sd emp,
     employeeId prev <> x -> x <> "" ->
     render (setEmployeeId x prev) = Some v ->
     selectedDayData v = Some sd ->
     IsEmployee (day_employees sd) x emp ->
     serviceId prev <> "" -> ~ OffersService (serviceId prev) emp ->
     forall n, exists st,
       commits (S n) (Some prev) (setEmployeeId x prev) = Some st
       /\ serviceId st = "")
  /\ (forall v sd emp,
       serviceId prev <> x -> x <> "" ->
       render (setServiceId x prev) = Some v ->
       selectedDayData v = Some sd ->
       employeeId prev <> "" ->
       IsEmployee (day_employees sd) (employeeId prev) emp ->
       ~ OffersService x emp ->
       forall n, exists st,
         commits (S n) (Some prev) (setServiceId x prev) = Some st
         /\ employeeId st = "" /\ selectedSlot st = "").
Proof.
  intros Hw. split.
  - intros v sd emp Hx Hne Hv Hsd Hemp Hs Ho n.
    set (cur := setEmployeeId x prev) in *.
    assert (wellFormed cur = true) as Hwc by exact Hw.
    assert (forall p, Some prev = Some p -> wellFormed p = true) as Hwp
      by (intros p [= <-]; exact Hw).
    destruct (commit_total (Some prev) cur Hwp Hwc) as (next & reqs & H).
    pose proof (commit_wellFormed _ _ _ _ Hwc H) as Hwn.
    simpl. rewrite H. simpl.
    destruct (commits_total n (Some cur) next) as (st & Hst & _ & _ & Hsv & _);
      auto.
    { intros p [= <-]. exact Hwc. }
    exists st. split; [exact Hst|]. apply Hsv.
    apply commit_inv in H as (v' & prevDay & p2 & p4 & Hv' & _ & H2 & H4 & -> & _).
    assert (v' = v) as -> by congruence.
    rewrite (changed_true prev cur employeeId) in H4 by exact Hx.
    apply findEmployee_spec in Hemp.
    destruct (effectEmployee_reached cur v
                (if changed (Some prev) cur selectedDate
                 then effectResetTime p2 else p2) sd emp Hv)
      as (q & Hq & _ & Hclear); auto.
    rewrite Hq in H4. injection H4 as <-.
    assert (serviceId q = "") as Eq.
    { apply Hclear; [exact Hs|].
      destruct (offers (serviceId cur) emp) eqn:E; [|reflexivity].
      apply offers_true in E. contradiction. }
    destruct (serviceDeps (Some prev) cur prevDay v); [|exact Eq].
    destruct (effectService_step cur v q) as (_ & _ & -> & _). exact Eq.
  - intros v sd emp Hx Hne Hv Hsd Hid Hemp Ho n.
    set (cur := setServiceId x prev) in *.
    assert (wellFormed cur = true) as Hwc by exact Hw.
    assert (forall p, Some prev = Some p -> wellFormed p = true) as Hwp
      by (intros p [= <-]; exact Hw).
    destruct (commit_total (Some prev) cur Hwp Hwc) as (next & reqs & H).
    pose proof (commit_wellFormed _ _ _ _ Hwc H) as Hwn.
    simpl. rewrite H. simpl.
    destruct (commits_total n (Some cur) next) as (st & Hst & _ & _ & _ & Hev & Hsl);
      auto.
    { intros p [= <-]. exact Hwc. }
    exists st. split; [exact Hst|].
    assert (employeeId next = "" /\ selectedSlot next = "") as [E1 E2];
      [|split; auto].
    apply commit_inv in H as (v' & prevDay & p2 & p4 & Hv' & _ & H2 & H4 & -> & _).
    assert (v' = v) as -> by congruence.
    assert (serviceDeps (Some prev) cur prevDay v = true) as ->.
    { unfold serviceDeps. now rewrite (changed_true prev cur serviceId) by exact Hx. }
    apply findEmployee_spec in Hemp.
    assert (offers x emp = false) as Hoff.
    { destruct (offers x emp) eqn:E; [|reflexivity].
      apply offers_true in E. contradiction. }
    apply truthy_true in Hne, Hid.
    unfold effectService. simpl. rewrite Hne, Hid, Hsd, Hemp, Hoff. simpl.
    split; reflexivity.
Qed.

Lemma fetchSettle_form (o : FetchOutcome) (p : State) :
  name (fetchSettle o p) = name p /\ phone (fetchSettle o p) = phone p
  /\ note (fetchSettle o p) = note p
  /\ serviceId (fetchSettle o p) = serviceId p
  /\ employeeId (fetchSettle o p) = employeeId p
  /\ selectedSlot (fetchSettle o p) = selectedSlot p
  /\ selectedDate (fetchSettle o p) = selectedDate p
  /\ month (fetchSettle o p) = month p
  /\ submitting (fetchSettle o p) = submitting p.
Proof.
  unfold fetchSettle, catchFetch.
  destruct o as [data|e]; [destruct (normalizeDays _)|];
    try destruct (bool_decide _); simpl; repeat split.
Qed.

Lemma handleSubmit_form (s : State) (post : option Exn) (refetch : FetchOutcome) :
  selectedDate (handleSubmit s post refetch).1 = selectedDate s
  /\ employeeId (handleSubmit s post refetch).1 = employeeId s.
Proof.
  unfold handleSubmit.
  destruct (negb (canReserveOf s) || bool_decide (selectedDate s = None));
    [split; reflexivity|].
  destruct (selectedDate s) as [d|] eqn:Hd; [|split; simpl; congruence].
  destruct (buildDateTimeISO d (selectedSlot s)); [|split; simpl; congruence].
  destruct post; [split; simpl; congruence|].
  simpl.
  pose proof (fetchSettle_form refetch
    (setError "" (setLoadingAvailability true (setSubmitting true (setError "" s)))))
    as (_ & _ & _ & _ & F5 & _ & F7 & _).
  simpl in *. split; congruence.
Qed.

Lemma handle_cases (prev cur : State) (v : View) (ev : Event) :
  handle prev v ev = Some cur ->
  (selectedDate cur = selectedDate prev /\ employeeId cur = employeeId prev)
  \/ (exists d, cur = setSelectedDate (Some (ValidDate d)) prev)
  \/ (exists x, ev = SelectEmployee x /\ cur = setEmployeeId x prev).
Proof.
  destruct ev; unfold handle; intros H;
    try (injection H as <-; left; split; reflexivity).
  - right. right. injection H as <-. eauto.
  - destruct (isDisabledDay prev v d) as [[|]|]; simpl in H;
      [injection H as <-; auto|injection H as <-; eauto|discriminate].
  - injection H as <-. left. unfold fetchSettle, catchFetch.
    destruct o as [data|e]; [destruct (normalizeDays _)|];
      try destruct (bool_decide _); simpl; auto.
Qed.

(** An employee that the rendered list offers is listed on the selected
    day. *)
Lemma enabled_employee (s : State) (v : View) (x : string) :
  render s = Some v -> enabled s v (SelectEmployee x) = true ->
  x <> "" /\ exists sd emp, selectedDayData v = Some sd
    /\ findEmployee x (day_employees sd) = Some emp.
Proof.
  intros Hv He. simpl in He. apply existsb_exists in He as (e & Hin & Hid).
  apply render_inv in Hv as (_ & _ & _ & Hemps & _). rewrite Hemps in Hin.
  apply idIs_true in Hid. split.
  { rewrite <- Hid. apply pretty_Z_nonempty. }
  unfold employeesMemo in Hin.
  destruct (selectedDayData v) as [sd|]; [|destruct Hin].
  assert (In e (day_employees sd)) as Hsd.
  { destruct (truthy (serviceId s)); [apply filter_In in Hin as [Hin _]|];
      now apply filter_In in Hin as [Hin _]. }
  exists sd. unfold findEmployee.
  destruct (List.find _ (day_employees sd)) as [emp|] eqn:Hf; [eauto|].
  exfalso. apply (find_none _ _ Hf) in Hsd. apply idIs_true in Hid. congruence.
Qed.

(** C5: whenever the selected date or the selected employee changes,
    by the user choosing another value of a rendered control or by the
    effects themselves (which is how a date or an employee is
    deselected), the selected time slot is empty after the commit that
    follows and stays empty through the later commits of the update. *)
Theorem slot_cleared_on_change (prev cur : State) :
  wellFormed prev = true ->
  Transition prev cur ->
  selectedDate cur <> selectedDate prev \/ employeeId cur <> employeeId prev ->
  forall n, exists st,
    commits (S n) (Some prev) cur = Some st /\ selectedSlot st = "".
Proof.
  intros Hw T Hch n.
  assert (forall p, Some prev = Some p -> wellFormed p = true) as Hwp
    by (intros p [= <-]; exact Hw).
  assert (wellFormed cur = true) as Hwc.
  { destruct T as [v ev Hv Hen Hh|post refetch Hs|before reqs Hc].
    - destruct (handle_cases _ _ _ _ Hh) as [[E1 E2]|[(d & ->)|(x & _ & ->)]].
      + destruct Hch; congruence.
      + apply wellFormed_inv in Hw as [Hk _]. apply wellFormed_inv.
        split; [exact Hk|]. simpl. now intros ? [= <-].
      + exact Hw.
    - destruct (handleSubmit_form prev post refetch) as [E1 E2]. subst cur.
      destruct Hch; congruence.
    - eapply commit_wellFormed; eauto. }
  destruct (commit_total (Some prev) cur Hwp Hwc) as (next & reqs & H).
  pose proof (commit_wellFormed _ _ _ _ Hwc H) as Hwn.
  simpl. rewrite H. simpl.
  destruct (commits_total n (Some cur) next) as (st & Hst & _ & _ & _ & _ & Hsl);
    auto.
  { intros p [= <-]. exact Hwc. }
  exists st. split; [exact Hst|]. apply Hsl.
  pose proof H as Hcommit.
  apply commit_inv in H as (v & prevDay & p2 & p4 & Hv & _ & H2 & H4 & Hnext & _).
  assert (effectStep v
            (if changed (Some prev) cur selectedDate then effectResetTime p2 else p2)
            p4) as S4.
  { destruct (changed (Some prev) cur employeeId).
    - eapply effectEmployee_step; eauto.
    - injection H4 as <-. apply effectStep_refl. }
  destruct (decide (selectedDate cur = selectedDate prev)) as [Hsame|Hdate].
  2:{ (* the date changed: the effect of lines 283-286 runs *)
      eapply commit_slot_after; eauto. left.
      rewrite (changed_true prev cur selectedDate) by congruence. reflexivity. }
  destruct Hch as [Hch|Hemp]; [contradiction|].
  destruct T as [pv ev Hpv Hen Hh|post refetch Hs|before reqs' Hc].
  2:{ destruct (handleSubmit_form prev post refetch) as [_ E]. subst cur.
      congruence. }
  - (* the user selected an employee of the rendered list *)
    destruct (handle_cases _ _ _ _ Hh) as [[_ E]|[(d & ->)|(x & -> & ->)]];
      [congruence|simpl in Hemp; congruence|].
    destruct (enabled_employee prev pv x Hpv Hen) as (Hx & sd & emp & Hsd & Hf).
    assert (selectedDayData v = Some sd) as Hsd'.
    { rewrite <- Hsd. eapply render_selectedDay_indep; eauto. }
    rewrite (changed_true prev _ employeeId) in H4 by (simpl in *; congruence).
    destruct (effectEmployee_reached (setEmployeeId x prev) v
                (if changed (Some prev) (setEmployeeId x prev) selectedDate
                 then effectResetTime p2 else p2) sd emp Hv)
      as (q & Hq & Hslot & _); auto.
    rewrite Hq in H4. injection H4 as <-.
    eapply commit_slot_after; eauto.
  - (* the effects cleared the employee, and the slot with it *)
    apply commit_inv in Hc
      as (v0 & prevDay0 & q2 & q4 & _ & _ & G2 & G4 & -> & _).
    assert (employeeId q4 = employeeId prev) as Eq.
    { transitivity (employeeId q2).
      - destruct (changed before prev employeeId).
        + apply effectEmployee_employeeId in G4. rewrite G4.
          destruct (changed before prev selectedDate); reflexivity.
        + injection G4 as <-. destruct (changed before prev selectedDate); reflexivity.
      - destruct (validityDeps before prev).
        + apply effectValidity_ids in G2 as [_ ->]. apply effectMonth_step.
          exact v0.
        + injection G2 as <-. apply effectMonth_step. exact v0. }
    assert (selectedSlot
              (if serviceDeps before prev prevDay0 v0
               then effectService prev v0 q4 else q4) = "") as Hcur.
    { destruct (serviceDeps before prev prevDay0 v0); [|congruence].
      apply effectService_step. congruence. }
    destruct (commit_step _ _ _ _ Hcommit)
      as (v1 & _ & (_ & _ & _ & _ & _ & _ & _ & _ & [L|L] & _)); congruence.
Qed.

(** ** The services offered for selection *)

Lemma collectServices_visited (es : list EmployeeAvailability) :
  collectServices es = setAll (visitedServices es) [].
Proof.
  unfold collectServices, visitedServices, setAll. generalize (@nil (Z * Service)).
  induction es as [|e es IH]; intros m; [reflexivity|].
  cbn [fold_left List.filter].
  assert ((List.length (emp_slots e) =? 0)%nat = negb (hasSlots e)) as ->.
  { unfold hasSlots. now destruct (emp_slots e). }
  destruct (hasSlots e); cbn [negb flat_map].
  - rewrite fold_left_app. apply IH.
  - apply IH.
Qed.

Lemma mapSet_keys (k : Z) (v : Service) (m : list (Z * Service)) (k' : Z) :
  In k' (List.map fst (mapSet k v m)) <-> k' = k \/ In k' (List.map fst m).
Proof.
  induction m as [|[k0 v0] m IH]; simpl.
  - intuition.
  - destruct (Z.eqb_spec k0 k) as [->|Hne]; simpl; [intuition|].
    rewrite IH. intuition.
Qed.

Lemma mapSet_NoDup (k : Z) (v : Service) (m : list (Z * Service)) :
  List.NoDup (List.map fst m) -> List.NoDup (List.map fst (mapSet k v m)).
Proof.
  induction m as [|[k0 v0] m IH]; simpl; intros H.
  - constructor; [intros []|constructor].
  - inversion H as [|? ? Hn Hm]; subst.
    destruct (Z.eqb_spec k0 k) as [->|Hne]; simpl.
    + now constructor.
    + constructor; [|auto]. rewrite mapSet_keys. intros [E|E]; congruence.
Qed.

Lemma mapSet_In (k : Z) (v : Service) (m : list (Z * Service))
    (k' : Z) (v' : Service) :
  In (k', v') (mapSet k v m) -> (k' = k /\ v' = v) \/ In (k', v') m.
Proof.
  induction m as [|[k0 v0] m IH]; simpl.
  - intros [[= <- <-]|[]]. auto.
  - destruct (Z.eqb_spec k0 k) as [->|Hne]; simpl.
    + intros [[= <- <-]|Hin]; auto.
    + intros [E|Hin]; [auto|]. destruct (IH Hin); auto.
Qed.

Lemma setAll_NoDup (l : list Service) :
  forall m, List.NoDup (List.map fst m) -> List.NoDup (List.map fst (setAll l m)).
Proof.
  unfold setAll. induction l as [|sv l IH]; simpl; intros m H; [exact H|].
  apply IH. now apply mapSet_NoDup.
Qed.

Lemma setAll_In (l : list Service) :
  forall m k v, In (k, v) (setAll l m) ->
  (In v l /\ k = svc_id v) \/ In (k, v) m.
Proof.
  unfold setAll. induction l as [|sv l IH]; simpl; intros m k v H; [auto|].
  destruct (IH _ _ _ H) as [[H1 H2]|H1]; [auto|].
  destruct (mapSet_In _ _ _ _ _ H1) as [[-> ->]|H2]; auto.
Qed.

Lemma setAll_keys (l : list Service) :
  forall m k, In k (List.map fst (setAll l m))
  <-> In k (List.map svc_id l) \/ In k (List.map fst m).
Proof.
  unfold setAll. induction l as [|sv l IH]; simpl; intros m k; [intuition|].
  rewrite IH, mapSet_keys. intuition.
Qed.

Lemma visitedServices_In (es : list EmployeeAvailability) (sv : Service) :
  In sv (visitedServices es)
  <-> exists e, In e es /\ HasSlot e /\ In sv (emp_services e).
Proof.
  unfold visitedServices. rewrite in_flat_map. split.
  - intros (e & He & Hs). apply filter_In in He as [He Hsl].
    exists e. repeat split; auto. now apply hasSlots_true.
  - intros (e & He & Hsl & Hs). exists e. split; [|exact Hs].
    apply filter_In. split; [exact He|]. now apply hasSlots_true.
Qed.

(** C7: on the selected day, with an employee chosen the services
    offered for selection are exactly the service list of that
    employee's entry; with no employee chosen they are the union of the
    services of the employees of the day that have a slot, with one
    entry for each service id. *)
Theorem services_offered (sd : DayAvailability) (eid : string) :
  (forall emp, eid <> "" -> IsEmployee (day_employees sd) eid emp ->
     servicesMemo (Some sd) eid = emp_services emp)
  /\ (eid = "" ->
      List.NoDup (List.map svc_id (servicesMemo (Some sd) eid))
      /\ (forall sv, In sv (servicesMemo (Some sd) eid) ->
            exists e, In e (day_employees sd) /\ HasSlot e
              /\ In sv (emp_services e))
      /\ (forall e sv, In e (day_employees sd) -> HasSlot e ->
            In sv (emp_services e) ->
            exists sv', In sv' (servicesMemo (Some sd) eid)
              /\ svc_id sv' = svc_id sv)).
Proof.
  split.
  - intros emp He Hemp. unfold servicesMemo.
    apply truthy_true in He. rewrite He.
    apply findEmployee_spec in Hemp. now rewrite Hemp.
  - intros ->. unfold servicesMemo. simpl.
    rewrite collectServices_visited.
    set (l := visitedServices (day_employees sd)).
    assert (forall k v, In (k, v) (setAll l []) -> In v l /\ k = svc_id v) as Hin.
    { intros k v H. destruct (setAll_In _ _ _ _ H) as [?|[]]. auto. }
    assert (List.map svc_id (List.map snd (setAll l [])) = List.map fst (setAll l []))
      as Hkeys.
    { rewrite List.map_map. apply map_ext_in. intros [k v] H.
      simpl. symmetry. now apply Hin. }
    split; [|split].
    + rewrite Hkeys. apply setAll_NoDup. constructor.
    + intros sv Hsv. apply in_map_iff in Hsv as ([k v] & <- & H).
      apply Hin in H as [H _]. now apply visitedServices_In.
    + intros e sv He Hs Hsv.
      assert (In sv l) as Hl by (apply visitedServices_In; eauto).
      assert (In (svc_id sv) (List.map fst (setAll l []))) as Hk.
      { apply setAll_keys. left. now apply in_map. }
      apply in_map_iff in Hk as ([k v] & Hkv & H). simpl in Hkv. subst k.
      exists v. split.
      * apply in_map_iff. exists (svc_id sv, v). auto.
      * destruct (Hin _ _ H) as [_ E]. auto.
Qed.

(** ** Submission and fetch failures *)

Lemma canReserveOf_true (s : State) :
  canReserveOf s = true <->
  name s <> "" /\ phone s <> "" /\ serviceId s <> "" /\ employeeId s <> ""
  /\ selectedDate s <> None /\ selectedSlot s <> "" /\ submitting s = false.
Proof.
  unfold canReserveOf.
  rewrite !andb_true_iff, !truthy_true, bool_decide_eq_true, negb_true_iff.
  tauto.
Qed.


(** C9: when the availability request fails by cancellation
    ([AbortError]) the recorded error and the snapshot are as before;
    when it fails otherwise (a rejection, or a date of the answer that
    cannot be normalised) the message of the failure, or the default
    message when it has none, is recorded as the error and the snapshot
    held before is unchanged. *)
Theorem fetch_failure (p : State) (e : Exn) :
  (exn_name e = Some "AbortError" ->
     error (fetchSettle (Rejected e) p) = error p
     /\ availability (fetchSettle (Rejected e) p) = availability p)
  /\ (exn_name e <> Some "AbortError" ->
      error (fetchSettle (Rejected e) p)
      = default "Failed to load availability" (exn_message e)
      /\ (exn_message e <> Some "" -> error (fetchSettle (Rejected e) p) <> "")
      /\ availability (fetchSettle (Rejected e) p) = availability p)
  /\ (forall data, normalizeDays (av_days data) = None ->
       error (fetchSettle (Resolved data) p) = "Invalid time value"
       /\ availability (fetchSettle (Resolved data) p) = availability p).
Proof.
  unfold fetchSettle, catchFetch. repeat split.
  - rewrite bool_decide_eq_false_2 by (intros E; now apply E). reflexivity.
  - rewrite bool_decide_eq_false_2 by (intros E; now apply E). reflexivity.
  - rewrite bool_decide_eq_true_2 by assumption. reflexivity.
  - rewrite bool_decide_eq_true_2 by assumption. simpl.
    destruct (exn_message e) as [m|]; simpl; [congruence|discriminate].
  - rewrite bool_decide_eq_true_2 by assumption. reflexivity.
  - rewrite H. reflexivity.
  - rewrite H. reflexivity.
Qed.

(** ** Date keys *)

Lemma addLeadingZeros_digits (len : nat) (k n : Z) :
  forallb (fun i => digits len (addLeadingZeros (Z.of_nat i) len))
    (seq 0 (Z.to_nat k)) = true ->
  0 <= n < k -> digits len (addLeadingZeros n len) = true.
Proof.
  intros H Hn. rewrite forallb_forall in H.
  specialize (H (Z.to_nat n)). rewrite Z2Nat.id in H by lia.
  apply H. apply in_seq. lia.
Qed.

Lemma addLeadingZeros_4 (n : Z) :
  0 <= n <= 9999 -> digits 4 (addLeadingZeros n 4) = true.
Proof.
  intros H. apply (addLeadingZeros_digits 4 10000); [|lia].
  vm_compute. reflexivity.
Qed.

Lemma addLeadingZeros_2 (n : Z) :
  0 <= n <= 99 -> digits 2 (addLeadingZeros n 2) = true.
Proof.
  intros H. apply (addLeadingZeros_digits 2 100); [|lia].
  vm_compute. reflexivity.
Qed.

Lemma isKeyShape_digits (a b c : string) :
  digits 4 a = true -> digits 2 b = true -> digits 2 c = true ->
  isKeyShape (a +:+ "-" +:+ b +:+ "-" +:+ c) = true.
Proof.
  unfold digits. rewrite !andb_true_iff, !Nat.eqb_eq.
  intros [La Da] [Lb Db] [Lc Dc].
  destruct a as [|a1 [|a2 [|a3 [|a4 [|? ?]]]]]; try discriminate.
  destruct b as [|b1 [|b2 [|? ?]]]; try discriminate.
  destruct c as [|c1 [|c2 [|? ?]]]; try discriminate.
  simpl in Da, Db, Dc.
  repeat match goal with
         | E : _ && _ = true |- _ => apply andb_true_iff in E as [? ?]
         end.
  unfold isKeyShape.
  cbv beta iota fix delta [String.append list_ascii_of_string].
  repeat match goal with
         | E : isDigit ?x = true |- _ => rewrite E; clear E
         end.
  reflexivity.
Qed.

(** [format] prints a day of a four-digit year in the shape of a
    key. *)
Lemma format_yMd_shape (t : LocalTime) :
  plainDay t -> isKeyShape (format_yMd_fields t) = true.
Proof.
  intros (Hy & Hm & Hd). unfold format_yMd_fields.
  apply isKeyShape_digits.
  - apply addLeadingZeros_4. destruct (Z.ltb_spec 0 (fullYear t)); lia.
  - apply addLeadingZeros_2. lia.
  - apply addLeadingZeros_2. lia.
Qed.

Lemma normalizeDays_In (ds : list DayAvailability) :
  forall r, normalizeDays ds = Some r ->
  forall day, In day r ->
  exists orig, In orig ds /\ toKey (KStr (day_date orig)) = Some (day_date day)
    /\ day_employees day = day_employees orig.
Proof.
  induction ds as [|d ds IH]; simpl; intros r H day Hday.
  - injection H as <-. destruct Hday.
  - destruct (toKey (KStr (day_date d))) as [k|] eqn:Hk; [|discriminate].
    simpl in H. destruct (normalizeDays ds) as [r'|]; [|discriminate].
    simpl in H. injection H as <-. destruct Hday as [<-|Hday].
    + exists d. simpl. auto.
    + destruct (IH r' eq_refl day Hday) as (orig & ? & ? & ?). exists orig. auto.
Qed.

(** ** The look-up table of days *)

Lemma scanDay_map (eid sid : string)
    (acc r : gmap string DayAvailability * gset string) (d : DayAvailability) :
  scanDay eid sid acc d = Some r ->
  exists key, toKey (KStr (day_date d)) = Some key /\ r.1 = <[key := d]> (acc.1).
Proof.
  unfold scanDay. destruct (toKey (KStr (day_date d))) as [key|]; [|discriminate].
  simpl. intros H. exists key. split; [reflexivity|].
  destruct (isPastKey key); [|destruct (dayHasAvailability eid sid d)];
    injection H as <-; reflexivity.
Qed.

Lemma scanDays_lookup (eid sid : string) (ds : list DayAvailability) :
  forall (acc r : gmap string DayAvailability * gset string) (k : string),
  scanDays eid sid acc ds = Some r ->
  (* the last entry with the key, or what the table held *)
  (forall l1 d l2, ds = l1 ++ d :: l2 ->
     toKey (KStr (day_date d)) = Some k ->
     (forall d', In d' l2 -> toKey (KStr (day_date d')) <> Some k) ->
     r.1 !! k = Some d)
  /\ ((forall d', In d' ds -> toKey (KStr (day_date d')) <> Some k) ->
      r.1 !! k = acc.1 !! k).
Proof.
  induction ds as [|d0 ds IH]; simpl; intros acc r k H.
  - injection H as <-. split; [|reflexivity].
    intros l1 d l2 E. now destruct l1.
  - destruct (scanDay eid sid acc d0) as [acc'|] eqn:Hd; [|discriminate].
    simpl in H. apply scanDay_map in Hd as (key & Hkey & Hmap).
    destruct (IH acc' r k H) as [IH1 IH2]. split.
    + intros l1 d l2 E Hk Hlater. destruct l1 as [|x l1]; simpl in E.
      * injection E as <- <-. rewrite (IH2 Hlater), Hmap.
        assert (key = k) as -> by congruence. apply lookup_insert_eq.
      * injection E as <- E. eapply IH1; eauto.
    + intros Hnone. rewrite IH2 by (intros d' Hd'; apply Hnone; now right).
      rewrite Hmap. apply lookup_insert_ne. intros ->.
      apply (Hnone d0); [now left|exact Hkey].
Qed.

Lemma last_with_key (k : string) (ds : list DayAvailability) :
  (forall d', In d' ds -> toKey (KStr (day_date d')) <> Some k)
  \/ exists l1 d l2, ds = l1 ++ d :: l2
       /\ toKey (KStr (day_date d)) = Some k
       /\ forall d', In d' l2 -> toKey (KStr (day_date d')) <> Some k.
Proof.
  induction ds as [|d0 ds IH].
  - left. intros d' [].
  - destruct IH as [Hnone|(l1 & d & l2 & -> & Hk & Hl)].
    + destruct (decide (toKey (KStr (day_date d0)) = Some k)) as [E|E].
      * right. exists [], d0, ds. auto.
      * left. intros d' [<-|Hd']; auto.
    + right. exists (d0 :: l1), d, l2. auto.
Qed.

(** What the look-up table holds under a key. *)
Lemma daysMemo_lookup (av : option AvailabilityResponse) (eid sid : string)
    (ms : gmap string DayAvailability * gset string) (k : string) :
  daysMemo av eid sid = Some ms ->
  (forall d, ms.1 !! k = Some d <->
     exists l1 l2, daysOf av = l1 ++ d :: l2
       /\ toKey (KStr (day_date d)) = Some k
       /\ forall d', In d' l2 -> toKey (KStr (day_date d')) <> Some k)
  /\ (ms.1 !! k = None <->
      forall d', In d' (daysOf av) -> toKey (KStr (day_date d')) <> Some k).
Proof.
  intros H.
  assert (scanDays eid sid (∅, ∅) (daysOf av) = Some ms) as Hs.
  { destruct av as [a|]; simpl in *; [exact H|]. congruence. }
  destruct (scanDays_lookup eid sid (daysOf av) (∅, ∅) ms k Hs) as [L1 L2].
  simpl in L2.
  destruct (last_with_key k (daysOf av)) as [Hnone|(l1 & d0 & l2 & E & Hk & Hl)].
  - rewrite (L2 Hnone), lookup_empty. split.
    + intros d. split; [discriminate|].
      intros (l1 & l2 & E & Hk & _). exfalso. apply (Hnone d); [|exact Hk].
      rewrite E. apply in_or_app. right. now left.
    + tauto.
  - rewrite (L1 l1 d0 l2 E Hk Hl). split.
    + intros d. split.
      * intros [= <-]. eauto.
      * intros (l1' & l2' & E' & Hk' & Hl').
        rewrite <- (L1 l1 d0 l2 E Hk Hl). eapply L1; eauto.
    + split; [discriminate|]. intros Hnone. exfalso.
      apply (Hnone d0); [|exact Hk]. rewrite E. apply in_or_app. right. now left.
Qed.

(** X1: the look-up table [daysByKey] maps a key to the last day entry
    of the snapshot that has this key, and holds no other key. *)
Theorem daysByKey_lookup (av : option AvailabilityResponse) (eid sid : string)
    (ms : gmap string DayAvailability * gset string) (k : string) :
  daysMemo av eid sid = Some ms ->
  (forall d, ms.1 !! k = Some d <->
     exists l1 l2, daysOf av = l1 ++ d :: l2
       /\ toKey (KStr (day_date d)) = Some k
       /\ forall d', In d' l2 -> toKey (KStr (day_date d')) <> Some k)
  /\ (ms.1 !! k = None <->
      forall d', In d' (daysOf av) -> toKey (KStr (day_date d')) <> Some k).
Proof. apply daysMemo_lookup. Qed.

(** ** Filters, offered employees and offered services *)

Lemma IsEmployee_In (es : list EmployeeAvailability) (eid : string)
    (emp : EmployeeAvailability) :
  IsEmployee es eid emp -> In emp es /\ pretty (emp_id emp) = eid.
Proof.
  intros (l1 & l2 & -> & Hid & _). split; [|exact Hid].
  apply in_or_app. right. now left.
Qed.

Lemma DayAvailable_weaken (eid sid eid' sid' : string) (d : DayAvailability) :
  eid' = eid \/ eid' = "" -> sid' = sid \/ sid' = "" ->
  DayAvailable eid sid d -> DayAvailable eid' sid' d.
Proof.
  intros He Hs H.
  destruct H as [emp Hne Hemp Hsl Ho|e -> Hne Hin Hsl Ho|e -> -> Hin Hsl].
  - apply IsEmployee_In in Hemp as Hin. destruct Hin as [Hin _].
    destruct He as [->| ->].
    + apply (available_employee _ _ _ emp); auto.
      intros Hs'. destruct Hs as [->| ->]; [auto|congruence].
    + destruct (decide (sid' = "")) as [->|Hs'].
      * apply (available_any _ _ _ emp); auto.
      * apply (available_service _ _ _ emp); auto.
        destruct Hs as [->| ->]; [auto|congruence].
  - assert (eid' = "") as -> by (destruct He; auto).
    destruct Hs as [->| ->].
    + apply (available_service _ _ _ e); auto.
    + apply (available_any _ _ _ e); auto.
  - assert (eid' = "") as -> by (destruct He; auto).
    assert (sid' = "") as -> by (destruct Hs; auto).
    apply (available_any _ _ _ e); auto.
Qed.

(** X2: clearing the employee filter, the service filter or both never
    makes a day unavailable: the available-day set of the narrower
    filters is included in that of the wider ones. *)
Theorem clearing_filters_keeps_days (av : option AvailabilityResponse)
    (eid sid eid' sid' : string)
    (ms ms' : gmap string DayAvailability * gset string) :
  eid' = eid \/ eid' = "" -> sid' = sid \/ sid' = "" ->
  daysMemo av eid sid = Some ms -> daysMemo av eid' sid' = Some ms' ->
  ms.2 ⊆ ms'.2.
Proof.
  intros He Hs H H' k Hk.
  pose proof (daysMemo_rescan av eid sid) as R. rewrite H in R.
  pose proof (daysMemo_rescan av eid' sid') as R'. rewrite H' in R'.
  apply R in Hk as (d & Hd & Hkey & Hp & Hav). apply R'.
  exists d. repeat split; auto. eapply DayAvailable_weaken; eauto.
Qed.

Lemma same_id_same_entry (es : list EmployeeAvailability)
    (e e' : EmployeeAvailability) :
  List.NoDup (List.map emp_id es) -> In e es -> In e' es ->
  emp_id e = emp_id e' -> e = e'.
Proof.
  induction es as [|x es IH]; simpl; intros Hnd He He' Hid; [destruct He|].
  inversion Hnd as [|? ? Hx Hes]; subst.
  destruct He as [<-|He], He' as [<-|He']; auto.
  - exfalso. apply Hx. rewrite Hid. now apply in_map.
  - exfalso. apply Hx. rewrite <- Hid. now apply in_map.
Qed.

Lemma findEmployee_unique (es : list EmployeeAvailability)
    (e : EmployeeAvailability) :
  List.NoDup (List.map emp_id es) -> In e es ->
  findEmployee (pretty (emp_id e)) es = Some e.
Proof.
  intros Hnd He. apply findEmployee_spec, IsEmployee_unique; auto.
Qed.

(** The offered employees against the filter logic of the day. *)
Lemma employeesMemo_day (d : DayAvailability) (sid : string)
    (e : EmployeeAvailability) :
  List.NoDup (List.map emp_id (day_employees d)) ->
  (In e (employeesMemo (Some d) sid)
   <-> In e (day_employees d)
       /\ dayHasAvailability (pretty (emp_id e)) sid d = true).
Proof.
  intros Hnd.
  assert (forall e0, In e0 (day_employees d) ->
            dayHasAvailability (pretty (emp_id e0)) sid d
            = hasSlots e0 && (if truthy sid then offers sid e0 else true)) as Hday.
  { intros e0 He0. unfold dayHasAvailability.
    rewrite (proj2 (truthy_true _) (pretty_Z_nonempty (emp_id e0))).
    rewrite (findEmployee_unique _ _ Hnd He0).
    destruct (hasSlots e0); reflexivity. }
  unfold employeesMemo. split.
  - intros Hin.
    assert (In e (day_employees d) /\ hasSlots e = true
            /\ (if truthy sid then offers sid e else true) = true) as (He & Hs & Ho).
    { destruct (truthy sid).
      - apply filter_In in Hin as [Hin Ho]. apply filter_In in Hin as [Hin Hs]. auto.
      - apply filter_In in Hin as [Hin Hs]. auto. }
    split; [exact He|]. rewrite (Hday e He), Hs, Ho. reflexivity.
  - intros [He Hav]. rewrite (Hday e He) in Hav.
    apply andb_true_iff in Hav as [Hs Ho].
    destruct (truthy sid).
    + apply filter_In. split; [|exact Ho]. apply filter_In. auto.
    + apply filter_In. auto.
Qed.

(** X3: when the employees of a day have distinct ids, an employee is
    offered for selection on that day exactly when the day is available
    with that employee as the filter (and the service filter as it
    is). *)
Theorem offered_employees_keep_the_day (d : DayAvailability) (sid : string)
    (e : EmployeeAvailability) :
  List.NoDup (List.map emp_id (day_employees d)) ->
  (In e (employeesMemo (Some d) sid)
   <-> In e (day_employees d)
       /\ dayHasAvailability (pretty (emp_id e)) sid d = true).
Proof. apply employeesMemo_day. Qed.

Lemma servicesMemo_any (d : DayAvailability) (sid : string) :
  (exists sv, In sv (servicesMemo (Some d) "") /\ pretty (svc_id sv) = sid)
  <-> exists e, In e (day_employees d) /\ HasSlot e /\ OffersService sid e.
Proof.
  unfold servicesMemo. simpl. rewrite collectServices_visited.
  set (l := visitedServices (day_employees d)).
  assert (forall k v, In (k, v) (setAll l []) -> In v l /\ k = svc_id v) as Hin.
  { intros k v H. destruct (setAll_In _ _ _ _ H) as [?|[]]. auto. }
  split.
  - intros (sv & Hsv & Hid). apply in_map_iff in Hsv as ([k v] & <- & H).
    apply Hin in H as [H _]. apply visitedServices_In in H as (e & He & Hs & Hv).
    exists e. repeat split; auto. exists v. auto.
  - intros (e & He & Hs & sv & Hsv & Hid).
    assert (In sv l) as Hl by (apply visitedServices_In; eauto).
    assert (In (svc_id sv) (List.map fst (setAll l []))) as Hk.
    { apply setAll_keys. left. now apply in_map. }
    apply in_map_iff in Hk as ([k v] & Hkv & H). simpl in Hkv. subst k.
    exists v. split.
    + apply in_map_iff. exists (svc_id sv, v). auto.
    + destruct (Hin _ _ H) as [_ E]. simpl. congruence.
Qed.

(** X4: with no employee chosen, a service id is among the services
    offered for selection on a day exactly when the day is available
    with that service as the only filter. *)
Theorem offered_services_keep_the_day (d : DayAvailability) (sid : string) :
  sid <> "" ->
  ((exists sv, In sv (servicesMemo (Some d) "") /\ pretty (svc_id sv) = sid)
   <-> dayHasAvailability "" sid d = true).
Proof.
  intros Hs. rewrite servicesMemo_any, dayHasAvailability_spec. split.
  - intros (e & He & Hsl & Ho). apply (available_service _ _ _ e); auto.
  - intros [emp Hne|e _ _ Hin Hsl Ho|e _ E]; try congruence. eauto.
Qed.

(** X5: a time slot can be picked only when an employee and a date are
    chosen, and then only a slot of that employee's entry on the
    selected day. *)
Theorem picked_slot_is_offered (s : State) (v : View) (x : string) :
  render s = Some v -> enabled s v (PickSlot x) = true ->
  employeeId s <> "" /\ selectedDate s <> None
  /\ exists sd emp, selectedDayData v = Some sd
       /\ IsEmployee (day_employees sd) (employeeId s) emp
       /\ In x (emp_slots emp).
Proof.
  intros Hv He. simpl in He. apply andb_true_iff in He as [Hc Hx].
  unfold canOpenTime in Hc. apply andb_true_iff in Hc as [Hc _].
  apply andb_true_iff in Hc as [He Hd].
  apply truthy_true in He. apply bool_decide_eq_true in Hd, Hx.
  repeat split; auto.
  apply render_inv in Hv as (_ & _ & _ & _ & _ & Hslots & _).
  rewrite Hslots in Hx. unfold slotsMemo in Hx.
  destruct (selectedDayData v) as [sd|]; [|now apply elem_of_nil in Hx].
  destruct (truthy (employeeId s)); [|now apply elem_of_nil in Hx].
  destruct (findEmployee (employeeId s) (day_employees sd)) as [emp|] eqn:Hf;
    [|now apply elem_of_nil in Hx].
  exists sd, emp. repeat split; auto.
  - now apply findEmployee_spec.
  - now apply list_elem_of_In.
Qed.

(** X6: a click on a day of the calendar either leaves the state as it
    is or selects that day, and it selects it only when the day is in
    the displayed month, not before today and in the available-day set
    of the render. *)
Theorem click_selects_available (s s' : State) (v : View) (d : LocalTime) :
  handle s v (ClickDay d) = Some s' ->
  s' = s
  \/ (s' = setSelectedDate (Some (ValidDate d)) s
      /\ isSameMonth d (month s) = true
      /\ isBefore (startOfDay (ValidDate d)) (ValidDate today) = false
      /\ dateAvailable s' v).
Proof.
  unfold handle, isDisabledDay. rewrite toKey_valid_date. simpl.
  destruct (isSameMonth d (month s)); simpl; [|intros [= <-]; auto].
  destruct (time_ltb _ today) eqn:Hp; simpl; [intros [= <-]; auto|].
  destruct (bool_decide _) eqn:Hin; simpl; intros [= <-]; [|auto].
  right. repeat split; auto.
  apply bool_decide_eq_true in Hin.
  exists (ValidDate d). eexists. split; [reflexivity|].
  split; [apply toKey_valid_date|exact Hin].
Qed.

(** ** The key of a calendar day *)

Lemma isDigit_In (a : ascii) : isDigit a = true -> In a digitChars.
Proof.
  destruct a as [[] [] [] [] [] [] [] []]; vm_compute; intros H;
    try discriminate H; tauto.
Qed.

Lemma addLeadingZeros_num4 (a b c d : ascii) :
  isDigit a = true -> isDigit b = true -> isDigit c = true -> isDigit d = true ->
  addLeadingZeros (num4 a b c d) 4 = String a (String b (String c (String d ""))).
Proof.
  intros Ha Hb Hc Hd.
  assert (forallb (fun a => forallb (fun b => forallb (fun c => forallb (fun d =>
            String.eqb (addLeadingZeros (num4 a b c d) 4)
              (String a (String b (String c (String d "")))))
          digitChars) digitChars) digitChars) digitChars = true) as H
    by (vm_compute; reflexivity).
  rewrite forallb_forall in H. specialize (H a (isDigit_In a Ha)).
  rewrite forallb_forall in H. specialize (H b (isDigit_In b Hb)).
  rewrite forallb_forall in H. specialize (H c (isDigit_In c Hc)).
  rewrite forallb_forall in H. specialize (H d (isDigit_In d Hd)).
  now apply String.eqb_eq in H.
Qed.

Lemma addLeadingZeros_num2 (a b : ascii) :
  isDigit a = true -> isDigit b = true ->
  addLeadingZeros (num2 a b) 2 = String a (String b "").
Proof.
  intros Ha Hb.
  assert (forallb (fun a => forallb (fun b =>
            String.eqb (addLeadingZeros (num2 a b) 2) (String a (String b "")))
          digitChars) digitChars = true) as H
    by (vm_compute; reflexivity).
  rewrite forallb_forall in H. specialize (H a (isDigit_In a Ha)).
  rewrite forallb_forall in H. specialize (H b (isDigit_In b Hb)).
  now apply String.eqb_eq in H.
Qed.

(** The key of a calendar day is ten characters that [format] prints
    back from the day. *)
Lemma format_of_calendarDay (k : string) (t : LocalTime) :
  calendarDay k = Some t -> 1 <= fullYear t -> format_yMd_fields t = k.
Proof.
  intros H Hy.
  apply calendarDay_inv in H
    as (y1 & y2 & y3 & y4 & m1 & m2 & d1 & d2 & -> & Y1 & Y2 & Y3 & Y4
        & M1 & M2 & D1 & D2 & ->).
  unfold format_yMd_fields. cbn [fullYear monthNo dayOfMonth] in *.
  destruct (Z.ltb_spec 0 (num4 y1 y2 y3 y4)); [|lia].
  rewrite addLeadingZeros_num4, !addLeadingZeros_num2 by assumption.
  reflexivity.
Qed.

(** ** The days of the calendar grid *)

Lemma monthDays_In (m d : LocalTime) :
  In d (monthDays m) ->
  exists n, d = mkLocalTime (fullYear m) (monthNo m) n 0
    /\ 1 <= n <= daysInMonth (fullYear m) (monthNo m).
Proof.
  unfold monthDays. rewrite in_map_iff. intros (n & <- & Hn).
  apply in_seq in Hn. exists (Z.of_nat n). split; [reflexivity|]. lia.
Qed.

(** ** The cascade comes to rest *)

Lemma changed_false {A : Type} `{EqDecision A} (prev cur : State)
    (f : State -> A) :
  f prev = f cur -> changed (Some prev) cur f = false.
Proof. intros H. unfold changed. apply bool_decide_eq_false. auto. Qed.

Lemma changed_inv {A : Type} `{EqDecision A} (prev cur : State)
    (f : State -> A) :
  changed (Some prev) cur f = true -> f prev <> f cur.
Proof. unfold changed. apply bool_decide_eq_true. Qed.

Lemma commit_afterEffects (prev : option State) (cur next : State)
    (reqs : list Request) :
  commit prev cur = Some (next, reqs) -> afterEffects cur next.
Proof.
  intros H. apply commit_step in H as (v & _ & S).
  destruct S as (_ & _ & _ & Hm & Ha & _ & Hs & He & _). repeat split; auto.
Qed.

(** With the snapshot, the month, the filters and the selected date as
    at the render before, no effect runs. *)
Lemma commit_quiet (p c : State) :
  render p <> None -> render c <> None ->
  availability c = availability p -> month c = month p ->
  serviceId c = serviceId p -> employeeId c = employeeId p ->
  selectedDate c = selectedDate p ->
  commit (Some p) c = Some (c, []).
Proof.
  intros Hp Hc Ha Hm Hs He Hd. unfold commit.
  destruct (render c) as [v|] eqn:Hv; [|congruence].
  destruct (render p) as [pv|] eqn:Hpv; [|congruence].
  simpl. rewrite Hpv. simpl.
  pose proof (render_selectedDay_indep p c pv v Hpv Hv Ha Hd) as Hday.
  unfold effectMonth, validityDeps, serviceDeps, changed.
  repeat rewrite bool_decide_eq_false_2 by (intros HH; apply HH; congruence).
  simpl. reflexivity.
Qed.

(** A commit that follows a commit: it clears no service, it clears
    the employee only if the selected day changed, it moves the date
    only if a filter was cleared, and it requests nothing. *)
Lemma commit_after (p c n : State) (r : list Request) :
  afterEffects p c -> render p <> None ->
  commit (Some p) c = Some (n, r) ->
  serviceId n = serviceId c
  /\ (employeeId n = employeeId c
      \/ (employeeId n = "" /\ selectedDate c <> selectedDate p
          /\ serviceId c <> "" /\ employeeId c <> ""))
  /\ (selectedDate n = selectedDate c
      \/ serviceId c <> serviceId p \/ employeeId c <> employeeId p)
  /\ r = [].
Proof.
  intros (Ha & Hm & Hs & He) Hp H.
  apply commit_inv in H as (v & prevDay & p2 & p4 & Hv & Hprev & H2 & H4 & -> & ->).
  assert (effectMonth (Some p) c = (c, [])) as Hmonth.
  { unfold effectMonth. now rewrite (changed_false p c month) by congruence. }
  rewrite Hmonth in *. cbn [fst snd] in *.
  (* the effect of lines 224-237 *)
  assert (serviceId p2 = serviceId c /\ employeeId p2 = employeeId c
          /\ (selectedDate p2 = selectedDate c
              \/ serviceId c <> serviceId p \/ employeeId c <> employeeId p))
    as (S2 & E2 & D2).
  { destruct (validityDeps (Some p) c) eqn:Hdeps.
    - apply effectValidity_ids in H2 as [-> ->]. repeat split.
      unfold validityDeps in Hdeps.
      rewrite (changed_false p c availability) in Hdeps by congruence.
      simpl in Hdeps. apply orb_true_iff in Hdeps as [Hd|Hd];
        apply changed_inv in Hd; auto.
    - injection H2 as <-. auto. }
  set (p3 := if changed (Some p) c selectedDate then effectResetTime p2 else p2) in *.
  assert (serviceId p3 = serviceId p2 /\ employeeId p3 = employeeId p2
          /\ selectedDate p3 = selectedDate p2) as (S3 & E3 & D3).
  { subst p3. destruct (changed (Some p) c selectedDate); simpl; auto. }
  (* the effect of lines 289-308 returns at once: the employee, if it
     changed, was cleared *)
  assert (p4 = p3) as ->.
  { destruct (changed (Some p) c employeeId) eqn:Hch.
    - apply changed_inv in Hch. destruct He as [He|He]; [congruence|].
      unfold effectEmployee in H4. rewrite He in H4. simpl in H4. congruence.
    - congruence. }
  destruct (effectService_step c v p3) as (_ & D5 & S5 & _).
  split; [|split; [|split]]; try reflexivity.
  - destruct (serviceDeps (Some p) c prevDay v); congruence.
  - destruct (serviceDeps (Some p) c prevDay v) eqn:Hdeps; [|left; congruence].
    destruct (decide (employeeId (effectService c v p3) = employeeId p3))
      as [E|E]; [left; congruence|].
    right.
    assert (truthy (serviceId c) = true /\ truthy (employeeId c) = true) as [Ts Te].
    { unfold effectService in E.
      destruct (truthy (serviceId c)), (truthy (employeeId c)); simpl in E;
        auto; congruence. }
    apply truthy_true in Ts, Te.
    split.
    { destruct (effectService_step c v p3)
        as ((_ & _ & _ & _ & _ & _ & _ & [L|L] & _) & _); congruence. }
    split; [|auto].
    intros Hd. unfold serviceDeps in Hdeps.
    rewrite (changed_false p c serviceId) in Hdeps
      by (destruct Hs; congruence).
    rewrite (changed_false p c employeeId) in Hdeps
      by (destruct He; congruence).
    simpl in Hdeps. apply bool_decide_eq_true in Hdeps. apply Hdeps.
    unfold prevSelectedDay in Hprev.
    destruct (render p) as [pv|] eqn:Hpv; [|congruence].
    simpl in Hprev. injection Hprev as <-. f_equal. symmetry.
    eapply render_selectedDay_indep; eauto.
  - destruct (serviceDeps (Some p) c prevDay v); [rewrite D5|];
      rewrite D3; exact D2.
Qed.

(** The chain of commits of one update: after the fourth nothing
    changes any more, and only the first may request anything. *)
Lemma cascade_chain (prev : option State) (cur : State) :
  (forall p, prev = Some p -> wellFormed p = true) -> wellFormed cur = true ->
  exists s1 s2 s3 s4 r1,
    commit prev cur = Some (s1, r1)
    /\ commit (Some cur) s1 = Some (s2, [])
    /\ commit (Some s1) s2 = Some (s3, [])
    /\ commit (Some s2) s3 = Some (s4, [])
    /\ commit (Some s3) s4 = Some (s4, [])
    /\ commit (Some s4) s4 = Some (s4, [])
    /\ wellFormed s1 = true /\ wellFormed s2 = true
    /\ wellFormed s3 = true /\ wellFormed s4 = true.
Proof.
  intros Hwp Hw0.
  assert (forall s, wellFormed s = true -> render s <> None) as Hr.
  { intros s Hs. destruct (render_total s Hs) as (v & ->). discriminate. }
  assert (forall s, wellFormed s = true ->
            forall p, Some s = Some p -> wellFormed p = true) as Hsome.
  { intros s Hs p [= <-]. exact Hs. }
  destruct (commit_total prev cur Hwp Hw0) as (s1 & r1 & C0).
  pose proof (commit_wellFormed _ _ _ _ Hw0 C0) as Hw1.
  pose proof (commit_afterEffects _ _ _ _ C0) as A0.
  destruct (commit_total (Some cur) s1 (Hsome _ Hw0) Hw1) as (s2 & r2 & C1).
  pose proof (commit_wellFormed _ _ _ _ Hw1 C1) as Hw2.
  pose proof (commit_afterEffects _ _ _ _ C1) as A1.
  destruct (commit_after _ _ _ _ A0 (Hr _ Hw0) C1) as (S1 & E1 & D1 & ->).
  destruct (commit_total (Some s1) s2 (Hsome _ Hw1) Hw2) as (s3 & r3 & C2).
  pose proof (commit_wellFormed _ _ _ _ Hw2 C2) as Hw3.
  pose proof (commit_afterEffects _ _ _ _ C2) as A2.
  destruct (commit_after _ _ _ _ A1 (Hr _ Hw1) C2) as (S2 & E2 & D2 & ->).
  destruct (commit_total (Some s2) s3 (Hsome _ Hw2) Hw3) as (s4 & r4 & C3).
  pose proof (commit_wellFormed _ _ _ _ Hw3 C3) as Hw4.
  pose proof (commit_afterEffects _ _ _ _ C3) as A3.
  destruct (commit_after _ _ _ _ A2 (Hr _ Hw2) C3) as (S3 & E3 & D3 & ->).
  destruct A0 as (_ & _ & F0s & F0e).
  (* the employee is not cleared at the third commit *)
  assert (employeeId s3 = employeeId s2) as E2'.
  { destruct E2 as [E2|(E2 & Hd & Hs & He)]; [exact E2|]. exfalso.
    destruct D1 as [D1|[D1|D1]]; [congruence| |].
    - destruct F0s; congruence.
    - destruct F0e as [F|F]; [congruence|].
      destruct E1 as [E1|(E1 & _)]; congruence. }
  (* nor at the fourth *)
  assert (employeeId s4 = employeeId s3) as E3'.
  { destruct E3 as [E3|(E3 & Hd & Hs & He)]; [exact E3|]. exfalso.
    destruct D2 as [D2|[D2|D2]]; [congruence|congruence|].
    destruct E1 as [E1|(E1 & _)]; congruence. }
  assert (selectedDate s4 = selectedDate s3) as D3'.
  { destruct D3 as [D3|[D3|D3]]; congruence. }
  destruct A3 as (Ha3 & Hm3 & _ & _).
  exists s1, s2, s3, s4, r1. repeat split; auto.
  - apply commit_quiet; auto.
  - apply commit_quiet; auto.
Qed.

Lemma commits_at_rest (s : State) :
  commit (Some s) s = Some (s, []) -> forall n, commits n (Some s) s = Some s.
Proof.
  intros H n. induction n as [|n IH]; simpl; [reflexivity|].
  rewrite H. simpl. exact IH.
Qed.

(** X9: the cascade of effects that an update starts comes to rest: the
    state after four commits is the state after any larger number of
    commits, a further commit of it changes nothing and requests
    nothing. *)
Theorem cascade_settles (prev : option State) (cur : State) :
  (forall p, prev = Some p -> wellFormed p = true) -> wellFormed cur = true ->
  exists st,
    commits 4 prev cur = Some st
    /\ (forall n, commits (4 + n) prev cur = Some st)
    /\ commit (Some st) st = Some (st, []).
Proof.
  intros Hwp Hw0.
  destruct (cascade_chain prev cur Hwp Hw0)
    as (s1 & s2 & s3 & s4 & r1 & C0 & C1 & C2 & C3 & C4 & C5 & _).
  exists s4.
  assert (forall n, commits (4 + n) prev cur = commits n (Some s3) s4) as Hn.
  { intros n. simpl. rewrite C0. simpl. rewrite C1. simpl. rewrite C2. simpl.
    rewrite C3. reflexivity. }
  split; [|split].
  - exact (Hn 0%nat).
  - intros n. rewrite Hn. destruct n as [|n]; simpl; [reflexivity|].
    rewrite C4. simpl. now apply commits_at_rest.
  - exact C5.
Qed.

(** ** At rest the selected date is available *)

Lemma calendarDay_shape (k : string) (t : LocalTime) :
  calendarDay k = Some t -> isKeyShape k = true.
Proof.
  intros H. apply calendarDay_inv in H
    as (y1 & y2 & y3 & y4 & m1 & m2 & d1 & d2 & -> & Y1 & Y2 & Y3 & Y4
        & M1 & M2 & D1 & D2 & _).
  unfold isKeyShape. cbv beta iota fix delta [list_ascii_of_string].
  rewrite Y1, Y2, Y3, Y4, M1, M2, D1, D2. reflexivity.
Qed.

Lemma calendarKeys_In (av : option AvailabilityResponse) (d : DayAvailability) :
  calendarKeys av = true -> In d (daysOf av) ->
  exists t, calendarDay (day_date d) = Some t /\ 1 <= fullYear t
    /\ toKey (KStr (day_date d)) = Some (day_date d).
Proof.
  unfold calendarKeys. rewrite forallb_forall. intros H Hd. specialize (H d Hd).
  destruct (calendarDay (day_date d)) as [t|] eqn:Ht; [|discriminate].
  exists t. split; [reflexivity|]. split; [now apply Z.leb_le|].
  unfold toKey. now rewrite (calendarDay_shape _ _ Ht).
Qed.

Lemma calendarKeys_keysDated (av : option AvailabilityResponse) :
  calendarKeys av = true -> keysDated av = true.
Proof.
  intros H. unfold keysDated. apply forallb_forall. intros d Hd.
  destruct (calendarKeys_In _ _ H Hd) as (t & Ht & _ & ->).
  unfold dateOfKey, newDate. unfold calendarDay in Ht. now rewrite Ht.
Qed.

(** A key of the available-day set of a snapshot of calendar keys
    comes back from the date made of it. *)
Lemma available_key_round_trip (av : option AvailabilityResponse)
    (eid sid : string) (ms : gmap string DayAvailability * gset string)
    (k : string) :
  calendarKeys av = true -> daysMemo av eid sid = Some ms -> k ∈ ms.2 ->
  toKey (KDate (dateOfKey k)) = Some k.
Proof.
  intros Hc H Hk. pose proof (daysMemo_rescan av eid sid) as R. rewrite H in R.
  apply R in Hk as (d & Hd & Hkey & _).
  destruct (calendarKeys_In _ _ Hc Hd) as (t & Ht & Hy & Hk').
  assert (day_date d = k) as E by congruence. rewrite E in Ht.
  assert (dateOfKey k = ValidDate t) as ->.
  { unfold dateOfKey, newDate. unfold calendarDay in Ht. now rewrite Ht. }
  rewrite toKey_valid_date. f_equal.
  pose proof (calendarDay_inv _ _ Ht)
    as (? & ? & ? & ? & ? & ? & ? & ? & _ & _ & _ & _ & _ & _ & _ & _ & _ & E').
  rewrite E' in *. cbn [fullYear monthNo dayOfMonth] in *.
  now apply format_of_calendarDay.
Qed.

Lemma earliest_settled (c q : State) (v : View) :
  calendarKeys (availability c) = true -> render c = Some v ->
  selectedDate q = earliestAvailableDate v ->
  dateSettled q (availableDaySet v).
Proof.
  intros Hc Hv Hq. apply render_inv in Hv as (Hm & He & _).
  destruct (earliestMemo_spec _ _ _ _ Hm) as [[Hempty E]|(k0 & Hk0 & _ & E)];
    simpl in *; rewrite E in He; injection He as He; rewrite <- He in Hq.
  - right. auto.
  - left. exists (dateOfKey k0), k0. repeat split; auto.
    eapply available_key_round_trip; eauto.
Qed.

Lemma dateAvailable_dec (c : State) (v : View) :
  dateAvailable c v \/ ~ dateAvailable c v.
Proof.
  unfold dateAvailable.
  destruct (selectedDate c) as [d|]; [|right; intros (? & ? & [=] & _)].
  destruct (toKey (KDate d)) as [k|] eqn:Hk;
    [|right; intros (? & ? & [= <-] & ? & _); congruence].
  destruct (decide (k ∈ availableDaySet v)) as [Hin|Hin].
  - left. eauto.
  - right. intros (? & ? & [= <-] & ? & ?). congruence.
Qed.

(** The commit in which the effect of lines 224-237 runs leaves a date
    that is right for the filters of its render. *)
Lemma revalidation_settles (prev : option State) (c n : State)
    (r : list Request) (v : View) :
  calendarKeys (availability c) = true -> availability c <> None ->
  render c = Some v -> validityDeps prev c = true ->
  commit prev c = Some (n, r) ->
  dateSettled n (availableDaySet v).
Proof.
  intros Hc Ha Hv Hdeps H.
  apply commit_inv in H as (v' & prevDay & p2 & p4 & Hv' & _ & H2 & H4 & -> & _).
  assert (v' = v) as -> by congruence. rewrite Hdeps in H2.
  assert (forall q q', dateSettled q (availableDaySet v) ->
            selectedDate q' = selectedDate q \/ selectedDate q' = earliestAvailableDate v ->
            dateSettled q' (availableDaySet v)) as Hkeep.
  { intros q q' Hq [E|E]; [|eapply earliest_settled; eauto].
    unfold dateSettled in *. rewrite E. exact Hq. }
  assert (dateSettled p2 (availableDaySet v)) as S2.
  { destruct (effectValidity_spec c v (effectMonth prev c).1 Hv Ha) as [E1 E2].
    destruct (dateAvailable_dec c v) as [Hav|Hnav].
    - rewrite (E1 Hav) in H2. injection H2 as <-.
      destruct (effectMonth_step v prev c) as (_ & _ & _ & _ & D).
      destruct Hav as (d & k & Hd & Hk & Hin). left. exists d, k.
      repeat split; auto. congruence.
    - rewrite (E2 Hnav) in H2. injection H2 as <-.
      eapply earliest_settled; eauto.
      destruct (earliestAvailableDate v); reflexivity. }
  set (p3 := if changed prev c selectedDate then effectResetTime p2 else p2) in *.
  assert (dateSettled p3 (availableDaySet v)) as S3.
  { apply (Hkeep p2); [exact S2|]. left. subst p3.
    destruct (changed prev c selectedDate); reflexivity. }
  assert (dateSettled p4 (availableDaySet v)) as S4.
  { apply (Hkeep p3); [exact S3|].
    destruct (changed prev c employeeId).
    - apply effectEmployee_step in H4.
      destruct H4 as (_ & _ & _ & _ & _ & _ & _ & _ & _ & D). exact D.
    - injection H4 as <-. auto. }
  apply (Hkeep p4); [exact S4|]. left.
  destruct (serviceDeps prev c prevDay v); [|reflexivity].
  apply effectService_step.
Qed.

(** The selected date stays right from one commit to the next. *)
Lemma settled_step (p c n : State) (r : list Request)
    (ms : gmap string DayAvailability * gset string) (v : View) :
  calendarKeys (availability c) = true -> availability c <> None ->
  afterEffects p c -> render p <> None -> render c = Some v ->
  daysMemo (availability p) (employeeId p) (serviceId p) = Some ms ->
  dateSettled c ms.2 ->
  commit (Some p) c = Some (n, r) ->
  dateSettled n (availableDaySet v).
Proof.
  intros Hc Ha A Hp Hv Hms Hs H.
  destruct (decide (serviceId c = serviceId p /\ employeeId c = employeeId p))
    as [[Es Ee]|Hne].
  - destruct (commit_after _ _ _ _ A Hp H) as (_ & _ & D & _).
    assert (selectedDate n = selectedDate c) as Dn
      by (destruct D as [D|[D|D]]; congruence).
    destruct A as (Eav & _).
    apply render_inv in Hv as (Hm & _).
    rewrite Eav, Es, Ee, Hms in Hm. injection Hm as Hm.
    assert (availableDaySet v = ms.2) as -> by (rewrite Hm; reflexivity).
    unfold dateSettled in *. rewrite Dn. exact Hs.
  - eapply revalidation_settles; eauto.
    unfold validityDeps. apply orb_true_iff.
    destruct (decide (serviceId c = serviceId p)) as [Es|Es].
    + left. apply orb_true_iff. right. apply changed_true. intros E. apply Hne. auto.
    + right. apply changed_true. congruence.
Qed.

(** X10: on a snapshot keyed by calendar days, once the cascade that a
    change of snapshot or of filter starts has come to rest, the
    selected date is in the available-day set of the filters that are
    left, or it is null and no day is available. *)
Theorem settled_date_is_available (prev : option State) (cur : State) :
  (forall p, prev = Some p -> wellFormed p = true) -> wellFormed cur = true ->
  calendarKeys (availability cur) = true -> availability cur <> None ->
  validityDeps prev cur = true ->
  exists st v,
    commits 4 prev cur = Some st
    /\ commit (Some st) st = Some (st, [])
    /\ render st = Some v
    /\ dateSettled st (availableDaySet v).
Proof.
  intros Hwp Hw0 Hc Ha Hdeps.
  destruct (cascade_chain prev cur Hwp Hw0)
    as (s1 & s2 & s3 & s4 & r1 & C0 & C1 & C2 & C3 & C4 & C5
        & Hw1 & Hw2 & Hw3 & Hw4).
  pose proof (commit_afterEffects _ _ _ _ C0) as A0.
  pose proof (commit_afterEffects _ _ _ _ C1) as A1.
  pose proof (commit_afterEffects _ _ _ _ C2) as A2.
  pose proof (commit_afterEffects _ _ _ _ C3) as A3.
  pose proof (commit_afterEffects _ _ _ _ C4) as A4.
  destruct (render_total _ Hw0) as (v0 & Hv0).
  destruct (render_total _ Hw1) as (v1 & Hv1).
  destruct (render_total _ Hw2) as (v2 & Hv2).
  destruct (render_total _ Hw3) as (v3 & Hv3).
  destruct (render_total _ Hw4) as (v4 & Hv4).
  assert (availability s1 = availability cur) as E1 by apply A0.
  assert (availability s2 = availability cur) as E2
    by (destruct A1 as (-> & _); exact E1).
  assert (availability s3 = availability cur) as E3
    by (destruct A2 as (-> & _); exact E2).
  assert (availability s4 = availability cur) as E4
    by (destruct A3 as (-> & _); exact E3).
  assert (forall s v, render s = Some v ->
            daysMemo (availability s) (employeeId s) (serviceId s)
            = Some (daysByKey v, availableDaySet v)) as Hmemo.
  { intros s v Hv. now apply render_inv in Hv as (Hm & _). }
  pose proof (revalidation_settles _ _ _ _ _ Hc Ha Hv0 Hdeps C0) as S1.
  assert (dateSettled s2 (availableDaySet v1)) as S2.
  { apply (settled_step cur s1 s2 [] (daysByKey v0, availableDaySet v0) v1);
      [rewrite E1; exact Hc|congruence|exact A0|congruence|assumption
      |apply Hmemo; assumption|exact S1|exact C1]. }
  assert (dateSettled s3 (availableDaySet v2)) as S3.
  { apply (settled_step s1 s2 s3 [] (daysByKey v1, availableDaySet v1) v2);
      [rewrite E2; exact Hc|congruence|exact A1|congruence|assumption
      |apply Hmemo; assumption|exact S2|exact C2]. }
  assert (dateSettled s4 (availableDaySet v3)) as S4.
  { apply (settled_step s2 s3 s4 [] (daysByKey v2, availableDaySet v2) v3);
      [rewrite E3; exact Hc|congruence|exact A2|congruence|assumption
      |apply Hmemo; assumption|exact S3|exact C3]. }
  assert (dateSettled s4 (availableDaySet v4)) as S5.
  { apply (settled_step s3 s4 s4 [] (daysByKey v3, availableDaySet v3) v4);
      [rewrite E4; exact Hc|congruence|exact A3|congruence|assumption
      |apply Hmemo; assumption|exact S4|exact C4]. }
  exists s4, v4. repeat split; auto.
  simpl. rewrite C0. simpl. rewrite C1. simpl. rewrite C2. simpl. rewrite C3.
  reflexivity.
Qed.


(** ** Choosing an offered employee *)

(** A render goes through whatever the filters, when one did. *)
Lemma render_other_filters (s s' : State) (v : View) :
  render s = Some v ->
  availability s' = availability s -> selectedDate s' = selectedDate s ->
  exists v', render s' = Some v'
    /\ daysByKey v' = daysByKey v /\ selectedDayData v' = selectedDayData v.
Proof.
  intros Hv Ha Hd. pose proof (render_inv _ _ Hv) as (Hm & _ & Hsd & _).
  assert (exists ms', daysMemo (availability s') (employeeId s') (serviceId s')
                      = Some ms') as (ms' & Hm').
  { pose proof (daysMemo_rescan (availability s') (employeeId s') (serviceId s')) as R.
    destruct (daysMemo (availability s') (employeeId s') (serviceId s'))
      as [ms'|]; [eauto|].
    destruct R as (d & Hin & Hk). rewrite Ha in Hin.
    pose proof (daysMemo_rescan (availability s) (employeeId s) (serviceId s)) as R.
    rewrite Hm in R.
    destruct (availability s) as [a|]; [|destruct Hin].
    simpl in Hm.
    assert (scanDays (employeeId s) (serviceId s) (∅, ∅) (av_days a) = None) as C.
    { apply scanDays_throws. exists d. auto. }
    congruence. }
  rewrite Ha in Hm'.
  pose proof (daysMemo_map _ _ _ _ _ _ _ Hm Hm') as Emap. simpl in Emap.
  destruct (earliestMemo_total _ _ _ _ Hm') as (e & He).
  unfold render. rewrite Ha, Hm'. simpl. rewrite He. simpl.
  rewrite Hd, <- Emap, Hsd. simpl. eexists. split; [reflexivity|]. simpl. auto.
Qed.

(** X11: choosing an employee that the list offers, when the selected
    date is available and the employees of the selected day have
    distinct ids, keeps the selected date and the service: the commit
    only clears the time slot and closes the time picker. *)
Theorem offered_employee_keeps_date (s : State) (v : View)
    (sd : DayAvailability) (x : string) :
  render s = Some v ->
  dateAvailable s v ->
  selectedDayData v = Some sd ->
  List.NoDup (List.map emp_id (day_employees sd)) ->
  enabled s v (SelectEmployee x) = true ->
  employeeId s <> x ->
  commit (Some s) (setEmployeeId x s)
  = Some (setTimeOpen false (setSelectedSlot "" (setEmployeeId x s)), []).
Proof.
  intros Hv Hav Hsd Hnd Hen Hx.
  set (cur := setEmployeeId x s).
  (* the chosen entry *)
  simpl in Hen. apply existsb_exists in Hen as (e & He & Hid).
  apply idIs_true in Hid.
  pose proof (render_inv _ _ Hv) as (Hm & _ & _ & Hemps & _).
  rewrite Hemps, Hsd in He.
  apply (employeesMemo_day sd (serviceId s) e Hnd) in He as [Hin Hday].
  rewrite Hid in Hday.
  assert (findEmployee x (day_employees sd) = Some e) as Hfind.
  { rewrite <- Hid. now apply findEmployee_unique. }
  assert (x <> "") as Hne by (rewrite <- Hid; apply pretty_Z_nonempty).
  assert (hasSlots e = true
          /\ (truthy (serviceId s) = true -> offers (serviceId s) e = true))
    as [Hslots Hoff].
  { unfold dayHasAvailability in Hday.
    rewrite (proj2 (truthy_true _) Hne), Hfind in Hday.
    destruct (hasSlots e); [|discriminate]. split; [reflexivity|].
    intros Ht. now rewrite Ht in Hday. }
  (* the render after the choice *)
  destruct (render_other_filters s cur v Hv eq_refl eq_refl)
    as (v' & Hv' & Emap & Eday).
  rewrite Hsd in Eday.
  destruct Hav as (d & k & Hd & Hk & Hkin).
  destruct (render_selectedDay_some _ _ _ Hv Hsd)
    as (Ha & d' & k' & Hd' & Hk' & Hlook).
  assert (d' = d) as -> by congruence. assert (k' = k) as -> by congruence.
  assert (dateAvailable cur v') as Hav'.
  { exists d, k. repeat split; auto.
    pose proof (render_inv _ _ Hv') as (Hm' & _). simpl in Hm'.
    pose proof (daysMemo_rescan (availability s) x (serviceId s)) as R.
    rewrite Hm' in R. apply R. exists sd.
    destruct (daysMemo_lookup _ _ _ _ k Hm) as [L _].
    apply L in Hlook as (l1 & l2 & E & Hkey & _).
    repeat split.
    - rewrite E. apply in_or_app. right. now left.
    - exact Hkey.
    - exact (daysMemo_not_past _ _ _ _ _ Hm Hkin).
    - now apply dayHasAvailability_spec. }
  (* the commit *)
  destruct (commit_total_render (Some s) cur) as (n & r & H).
  { intros p [= <-]. congruence. }
  { congruence. }
  rewrite H. f_equal.
  apply commit_inv in H as (v0 & prevDay & p2 & p4 & Hv0 & _ & H2 & H4 & -> & ->).
  assert (v0 = v') as -> by congruence.
  assert (effectMonth (Some s) cur = (cur, [])) as Hmonth.
  { unfold effectMonth. now rewrite (changed_false s cur month) by reflexivity. }
  rewrite Hmonth in *. cbn [fst snd] in *.
  assert (validityDeps (Some s) cur = true) as Hdeps.
  { unfold validityDeps. rewrite (changed_true s cur employeeId) by exact Hx.
    now rewrite orb_true_r. }
  rewrite Hdeps in H2.
  destruct (effectValidity_spec cur v' cur Hv' Ha) as [E _].
  rewrite (E Hav') in H2. injection H2 as <-.
  rewrite (changed_false s cur selectedDate) in H4 by reflexivity.
  rewrite (changed_true s cur employeeId) in H4 by exact Hx.
  assert (effectEmployee cur v' cur
          = Some (setTimeOpen false (setSelectedSlot "" cur))) as Eemp.
  { unfold effectEmployee. simpl.
    rewrite (proj2 (truthy_true _) Hne), Eday, Hfind, Hslots. simpl.
    rewrite Hd. simpl. rewrite Hk. simpl.
    rewrite Emap, Hlook, bool_decide_eq_true_2 by reflexivity. simpl.
    destruct (truthy (serviceId s)) eqn:Ht; simpl.
    - rewrite (Hoff eq_refl). simpl.
      destruct (earliestAvailableDate v'); reflexivity.
    - destruct (earliestAvailableDate v'); reflexivity. }
  rewrite Eemp in H4. injection H4 as <-.
  f_equal.
  destruct (serviceDeps (Some s) cur prevDay v'); [|reflexivity].
  unfold effectService. simpl.
  destruct (truthy (serviceId s)) eqn:Ht; simpl; [|reflexivity].
  rewrite (proj2 (truthy_true _) Hne), Eday, Hfind, (Hoff eq_refl). reflexivity.
Qed.

(** ** Month navigation and the availability request *)

Lemma daysInMonth_bounds (y m : Z) : 28 <= daysInMonth y m <= 31.
Proof.
  unfold daysInMonth.
  destruct (m =? 2); [destruct (isLeap y); lia|].
  destruct ((m =? 4) || (m =? 6) || (m =? 9) || (m =? 11)); lia.
Qed.

Lemma addMonths_first (m : LocalTime) (k : Z) :
  1 <= monthNo m <= 12 -> dayOfMonth m = 1 -> k = 1 \/ k = -1 ->
  dayOfMonth (addMonths m k) = 1
  /\ 1 <= monthNo (addMonths m k) <= 12
  /\ addMonths m k <> m
  /\ addMonths (addMonths m k) (- k) = m.
Proof.
  intros Hm Hd Hk. destruct m as [y mo d ms]. simpl in *. subst d.
  unfold addMonths. cbn [fullYear monthNo dayOfMonth msOfDay].
  set (n := y * 12 + (mo - 1)).
  assert (Hy : (n + k) / 12 * 12 + ((n + k) mod 12 + 1 - 1) + - k = n).
  { pose proof (Z.div_mod (n + k) 12). lia. }
  assert (Hn : n / 12 = y /\ n mod 12 = mo - 1).
  { subst n. split.
    - symmetry. apply (Z.div_unique _ 12 y (mo - 1)); lia.
    - symmetry. apply (Z.mod_unique _ 12 y (mo - 1)); lia. }
  pose proof (daysInMonth_bounds ((n + k) / 12) ((n + k) mod 12 + 1)) as B1.
  pose proof (Z.mod_pos_bound (n + k) 12 ltac:(lia)) as B2.
  repeat split.
  - lia.
  - lia.
  - lia.
  - intros E. injection E as E1 E2 _.
    assert ((n + k) mod 12 = n mod 12) as E3 by lia.
    assert ((n + k) / 12 = n / 12) as E4 by lia.
    pose proof (Z.div_mod (n + k) 12). pose proof (Z.div_mod n 12). lia.
  - rewrite (Z.min_l 1) by lia. rewrite Hy.
    destruct Hn as [-> ->].
    pose proof (daysInMonth_bounds y (mo - 1 + 1)).
    rewrite (Z.min_l 1) by lia. f_equal. lia.
Qed.

(** X12: a step to the next or the previous month is undone by the
    opposite step, and the commit that follows it starts one
    availability request, for the new month, with the loading flag set
    and the error cleared; nothing else of the state changes. *)
Theorem month_step_fetches_once (s : State) (v : View) (k : Z) :
  render s = Some v ->
  1 <= monthNo (month s) <= 12 -> dayOfMonth (month s) = 1 ->
  k = 1 \/ k = -1 ->
  handle s v (if k =? 1 then NextMonth else PrevMonth)
  = Some (setMonth (addMonths (month s) k) s)
  /\ commit (Some s) (setMonth (addMonths (month s) k) s)
     = Some (setError "" (setLoadingAvailability true
                            (setMonth (addMonths (month s) k) s)),
             [GetAvailability (format_yM (addMonths (month s) k))])
  /\ addMonths (addMonths (month s) k) (- k) = month s.
Proof.
  intros Hv Hm Hd Hk.
  destruct (addMonths_first (month s) k Hm Hd Hk) as (_ & _ & Hne & Hback).
  split; [|split; [|exact Hback]].
  - destruct Hk as [->| ->]; reflexivity.
  - set (cur := setMonth (addMonths (month s) k) s).
    assert (render cur = Some v) as Hvc by exact Hv.
    destruct (commit_total_render (Some s) cur) as (n & r & H).
    { intros p [= <-]. congruence. }
    { congruence. }
    rewrite H. f_equal.
    apply commit_inv in H as (v0 & prevDay & p2 & p4 & Hv0 & Hprev & H2 & H4 & -> & ->).
    assert (v0 = v) as -> by congruence.
    assert (prevDay = Some (selectedDayData v)) as ->.
    { unfold prevSelectedDay in Hprev. rewrite Hv in Hprev. simpl in Hprev.
      congruence. }
    assert (effectMonth (Some s) cur
            = (setError "" (setLoadingAvailability true cur),
               [GetAvailability (format_yM (addMonths (month s) k))])) as Hmonth.
    { unfold effectMonth. rewrite (changed_true s cur month); [reflexivity|].
      simpl. congruence. }
    rewrite Hmonth in *. cbn [fst snd] in *.
    assert (validityDeps (Some s) cur = false) as Hdeps.
    { unfold validityDeps.
      now rewrite (changed_false s cur availability),
        (changed_false s cur employeeId), (changed_false s cur serviceId)
        by reflexivity. }
    rewrite Hdeps in H2. injection H2 as <-.
    rewrite (changed_false s cur selectedDate) in H4 by reflexivity.
    rewrite (changed_false s cur employeeId) in H4 by reflexivity.
    injection H4 as <-.
    assert (serviceDeps (Some s) cur (Some (selectedDayData v)) v = false) as ->.
    { unfold serviceDeps.
      rewrite (changed_false s cur employeeId), (changed_false s cur serviceId)
        by reflexivity.
      simpl. apply bool_decide_eq_false. auto. }
    reflexivity.
Qed.

Lemma normalizeDays_spec (ds : list DayAvailability) :
  forall r, normalizeDays ds = Some r ->
  dayKeys ds = Some (List.map day_date r)
  /\ List.map day_employees r = List.map day_employees ds.
Proof.
  induction ds as [|d ds IH]; simpl; intros r H.
  - injection H as <-. auto.
  - destruct (toKey (KStr (day_date d))) as [k|]; [|discriminate].
    simpl in H |- *. destruct (normalizeDays ds) as [r'|]; [|discriminate].
    simpl in H. injection H as <-. destruct (IH r' eq_refl) as [E1 E2].
    simpl. rewrite E1, E2. simpl. split; reflexivity.
Qed.

Lemma normalizeDays_dayKeys (ds : list DayAvailability) :
  normalizeDays ds = None <-> dayKeys ds = None.
Proof.
  induction ds as [|d ds IH]; simpl; [split; discriminate|].
  destruct (toKey (KStr (day_date d))) as [k|]; simpl; [|split; reflexivity].
  destruct (normalizeDays ds), (dayKeys ds); simpl; split; try discriminate;
    try reflexivity.
  - intros _. destruct IH as [_ IH]. discriminate (IH eq_refl).
  - intros _. destruct IH as [IH _]. discriminate (IH eq_refl).
Qed.

Lemma normalizeDays_throws (ds : list DayAvailability) :
  normalizeDays ds = None
  <-> exists d, In d ds /\ toKey (KStr (day_date d)) = None.
Proof. rewrite normalizeDays_dayKeys. apply dayKeys_throws. Qed.

(** X13: when the availability request succeeds, the answer is stored
    with the date of each day replaced by its key, the days in the same
    order and with the same employees; no error is recorded, the loading
    flag is cleared and the selection is not touched.  The answer is
    not stored exactly when one of its dates has no key. *)
Theorem fetch_success (p : State) (data : AvailabilityResponse) :
  (forall ds, normalizeDays (av_days data) = Some ds ->
     availability (fetchSettle (Resolved data) p)
     = Some (mkAvailability (av_companyId data) (av_month data) ds)
     /\ dayKeys (av_days data) = Some (List.map day_date ds)
     /\ List.map day_employees ds = List.map day_employees (av_days data)
     /\ error (fetchSettle (Resolved data) p) = error p)
  /\ (normalizeDays (av_days data) = None
      <-> exists d, In d (av_days data) /\ toKey (KStr (day_date d)) = None)
  /\ loadingAvailability (fetchSettle (Resolved data) p) = false
  /\ serviceId (fetchSettle (Resolved data) p) = serviceId p
  /\ employeeId (fetchSettle (Resolved data) p) = employeeId p
  /\ selectedDate (fetchSettle (Resolved data) p) = selectedDate p
  /\ selectedSlot (fetchSettle (Resolved data) p) = selectedSlot p.
Proof.
  split; [|split; [apply normalizeDays_throws|]].
  - intros ds H. destruct (normalizeDays_spec _ _ H) as [K E].
    unfold fetchSettle. rewrite H. simpl. auto.
  - destruct (fetchSettle_form (Resolved data) p)
      as (_ & _ & _ & F4 & F5 & F6 & F7 & _).
    repeat split; auto.
Qed.

(** ** Submissions that do not go through *)

(** X14: a submission that does not go through leaves the form as it
    is.  While a required field is missing or a submission is in flight
    [handleSubmit] only clears the error and requests nothing; when the
    selected date is the Invalid Date it records the RangeError and
    requests nothing; when the POST fails it records the message of the
    failure (or the default message) and has requested nothing but the
    POST.  In each case every field of the form, the selection and the
    snapshot are as before and the submitting flag is off again. *)
Theorem failed_submission_keeps_the_form (s : State) (post : option Exn)
    (refetch : FetchOutcome) :
  (canReserveOf s = false -> handleSubmit s post refetch = (setError "" s, []))
  /\ (submitting s = true -> canReserveOf s = false)
  /\ (canReserveOf s = true -> selectedDate s = Some InvalidDate ->
      handleSubmit s post refetch
      = (setError (default "No se pudo crear la reserva"
                     (exn_message rangeError)) s, []))
  /\ (forall t e,
        canReserveOf s = true -> selectedDate s = Some (ValidDate t) ->
        post = Some e ->
        (handleSubmit s post refetch).1
        = setError (default "No se pudo crear la reserva" (exn_message e)) s
        /\ List.filter isGet (handleSubmit s post refetch).2 = []
        /\ List.length (handleSubmit s post refetch).2 = 1%nat).
Proof.
  assert (canReserveOf s = true -> submitting s = false) as Hsub.
  { intros H. apply canReserveOf_true in H. apply H. }
  repeat split.
  - intros H. unfold handleSubmit. now rewrite H.
  - intros H. unfold canReserveOf. rewrite H. simpl. apply andb_false_r.
  - intros Hcan Hd. unfold handleSubmit. rewrite Hcan, Hd. simpl.
    pose proof (Hsub Hcan) as E. destruct s; simpl in *. now subst.
  - unfold handleSubmit. rewrite H, H0, H1. simpl.
    pose proof (Hsub H) as E. destruct s; simpl in *. now subst.
  - unfold handleSubmit. rewrite H, H0, H1. reflexivity.
  - unfold handleSubmit. rewrite H, H0, H1. reflexivity.
Qed.

(** ** Input that no effect depends on *)

Lemma render_same_deps (s s' : State) (v : View) :
  render s = Some v ->
  availability s' = availability s -> employeeId s' = employeeId s ->
  serviceId s' = serviceId s -> selectedDate s' = selectedDate s ->
  exists v', render s' = Some v' /\ sameLists v v'.
Proof.
  unfold render. intros H -> -> -> ->.
  destruct (daysMemo _ _ _) as [ms|]; [|discriminate]. simpl in *.
  destruct (earliestMemo _ _) as [e|]; [|discriminate]. simpl in *.
  destruct (selectedDayMemo _ _ _) as [sd|]; [|discriminate]. simpl in *.
  injection H as <-. eexists. split; [reflexivity|].
  unfold sameLists. simpl. repeat split.
Qed.

Lemma outsideDeps_fields (s s' : State) (v : View) (ev : Event) :
  outsideDeps ev = true -> handle s v ev = Some s' ->
  availability s' = availability s /\ month s' = month s
  /\ employeeId s' = employeeId s /\ serviceId s' = serviceId s
  /\ selectedDate s' = selectedDate s.
Proof.
  destruct ev as [x|x|x|x|x|d|x| | |[data|e]]; try discriminate;
    intros _ [= <-]; try (simpl; repeat split; reflexivity).
  unfold fetchSettle, catchFetch. destruct (bool_decide _); simpl; repeat split.
Qed.

(** X15: typing a name, a phone number or a note, picking a time slot,
    and an availability request that fails run no effect and request
    nothing: the commit that follows leaves the state as the handler
    wrote it, and the render shows the same days, employees, services
    and slots as before. *)
Theorem input_outside_dependencies (s s' : State) (v : View) (ev : Event) :
  render s = Some v -> outsideDeps ev = true -> handle s v ev = Some s' ->
  commit (Some s) s' = Some (s', [])
  /\ exists v', render s' = Some v' /\ sameLists v v'.
Proof.
  intros Hv Hev Hh.
  destruct (outsideDeps_fields s s' v ev Hev Hh) as (Ha & Hm & He & Hs & Hd).
  destruct (render_same_deps s s' v Hv Ha He Hs Hd) as (v' & Hv' & Hsame).
  split; [|eauto].
  apply commit_quiet; congruence.
Qed.

(** ** The HTTP helper *)

(** X16: [api] throws what [fetch] throws; on a response that is not
    ok it throws an [Error] whose message starts with HTTP and the
    status, so that a failed availability request records a message
    that is not empty and keeps the snapshot; on status 204 it returns
    [undefined] without parsing the body; otherwise it returns the
    parsed body or throws what the parse throws. *)
Theorem api_outcomes {T : Type} (res : Response T) (p : State) :
  (forall e : Exn, api (T := T) (inl e) = Thrown e)
  /\ (res_ok res = false ->
      exists msg rest,
        api (inr res) = Thrown (mkExn (Some "Error") (Some msg))
        /\ msg = "HTTP " +:+ pretty (res_status res) +:+ " " +:+ rest
        /\ error (fetchSettle (Rejected (mkExn (Some "Error") (Some msg))) p) = msg
        /\ msg <> ""
        /\ availability (fetchSettle (Rejected (mkExn (Some "Error") (Some msg))) p)
           = availability p)
  /\ (res_ok res = true -> res_status res = 204 -> api (inr res) = Returned None)
  /\ (res_ok res = true -> res_status res <> 204 ->
      api (inr res)
      = match res_json res with
        | inl e => Thrown e
        | inr value => Returned (Some value)
        end).
Proof.
  repeat split.
  - intros Hok. unfold api. rewrite Hok. simpl.
    eexists. eexists. split; [reflexivity|]. unfold httpMessage.
    split; [reflexivity|]. repeat split. discriminate.
  - intros Hok Hs. unfold api. rewrite Hok, Hs. reflexivity.
  - intros Hok Hs. unfold api. rewrite Hok. simpl.
    destruct (Z.eqb_spec (res_status res) 204); [contradiction|reflexivity].
Qed.

(** ** The class-name joiner *)

Lemma filterBoolean_app (xs ys : list (option string)) :
  filterBoolean (xs ++ ys) = filterBoolean xs ++ filterBoolean ys.
Proof.
  induction xs as [|[x|] xs IH]; simpl; auto.
  destruct (truthy x); simpl; congruence.
Qed.

Lemma filterBoolean_truthy (xs : list (option string)) (x : string) :
  In x (filterBoolean xs) -> truthy x = true.
Proof.
  induction xs as [|[y|] xs IH]; simpl; auto; try tauto.
  destruct (truthy y) eqn:Hy; simpl; auto. intros [<-|H]; auto.
Qed.

Lemma append_empty (a b : string) : a +:+ b = "" -> a = "".
Proof. destruct a; simpl; [auto|discriminate]. Qed.

Lemma append_assoc (a b c : string) : (a +:+ b) +:+ c = a +:+ b +:+ c.
Proof.
  induction a as [|x a IH]; [reflexivity|].
  change (String x (a +:+ b) +:+ c = String x (a +:+ b +:+ c)).
  change (String x ((a +:+ b) +:+ c) = String x (a +:+ b +:+ c)).
  now rewrite IH.
Qed.

Lemma join_truthy (sep : string) (l : list string) :
  (forall x, In x l -> truthy x = true) ->
  truthy (join sep l) = negb (bool_decide (l = [])).
Proof.
  intros H. destruct l as [|x l]; [reflexivity|].
  assert (truthy x = true) as Hx by (apply H; now left).
  rewrite bool_decide_eq_false_2 by discriminate. simpl.
  destruct l as [|y l]; [exact Hx|].
  apply truthy_true. intros E. apply append_empty in E.
  apply truthy_true in Hx. contradiction.
Qed.

Lemma join_app (sep : string) (a b : list string) :
  a <> [] -> b <> [] ->
  join sep (a ++ b) = join sep a +:+ sep +:+ join sep b.
Proof.
  intros Ha Hb. induction a as [|x a IH]; [contradiction|].
  destruct a as [|y a].
  - simpl. destruct b; [contradiction|reflexivity].
  - change (join sep ((x :: y :: a) ++ b))
      with (x +:+ sep +:+ join sep ((y :: a) ++ b)).
    rewrite IH by discriminate.
    change (join sep (x :: y :: a)) with (x +:+ sep +:+ join sep (y :: a)).
    now rewrite !append_assoc.
Qed.

(** X17: [cx] drops the parts that are missing or empty and joins the
    rest with single spaces, so joining is compositional: the classes
    of two lists of parts put one after the other are the join of the
    classes of each, and the result is empty exactly when no part is
    left. *)
Theorem cx_compositional (xs ys : list (option string)) :
  cx (xs ++ ys) = cx [Some (cx xs); Some (cx ys)]
  /\ (cx xs = "" <-> filterBoolean xs = [])
  /\ cx (xs ++ [None]) = cx xs.
Proof.
  assert (forall zs, truthy (cx zs) = negb (bool_decide (filterBoolean zs = [])))
    as Ht.
  { intros zs. apply join_truthy, filterBoolean_truthy. }
  assert (forall zs, filterBoolean zs = [] -> cx zs = "") as Hnil.
  { intros zs E. unfold cx. now rewrite E. }
  split; [|split].
  - unfold cx at 1 2. rewrite filterBoolean_app. simpl. rewrite !Ht.
    destruct (filterBoolean xs) as [|x xs'] eqn:Ex,
      (filterBoolean ys) as [|y ys'] eqn:Ey;
      rewrite ?bool_decide_eq_true_2 by reflexivity;
      rewrite ?bool_decide_eq_false_2 by discriminate; simpl.
    + reflexivity.
    + unfold cx. now rewrite Ey.
    + rewrite app_nil_r. unfold cx. now rewrite Ex.
    + unfold cx. rewrite Ex, Ey.
      rewrite <- (join_app " " (x :: xs') (y :: ys')) by discriminate.
      reflexivity.
  - split; [|apply Hnil]. intros E.
    pose proof (Ht xs) as T. rewrite E in T. simpl in T.
    destruct (filterBoolean xs); [reflexivity|].
    rewrite bool_decide_eq_false_2 in T by discriminate. discriminate.
  - unfold cx. rewrite filterBoolean_app. simpl. now rewrite app_nil_r.
Qed.

(** ** Past days, in the words of the specification *)

Lemma time_ltb_dayBefore (a b : LocalTime) :
  msOfDay a = msOfDay b -> (time_ltb a b = true <-> dayBefore a b).
Proof.
  intros Hms. unfold time_ltb, dayBefore.
  rewrite !orb_true_iff, !andb_true_iff, !Z.ltb_lt, !Z.eqb_eq. lia.
Qed.

Lemma isPastKey_PastDay (k : string) : isPastKey k = false <-> ~ PastDay k.
Proof.
  unfold isPastKey, PastDay. destruct (dateOfKey k) as [|t] eqn:E; simpl.
  - split; [|reflexivity]. intros _ (t & [=] & _).
  - set (t0 := mkLocalTime (fullYear t) (monthNo t) (dayOfMonth t) 0).
    assert (time_ltb t0 today = true <-> dayBefore t now) as B.
    { rewrite (time_ltb_dayBefore t0 today) by reflexivity.
      unfold dayBefore, today, t0. simpl. reflexivity. }
    split.
    + intros H (t' & [= <-] & Hb). apply B in Hb. congruence.
    + intros H. destruct (time_ltb t0 today) eqn:Hl; [|reflexivity].
      exfalso. apply H. exists t. split; [reflexivity|]. now apply B.
Qed.

Lemma PastDay_calendar (k : string) (t : LocalTime) :
  calendarDay k = Some t -> (PastDay k <-> dayBefore t now).
Proof.
  intros H. unfold PastDay.
  assert (dateOfKey k = ValidDate t) as ->.
  { unfold dateOfKey, newDate. unfold calendarDay in H. now rewrite H. }
  split.
  - intros (t' & [= <-] & Hb). exact Hb.
  - intros Hb. eauto.
Qed.

Lemma daysMemo_rescan_spec (av : option AvailabilityResponse)
    (eid sid : string) (ms : gmap string DayAvailability * gset string) :
  daysMemo av eid sid = Some ms ->
  forall k, k ∈ ms.2 <->
    exists d, In d (daysOf av)
      /\ toKey (KStr (day_date d)) = Some k
      /\ ~ PastDay k
      /\ DayAvailable eid sid d.
Proof.
  intros H k. pose proof (daysMemo_rescan av eid sid) as R. rewrite H in R.
  rewrite (R k). split; intros (d & Hd & Hk & Hp & Ha); exists d;
    repeat split; auto; now apply isPastKey_PastDay.
Qed.

(** C1: for every snapshot and every combination of the employee and
    service filters, a key is in the computed available-day set exactly
    when a re-scan of the snapshot finds a day entry with that key on
    which the predicate of section 4.2 holds: the date of the key is not
    strictly before the current calendar day and, with an employee
    filter, the day's entry for that employee has a slot and (if a
    service is set too) offers the service; with a service filter only,
    some employee of the day has a slot and offers it; with no filter,
    some employee of the day has a slot.  For a key that denotes a
    calendar day, the first condition is that this day is today or
    later.  The computation fails only when a date of the snapshot
    cannot be normalised. *)
Theorem availableDaySet_rescan (av : option AvailabilityResponse)
    (eid sid : string) :
  match daysMemo av eid sid with
  | Some ms =>
      (forall k, k ∈ ms.2 <->
         exists d, In d (daysOf av)
           /\ toKey (KStr (day_date d)) = Some k
           /\ ~ PastDay k
           /\ DayAvailable eid sid d)
      /\ (forall k t, calendarDay k = Some t ->
            (k ∈ ms.2 <->
             ~ dayBefore t now
             /\ exists d, In d (daysOf av)
                  /\ toKey (KStr (day_date d)) = Some k
                  /\ DayAvailable eid sid d))
  | None => exists d, In d (daysOf av) /\ toKey (KStr (day_date d)) = None
  end.
Proof.
  pose proof (daysMemo_rescan av eid sid) as R.
  destruct (daysMemo av eid sid) as [ms|] eqn:H; [|exact R].
  pose proof (daysMemo_rescan_spec av eid sid ms H) as S.
  split; [exact S|]. intros k t Ht. rewrite (S k).
  rewrite <- (PastDay_calendar k t Ht). split.
  - intros (d & ? & ? & ? & ?). split; [assumption|]. exists d. auto.
  - intros (? & d & ? & ? & ?). exists d. auto.
Qed.

(** ** The date that is selected anew *)






(** ** The jump on a change of employee *)





(** ** What [toKey] reads and returns *)

(** Off the keys, [toKey] formats the start of the day of the date it
    reads. *)
Lemma toKey_dateRead (d : KeyArg) :
  alreadyKey d = false -> toKey d = format_yMd (startOfDay (dateRead d)).
Proof.
  destruct d as [s|dt]; unfold toKey, dateRead, alreadyKey; [|reflexivity].
  intros ->. destruct (isValid (newDate s)); reflexivity.
Qed.

Lemma toKey_key (s : string) : isKeyShape s = true -> toKey (KStr s) = Some s.
Proof. intros Hs. unfold toKey. now rewrite Hs. Qed.

Lemma plainDay_startOfDay (t : LocalTime) :
  plainDay t ->
  plainDay (mkLocalTime (fullYear t) (monthNo t) (dayOfMonth t) 0).
Proof. unfold plainDay. simpl. auto. Qed.

Lemma toKey_plainDay (d : KeyArg) (t : LocalTime) :
  alreadyKey d = false -> dateRead d = ValidDate t -> plainDay t ->
  exists k, toKey d = Some k /\ isKeyShape k = true.
Proof.
  intros Hd Hr Ht. rewrite (toKey_dateRead d Hd), Hr. simpl.
  eexists. split; [reflexivity|].
  apply format_yMd_shape, plainDay_startOfDay, Ht.
Qed.

Lemma toKey_throws (d : KeyArg) :
  toKey d = None <-> alreadyKey d = false /\ dateRead d = InvalidDate.
Proof.
  destruct (alreadyKey d) eqn:Hd.
  - destruct d as [s|dt]; [|discriminate]. simpl in Hd.
    rewrite (toKey_key s Hd). split; [discriminate|intros [[=] _]].
  - rewrite (toKey_dateRead d Hd).
    destruct (dateRead d) as [|t]; simpl; split; auto.
    + discriminate.
    + intros [_ [=]].
Qed.

(** A snapshot whose dates are keys already or are read as days of a
    four-digit year is stored with keys of the shape, and storing it
    again changes nothing. *)
Lemma normalizeDays_shaped (ds : list DayAvailability) :
  (forall orig, In orig ds ->
     isKeyShape (day_date orig) = true
     \/ exists t, dateRead (KStr (day_date orig)) = ValidDate t /\ plainDay t) ->
  exists r, normalizeDays ds = Some r
    /\ (forall day, In day r -> isKeyShape (day_date day) = true)
    /\ normalizeDays r = Some r.
Proof.
  induction ds as [|d ds IH]; intros H.
  - exists []. simpl. repeat split. intros day [].
  - destruct IH as (r & Hr & Hshape & Hfix).
    { intros orig Ho. apply H. now right. }
    assert (exists k, toKey (KStr (day_date d)) = Some k /\ isKeyShape k = true)
      as (k & Hk & Hs).
    { destruct (H d (or_introl eq_refl)) as [Hd|(t & Ht & Hp)].
      - exists (day_date d). split; [now apply toKey_key|exact Hd].
      - destruct (isKeyShape (day_date d)) eqn:Hd.
        + exists (day_date d). split; [now apply toKey_key|exact Hd].
        + apply (toKey_plainDay (KStr (day_date d)) t); auto. }
    exists (mkDay k (day_employees d) :: r). simpl. rewrite Hk, Hr. simpl.
    split; [reflexivity|]. split.
    + intros day [<-|Hday]; [exact Hs|now apply Hshape].
    + rewrite (toKey_key k Hs), Hfix. reflexivity.
Qed.

(** C10, as the code has it: [toKey] returns a string of the shape
    yyyy-MM-dd unchanged; on a [Date], or on a string that [new Date]
    reads as a date (as it is, or with T00:00:00 appended), of a year
    that prints in four digits it returns a string of that shape, and
    normalising the result again returns it, so [toKey(toKey(d))] is
    [toKey(d)]; it throws exactly when its argument is the Invalid Date
    or a string, not of the shape, that [new Date] reads as no date
    either way; a result that has not the shape comes from a date of a
    year that does not print in four digits.  The date stored for a day
    after a fetch is the result of [toKey] on the date received: the
    stored snapshot has keys of the shape and is a fixed point of the
    normalisation whenever the dates received are keys already or are
    read as dates of a four-digit year. *)
Theorem toKey_normalises (d : KeyArg) :
  (forall s, d = KStr s -> isKeyShape s = true -> toKey d = Some s)
  /\ (forall t, alreadyKey d = false -> dateRead d = ValidDate t -> plainDay t ->
        exists k, toKey d = Some k /\ isKeyShape k = true
          /\ toKey (KStr k) = toKey d)
  /\ (toKey d = None <-> alreadyKey d = false /\ dateRead d = InvalidDate)
  /\ (forall k, toKey d = Some k -> isKeyShape k = true ->
        toKey (KStr k) = toKey d)
  /\ (forall k, toKey d = Some k -> isKeyShape k = false ->
        exists t, dateRead d = ValidDate t /\ ~ plainDay t)
  /\ (forall data ds,
        normalizeDays (av_days data) = Some ds ->
        (forall day, In day ds ->
           (exists orig, In orig (av_days data)
              /\ toKey (KStr (day_date orig)) = Some (day_date day))
           /\ (isKeyShape (day_date day) = true ->
               toKey (KStr (day_date day)) = Some (day_date day)))
        /\ ((forall orig, In orig (av_days data) ->
               isKeyShape (day_date orig) = true
               \/ exists t, dateRead (KStr (day_date orig)) = ValidDate t
                    /\ plainDay t) ->
            (forall day, In day ds -> isKeyShape (day_date day) = true)
            /\ normalizeDays ds = Some ds)).
Proof.
  split; [|split; [|split; [|split; [|split]]]].
  - intros s -> Hs. now apply toKey_key.
  - intros t Hd Hr Ht. destruct (toKey_plainDay d t Hd Hr Ht) as (k & Hk & Hs).
    exists k. split; [exact Hk|]. split; [exact Hs|].
    rewrite Hk. now apply toKey_key.
  - apply toKey_throws.
  - intros k Hk Hs. rewrite Hk. now apply toKey_key.
  - intros k Hk Hs.
    destruct (alreadyKey d) eqn:Hd.
    { destruct d as [s|dt]; [|discriminate]. simpl in Hd.
      rewrite (toKey_key s Hd) in Hk. congruence. }
    destruct (dateRead d) as [|t] eqn:Hr.
    { assert (toKey d = None) as E by (apply toKey_throws; auto). congruence. }
    exists t. split; [reflexivity|]. intros Ht.
    destruct (toKey_plainDay d t Hd Hr Ht) as (k' & Hk' & Hs'). congruence.
  - intros data ds H. split.
    + intros day Hday. split.
      * destruct (normalizeDays_In _ _ H _ Hday) as (orig & ? & ? & _). eauto.
      * apply toKey_key.
    + intros Hall.
      destruct (normalizeDays_shaped (av_days data) Hall) as (r & Hr & Hs & Hf).
      assert (r = ds) as -> by congruence. auto.
Qed.

(** ** Disabled days of the grid *)

(** X8: on the days that the calendar shows (the days of the displayed
    month) [toKey] does not throw and the test for another month never
    decides: whatever the view and the clock, a day is disabled exactly
    when it is before the current calendar day or its key is not in the
    available-day set of the view. *)
Theorem grid_day_disabled (s : State) (v : View) (d : LocalTime) :
  In d (monthDays (month s)) ->
  exists k, toKey (KDate (ValidDate d)) = Some k
    /\ isSameMonth d (month s) = true
    /\ (isDisabledDay s v d = Some true
        <-> dayBefore d now \/ k ∉ availableDaySet v)
    /\ (isDisabledDay s v d = Some false
        <-> ~ dayBefore d now /\ k ∈ availableDaySet v).
Proof.
  intros Hd. apply monthDays_In in Hd as (n & -> & Hn).
  rewrite toKey_valid_date. cbn [fullYear monthNo dayOfMonth].
  eexists. split; [reflexivity|].
  set (t := mkLocalTime (fullYear (month s)) (monthNo (month s)) n 0).
  assert (isSameMonth t (month s) = true) as Hsame.
  { unfold isSameMonth, t. simpl. now rewrite !Z.eqb_refl. }
  split; [exact Hsame|].
  unfold isDisabledDay. rewrite toKey_valid_date, Hsame.
  cbn [fullYear monthNo dayOfMonth startOfDay isBefore negb orb mbind option_bind].
  fold t.
  assert (time_ltb t today = true <-> dayBefore t now) as B.
  { rewrite (time_ltb_dayBefore t today) by reflexivity.
    unfold dayBefore, today. simpl. reflexivity. }
  change (mkLocalTime (fullYear t) (monthNo t) (dayOfMonth t) 0) with t.
  destruct (time_ltb t today) eqn:Hp.
  - assert (dayBefore t now) as Hb by now apply B.
    simpl. split; split; try discriminate; try tauto.
  - assert (~ dayBefore t now) as Hb.
    { intros Hb. apply B in Hb. discriminate Hb. }
    simpl. destruct (bool_decide (format_yMd_fields t ∈ availableDaySet v)) eqn:Hin.
    + apply bool_decide_eq_true in Hin. simpl.
      split; split; try discriminate; try tauto.
    + apply bool_decide_eq_false in Hin. simpl.
      split; split; try discriminate; try tauto.
Qed.

End Host.

(** ** The model at work *)

Import Sample.

Example toKey_keeps_a_key :
  toKey strictEngine (KStr "2025-03-10") = Some "2025-03-10".
Proof. reflexivity. Qed.

Example toKey_of_a_local_time :
  toKey strictEngine (KStr "2025-03-10T14:30:00") = Some "2025-03-10".
Proof. vm_compute. reflexivity. Qed.

Example toKey_of_a_Date :
  toKey strictEngine (KDate (ValidDate (mkLocalTime 2025 3 7 5000)))
  = Some "2025-03-07".
Proof. vm_compute. reflexivity. Qed.

(** The scenario of the specification: the 3rd is in the past on the
    5th, so the first commit after the snapshot arrives selects the
    7th. *)
Example load_selects_the_7th :
  option_map selectedDate (commits strictEngine clock 1 (Some mounted) loaded)
  = Some (Some mar07).
Proof. vm_compute. reflexivity. Qed.

(** With the shave chosen only Beto is offered, and once he is chosen
    his slots are. *)
Example shave_offers_beto :
  option_map employeesForUI (render strictEngine clock shaving) = Some [beto]
  /\ option_map slotsForUI (render strictEngine clock booking) = Some ["14:00"].
Proof. split; vm_compute; reflexivity. Qed.

(** Choosing the cut while Beto is chosen clears Beto and the slot. *)
Example cut_clears_beto :
  option_map (fun s => (serviceId s, employeeId s, selectedSlot s))
    (commits strictEngine clock 3 (Some booking) (setServiceId "1" booking))
  = Some ("1", "", "").
Proof. vm_compute. reflexivity. Qed.

(** Choosing Ana while the shave is chosen: the first commit clears the
    shave, and Ana with it (the effect of lines 311-319 also runs on a
    change of employee), and finds no day for Ana and the shave; the
    second commit selects the earliest day of the filters that remain. *)
Example ana_clears_the_shave :
  option_map (fun s => (serviceId s, employeeId s, selectedDate s))
    (commits strictEngine clock 1 (Some shaving) (setEmployeeId "1" shaving))
  = Some ("", "", None)
  /\ option_map (fun s => (serviceId s, employeeId s, selectedDate s))
       (commits strictEngine clock 2 (Some shaving) (setEmployeeId "1" shaving))
     = Some ("", "", Some mar07).
Proof. split; vm_compute; reflexivity. Qed.

(** ** The statements at the sample *)

(** C10 does not hold as stated: [toKey] throws on the Invalid Date and
    on a string that no engine reads, and the key of a day of the year
    10000 has five digits of year. *)
Lemma toKey_not_always_a_key :
  toKey strictEngine (KDate InvalidDate) = None
  /\ toKey strictEngine (KStr "") = None
  /\ toKey strictEngine (KDate (ValidDate (mkLocalTime 10000 1 1 0)))
     = Some "10000-01-01"
  /\ isKeyShape "10000-01-01" = false.
Proof. repeat split; vm_compute; reflexivity. Qed.

Lemma past_days_never_available_witness :
  exists ms,
    daysMemo strictEngine clock (Some snapshot) "" "" = Some ms
    /\ (forall k, k ∈ ms.2 ->
          isPastKey strictEngine clock k = false
          /\ forall t, calendarDay k = Some t ->
               time_ltb t (today clock) = false)
    /\ (forall e, earliestMemo strictEngine (Some snapshot) ms.2 = Some (Some e) ->
          isBefore (startOfDay e) (ValidDate (today clock)) = false).
Proof.
  destruct (daysMemo strictEngine clock (Some snapshot) "" "") as [ms|] eqn:E.
  - exists ms. split; [reflexivity|].
    exact (past_days_never_available strictEngine clock (Some snapshot) "" "" ms E).
  - vm_compute in E. discriminate E.
Defined.

Lemma incompatible_selection_cleared_witness :
  wellFormed strictEngine shaving = true
  /\ wellFormed strictEngine booking = true
  /\ (exists st,
        commits strictEngine clock 1 (Some shaving) (setEmployeeId "1" shaving)
        = Some st /\ serviceId st = "")
  /\ (exists st,
        commits strictEngine clock 1 (Some booking) (setServiceId "1" booking)
        = Some st /\ employeeId st = "" /\ selectedSlot st = "").
Proof.
  assert (wellFormed strictEngine shaving = true) as W1 by (vm_compute; reflexivity).
  assert (wellFormed strictEngine booking = true) as W2 by (vm_compute; reflexivity).
  repeat split; try assumption.
  - destruct (render strictEngine clock (setEmployeeId "1" shaving)) as [v|] eqn:Hv;
      [|vm_compute in Hv; discriminate Hv].
    assert (selectedDayData v = Some day10) as Hsd.
    { vm_compute in Hv. injection Hv as <-. reflexivity. }
    apply (proj1 (incompatible_selection_cleared strictEngine clock shaving "1" W1)
             v day10 ana).
    + discriminate.
    + discriminate.
    + exact Hv.
    + exact Hsd.
    + apply findEmployee_spec. reflexivity.
    + discriminate.
    + intros Ho. apply offers_true in Ho. vm_compute in Ho. discriminate Ho.
  - destruct (render strictEngine clock (setServiceId "1" booking)) as [v|] eqn:Hv;
      [|vm_compute in Hv; discriminate Hv].
    assert (selectedDayData v = Some day10) as Hsd.
    { vm_compute in Hv. injection Hv as <-. reflexivity. }
    apply (proj2 (incompatible_selection_cleared strictEngine clock booking "1" W2)
             v day10 beto).
    + discriminate.
    + discriminate.
    + exact Hv.
    + exact Hsd.
    + discriminate.
    + apply findEmployee_spec. reflexivity.
    + intros Ho. apply offers_true in Ho. vm_compute in Ho. discriminate Ho.
Defined.

Lemma slot_cleared_on_change_witness :
  wellFormed strictEngine booking = true
  /\ selectedDate (setSelectedDate (Some mar07) booking) <> selectedDate booking
  /\ exists st,
       commits strictEngine clock 1 (Some booking)
         (setSelectedDate (Some mar07) booking) = Some st
       /\ selectedSlot st = "".
Proof.
  assert (wellFormed strictEngine booking = true) as W by (vm_compute; reflexivity).
  split; [exact W|]. split; [discriminate|].
  apply (slot_cleared_on_change strictEngine clock booking
           (setSelectedDate (Some mar07) booking) W).
  - destruct (render strictEngine clock booking) as [v|] eqn:Hv;
      [|vm_compute in Hv; discriminate Hv].
    apply (byEvent strictEngine clock booking _ v (ClickDay (mkLocalTime 2025 3 7 0)));
      [exact Hv| |].
    + vm_compute. reflexivity.
    + vm_compute in Hv. injection Hv as <-. vm_compute. reflexivity.
  - left. discriminate.
Defined.

Lemma services_offered_witness :
  servicesMemo (Some day10) "2" = emp_services beto
  /\ List.NoDup (List.map svc_id (servicesMemo (Some day10) "")).
Proof.
  split.
  - apply (services_offered day10 "2"); [discriminate|].
    apply findEmployee_spec. reflexivity.
  - apply (services_offered day10 ""). reflexivity.
Defined.


Lemma fetch_failure_witness :
  error (fetchSettle strictEngine
           (Rejected (mkExn (Some "TypeError") (Some "Failed to fetch"))) booking)
  = "Failed to fetch"
  /\ availability (fetchSettle strictEngine
           (Rejected (mkExn (Some "TypeError") (Some "Failed to fetch"))) booking)
     = Some snapshot
  /\ error (fetchSettle strictEngine
           (Rejected (mkExn (Some "AbortError") (Some "The user aborted a request.")))
           booking) = "".
Proof.
  split; [|split].
  - apply (fetch_failure strictEngine booking
             (mkExn (Some "TypeError") (Some "Failed to fetch"))). discriminate.
  - apply (fetch_failure strictEngine booking
             (mkExn (Some "TypeError") (Some "Failed to fetch"))). discriminate.
  - apply (fetch_failure strictEngine booking
             (mkExn (Some "AbortError") (Some "The user aborted a request."))).
    reflexivity.
Defined.

(** ** Further statements at the sample *)

Lemma daysByKey_lookup_witness :
  exists ms,
    daysMemo strictEngine clock (Some snapshot) "" "" = Some ms
    /\ (forall d, ms.1 !! "2025-03-10" = Some d <->
          exists l1 l2, daysOf (Some snapshot) = l1 ++ d :: l2
            /\ toKey strictEngine (KStr (day_date d)) = Some "2025-03-10"
            /\ forall d', In d' l2 ->
                 toKey strictEngine (KStr (day_date d')) <> Some "2025-03-10")
    /\ (ms.1 !! "2025-03-10" = None <->
        forall d', In d' (daysOf (Some snapshot)) ->
          toKey strictEngine (KStr (day_date d')) <> Some "2025-03-10").
Proof.
  destruct (daysMemo strictEngine clock (Some snapshot) "" "") as [ms|] eqn:E;
    [|vm_compute in E; discriminate E].
  exists ms. split; [reflexivity|].
  exact (daysByKey_lookup strictEngine clock (Some snapshot) "" "" ms
           "2025-03-10" E).
Defined.

Lemma clearing_filters_keeps_days_witness :
  exists ms ms',
    daysMemo strictEngine clock (Some snapshot) "2" "2" = Some ms
    /\ daysMemo strictEngine clock (Some snapshot) "" "2" = Some ms'
    /\ ms.2 ⊆ ms'.2.
Proof.
  destruct (daysMemo strictEngine clock (Some snapshot) "2" "2") as [ms|] eqn:E;
    [|vm_compute in E; discriminate E].
  destruct (daysMemo strictEngine clock (Some snapshot) "" "2") as [ms'|] eqn:E';
    [|vm_compute in E'; discriminate E'].
  exists ms, ms'. split; [reflexivity|]. split; [reflexivity|].
  exact (clearing_filters_keeps_days strictEngine clock (Some snapshot)
           "2" "2" "" "2" ms ms' (or_intror eq_refl) (or_introl eq_refl) E E').
Defined.

Lemma offered_employees_keep_the_day_witness :
  List.NoDup (List.map emp_id (day_employees day10))
  /\ (In beto (employeesMemo (Some day10) "2")
      <-> In beto (day_employees day10)
          /\ dayHasAvailability (pretty (emp_id beto)) "2" day10 = true).
Proof.
  assert (List.NoDup (List.map emp_id (day_employees day10))) as N.
  { simpl. constructor.
    - intros [H|[]]. discriminate H.
    - constructor; [intros []|constructor]. }
  split; [exact N|].
  exact (offered_employees_keep_the_day day10 "2" beto N).
Defined.

Lemma offered_services_keep_the_day_witness :
  "2" <> ""
  /\ ((exists sv, In sv (servicesMemo (Some day10) "") /\ pretty (svc_id sv) = "2")
      <-> dayHasAvailability "" "2" day10 = true).
Proof.
  assert ("2" <> "") as N by discriminate.
  split; [exact N|].
  exact (offered_services_keep_the_day day10 "2" N).
Defined.

Lemma picked_slot_is_offered_witness :
  exists v,
    render strictEngine clock booking = Some v
    /\ enabled booking v (PickSlot "14:00") = true
    /\ employeeId booking <> "" /\ selectedDate booking <> None
    /\ exists sd emp, selectedDayData v = Some sd
         /\ IsEmployee (day_employees sd) (employeeId booking) emp
         /\ In "14:00" (emp_slots emp).
Proof.
  destruct (render strictEngine clock booking) as [v|] eqn:Hv;
    [|vm_compute in Hv; discriminate Hv].
  assert (enabled booking v (PickSlot "14:00") = true) as He.
  { vm_compute in Hv. injection Hv as <-. vm_compute. reflexivity. }
  exists v. split; [reflexivity|]. split; [exact He|].
  exact (picked_slot_is_offered strictEngine clock booking v "14:00" Hv He).
Defined.

Lemma click_selects_available_witness :
  exists v s',
    render strictEngine clock resting = Some v
    /\ handle strictEngine clock resting v (ClickDay (mkLocalTime 2025 3 10 0))
       = Some s'
    /\ (s' = resting
        \/ (s' = setSelectedDate (Some mar10) resting
            /\ isSameMonth (mkLocalTime 2025 3 10 0) (month resting) = true
            /\ isBefore (startOfDay mar10) (ValidDate (today clock)) = false
            /\ dateAvailable strictEngine s' v)).
Proof.
  destruct (render strictEngine clock resting) as [v|] eqn:Hv;
    [|vm_compute in Hv; discriminate Hv].
  destruct (handle strictEngine clock resting v (ClickDay (mkLocalTime 2025 3 10 0)))
    as [s'|] eqn:Hh;
    [|vm_compute in Hv; injection Hv as <-; vm_compute in Hh; discriminate Hh].
  exists v, s'. split; [reflexivity|]. split; [exact Hh|].
  exact (click_selects_available strictEngine clock resting s' v
           (mkLocalTime 2025 3 10 0) Hh).
Defined.

Lemma cascade_settles_witness :
  wellFormed strictEngine booking = true
  /\ wellFormed strictEngine (setServiceId "1" booking) = true
  /\ exists st,
       commits strictEngine clock 4 (Some booking) (setServiceId "1" booking)
       = Some st
       /\ (forall n,
             commits strictEngine clock (4 + n) (Some booking)
               (setServiceId "1" booking) = Some st)
       /\ commit strictEngine clock (Some st) st = Some (st, []).
Proof.
  assert (wellFormed strictEngine booking = true) as W by (vm_compute; reflexivity).
  assert (wellFormed strictEngine (setServiceId "1" booking) = true) as W'
    by (vm_compute; reflexivity).
  split; [exact W|]. split; [exact W'|].
  apply (cascade_settles strictEngine clock (Some booking)
           (setServiceId "1" booking)).
  - intros p [= <-]. exact W.
  - exact W'.
Defined.

Lemma settled_date_is_available_witness :
  wellFormed strictEngine mounted = true
  /\ wellFormed strictEngine loaded = true
  /\ calendarKeys (availability loaded) = true
  /\ validityDeps (Some mounted) loaded = true
  /\ exists st v,
       commits strictEngine clock 4 (Some mounted) loaded = Some st
       /\ commit strictEngine clock (Some st) st = Some (st, [])
       /\ render strictEngine clock st = Some v
       /\ dateSettled strictEngine st (availableDaySet v).
Proof.
  assert (wellFormed strictEngine mounted = true) as W by (vm_compute; reflexivity).
  assert (wellFormed strictEngine loaded = true) as W' by (vm_compute; reflexivity).
  assert (calendarKeys (availability loaded) = true) as C by (vm_compute; reflexivity).
  assert (validityDeps (Some mounted) loaded = true) as D by reflexivity.
  split; [exact W|]. split; [exact W'|]. split; [exact C|]. split; [exact D|].
  apply (settled_date_is_available strictEngine clock (Some mounted) loaded).
  - intros p [= <-]. exact W.
  - exact W'.
  - exact C.
  - discriminate.
  - exact D.
Defined.

Lemma offered_employee_keeps_date_witness :
  exists v,
    render strictEngine clock shaving = Some v
    /\ dateAvailable strictEngine shaving v
    /\ selectedDayData v = Some day10
    /\ enabled shaving v (SelectEmployee "2") = true
    /\ commit strictEngine clock (Some shaving) (setEmployeeId "2" shaving)
       = Some (setTimeOpen false
                 (setSelectedSlot "" (setEmployeeId "2" shaving)), []).
Proof.
  destruct (render strictEngine clock shaving) as [v|] eqn:Hv;
    [|vm_compute in Hv; discriminate Hv].
  assert (dateAvailable strictEngine shaving v) as Ha.
  { exists mar10, "2025-03-10". split; [reflexivity|]. split; [reflexivity|].
    vm_compute in Hv. injection Hv as <-.
    refine (bool_decide_unpack _ _). vm_compute. exact I. }
  assert (selectedDayData v = Some day10) as Hsd.
  { vm_compute in Hv. injection Hv as <-. reflexivity. }
  assert (enabled shaving v (SelectEmployee "2") = true) as He.
  { vm_compute in Hv. injection Hv as <-. vm_compute. reflexivity. }
  exists v. split; [reflexivity|]. split; [exact Ha|]. split; [exact Hsd|].
  split; [exact He|].
  apply (offered_employee_keeps_date strictEngine clock shaving v day10 "2"
           Hv Ha Hsd).
  - simpl. constructor.
    + intros [H|[]]. discriminate H.
    + constructor; [intros []|constructor].
  - exact He.
  - discriminate.
Defined.

Lemma month_step_fetches_once_witness :
  exists v,
    render strictEngine clock resting = Some v
    /\ handle strictEngine clock resting v NextMonth
       = Some (setMonth (mkLocalTime 2025 4 1 0) resting)
    /\ commit strictEngine clock (Some resting)
         (setMonth (mkLocalTime 2025 4 1 0) resting)
       = Some (setError "" (setLoadingAvailability true
                              (setMonth (mkLocalTime 2025 4 1 0) resting)),
               [GetAvailability "2025-04"])
    /\ addMonths (mkLocalTime 2025 4 1 0) (-1) = month resting.
Proof.
  destruct (render strictEngine clock resting) as [v|] eqn:Hv;
    [|vm_compute in Hv; discriminate Hv].
  exists v. split; [reflexivity|].
  apply (month_step_fetches_once strictEngine clock resting v 1 Hv).
  - simpl. lia.
  - reflexivity.
  - left. reflexivity.
Defined.

Lemma fetch_success_witness :
  exists ds,
    normalizeDays strictEngine (av_days snapshot) = Some ds
    /\ availability (fetchSettle strictEngine (Resolved snapshot) mounted)
       = Some (mkAvailability (av_companyId snapshot) (av_month snapshot) ds)
    /\ dayKeys strictEngine (av_days snapshot) = Some (List.map day_date ds)
    /\ List.map day_employees ds = List.map day_employees (av_days snapshot)
    /\ error (fetchSettle strictEngine (Resolved snapshot) mounted) = error mounted.
Proof.
  destruct (normalizeDays strictEngine (av_days snapshot)) as [ds|] eqn:E;
    [|vm_compute in E; discriminate E].
  exists ds. split; [reflexivity|].
  exact (proj1 (fetch_success strictEngine mounted snapshot) ds E).
Defined.

Lemma failed_submission_keeps_the_form_witness :
  canReserveOf booking = true
  /\ (handleSubmit strictEngine booking
        (Some (mkExn (Some "Error") (Some "HTTP 409 Conflict")))
        (Resolved snapshot)).1
     = setError "HTTP 409 Conflict" booking
  /\ List.filter isGet
       (handleSubmit strictEngine booking
          (Some (mkExn (Some "Error") (Some "HTTP 409 Conflict")))
          (Resolved snapshot)).2 = []
  /\ List.length
       (handleSubmit strictEngine booking
          (Some (mkExn (Some "Error") (Some "HTTP 409 Conflict")))
          (Resolved snapshot)).2 = 1%nat.
Proof.
  assert (canReserveOf booking = true) as C by reflexivity.
  split; [exact C|].
  exact (proj2 (proj2 (proj2
           (failed_submission_keeps_the_form strictEngine booking
              (Some (mkExn (Some "Error") (Some "HTTP 409 Conflict")))
              (Resolved snapshot))))
           (mkLocalTime 2025 3 10 0)
           (mkExn (Some "Error") (Some "HTTP 409 Conflict"))
           C eq_refl eq_refl).
Defined.

Lemma input_outside_dependencies_witness :
  exists v,
    render strictEngine clock booking = Some v
    /\ commit strictEngine clock (Some booking) (setNote "by the window" booking)
       = Some (setNote "by the window" booking, [])
    /\ exists v',
         render strictEngine clock (setNote "by the window" booking) = Some v'
         /\ sameLists v v'.
Proof.
  destruct (render strictEngine clock booking) as [v|] eqn:Hv;
    [|vm_compute in Hv; discriminate Hv].
  exists v. split; [reflexivity|].
  exact (input_outside_dependencies strictEngine clock booking
           (setNote "by the window" booking) v (ChangeNote "by the window")
           Hv eq_refl eq_refl).
Defined.

Lemma api_outcomes_witness :
  exists msg rest,
    api (inr (mkResponse false 503 "Service Unavailable" (Some "down")
                (inr snapshot)))
    = Thrown (mkExn (Some "Error") (Some msg))
    /\ msg = "HTTP " +:+ pretty 503 +:+ " " +:+ rest
    /\ error (fetchSettle strictEngine
                (Rejected (mkExn (Some "Error") (Some msg))) booking) = msg
    /\ msg <> ""
    /\ availability (fetchSettle strictEngine
                       (Rejected (mkExn (Some "Error") (Some msg))) booking)
       = availability booking.
Proof.
  exact (proj1 (proj2
           (api_outcomes strictEngine
              (mkResponse false 503 "Service Unavailable" (Some "down")
                 (inr snapshot)) booking)) eq_refl).
Defined.

(** ** Past days, selected dates and keys at the sample *)

(** The day of the clock itself is not a past day: on the 7th the 7th
    is available. *)
Example today_is_available :
  option_map (fun ms => bool_decide ("2025-03-07" ∈ ms.2))
    (daysMemo strictEngine (mkLocalTime 2025 3 7 36000000) (Some snapshot) "" "")
  = Some true.
Proof. vm_compute. reflexivity. Qed.

Lemma availableDaySet_rescan_witness :
  exists ms,
    daysMemo strictEngine clock (Some snapshot) "1" "" = Some ms
    /\ ("2025-03-10" ∈ ms.2 <->
        exists d, In d (av_days snapshot)
          /\ toKey strictEngine (KStr (day_date d)) = Some "2025-03-10"
          /\ ~ PastDay strictEngine clock "2025-03-10"
          /\ DayAvailable "1" "" d)
    /\ ("2025-03-03" ∈ ms.2 <->
        ~ dayBefore (mkLocalTime 2025 3 3 0) clock
        /\ exists d, In d (av_days snapshot)
             /\ toKey strictEngine (KStr (day_date d)) = Some "2025-03-03"
             /\ DayAvailable "1" "" d).
Proof.
  pose proof (availableDaySet_rescan strictEngine clock (Some snapshot) "1" "") as R.
  destruct (daysMemo strictEngine clock (Some snapshot) "1" "") as [ms|] eqn:E.
  - destruct R as [R1 R2]. exists ms. split; [reflexivity|]. split.
    + exact (R1 "2025-03-10").
    + apply (R2 "2025-03-03" (mkLocalTime 2025 3 3 0)). vm_compute. reflexivity.
  - vm_compute in E. discriminate E.
Defined.





Lemma toKey_normalises_witness :
  alreadyKey (KStr "2025-03-10T14:30:00") = false
  /\ plainDay (mkLocalTime 2025 3 10 52200000)
  /\ exists k,
       toKey strictEngine (KStr "2025-03-10T14:30:00") = Some k
       /\ isKeyShape k = true
       /\ toKey strictEngine (KStr k)
          = toKey strictEngine (KStr "2025-03-10T14:30:00").
Proof.
  assert (plainDay (mkLocalTime 2025 3 10 52200000)) as P
    by (unfold plainDay; simpl; lia).
  split; [reflexivity|]. split; [exact P|].
  destruct (toKey_normalises strictEngine (KStr "2025-03-10T14:30:00"))
    as (_ & H2 & _).
  apply (H2 (mkLocalTime 2025 3 10 52200000)).
  - reflexivity.
  - vm_compute. reflexivity.
  - exact P.
Defined.

Lemma grid_day_disabled_witness :
  In (mkLocalTime 2025 3 3 0) (monthDays (month resting))
  /\ exists v k,
       render strictEngine clock resting = Some v
       /\ toKey strictEngine (KDate (ValidDate (mkLocalTime 2025 3 3 0))) = Some k
       /\ isSameMonth (mkLocalTime 2025 3 3 0) (month resting) = true
       /\ (isDisabledDay strictEngine clock resting v (mkLocalTime 2025 3 3 0)
           = Some true
           <-> dayBefore (mkLocalTime 2025 3 3 0) clock \/ k ∉ availableDaySet v)
       /\ (isDisabledDay strictEngine clock resting v (mkLocalTime 2025 3 3 0)
           = Some false
           <-> ~ dayBefore (mkLocalTime 2025 3 3 0) clock
               /\ k ∈ availableDaySet v).
Proof.
  assert (In (mkLocalTime 2025 3 3 0) (monthDays (month resting))) as Hd.
  { vm_compute. right. right. left. reflexivity. }
  split; [exact Hd|].
  destruct (render strictEngine clock resting) as [v|] eqn:Hv;
    [|vm_compute in Hv; discriminate Hv].
  destruct (grid_day_disabled strictEngine clock resting v
              (mkLocalTime 2025 3 3 0) Hd) as (k & Hk & Hrest).
  exists v, k. split; [reflexivity|]. split; [exact Hk|]. exact Hrest.
Defined.
